(** * DataLama: the cache staleness check and the duration bookkeeping

    A shallow embedding of [src/datalama.py].  The class [DataLama] wires a
    document loader, an index builder and a query engine together; what it
    owns itself is the decision between rebuilding and reloading the index
    ([__init__], [_needs_reindexing]) and the two duration attributes
    ([query], [get_load_duration], [get_query_durations]).

    The collaborators (llama_index, the embedding and generation backends,
    the clock) are parameters of the development.  The file system, the
    Python heap and the exceptions are modelled explicitly. *)

From Stdlib Require Import ZArith QArith Qround Qabs Qpower Lia Lqa Bool.
From stdpp Require Import base option list gmap strings.

Local Open Scope string_scope.
Local Open Scope list_scope.
Local Open Scope Z_scope.

(** ** The file system *)

(** A path is the list of its components below the root of the tree. *)
Definition path := list string.

(** [Path(root) / file] *)
Definition path_join (root : path) (name : string) : path := root ++ [name].

(** A tree of directories and regular files.  [mtime] is the float that
    [os.path.getmtime] returns; only the order of these (finite) floats is
    used by the program, so an integer stands for it.  A directory that is
    not [listable] is one on which [os.scandir] fails (no read permission);
    [os.stat] on it still succeeds.  The trees have regular files and
    directories only: symbolic links, and directories that can be listed
    but not searched, under which [os.stat] of a listed name fails, are not
    part of this model. *)
Unset Elimination Schemes.
Inductive node :=
| File (mtime : Z)
| Dir (mtime : Z) (listable : bool) (entries : list (string * node)).
Set Elimination Schemes.

Definition node_mtime (n : node) : Z :=
  match n with
  | File m => m
  | Dir m _ _ => m
  end.

Definition is_dir (n : node) : bool :=
  match n with
  | Dir _ _ _ => true
  | File _ => false
  end.

Fixpoint find_entry (name : string) (es : list (string * node)) : option node :=
  match es with
  | [] => None
  | (k, n) :: es' => if String.eqb name k then Some n else find_entry name es'
  end.

(** The outcome of [os.stat]. *)
Inductive stat_result :=
| Found (n : node)
| NoEnt
| NotDir.

Fixpoint resolve (n : node) (p : path) : stat_result :=
  match p with
  | [] => Found n
  | c :: p' =>
      match n with
      | File _ => NotDir
      | Dir _ _ es =>
          match find_entry c es with
          | Some n' => resolve n' p'
          | None => NoEnt
          end
      end
  end.

(** The names [os.walk] puts in [dirs] and in [files] for one directory. *)
Definition dirnames (es : list (string * node)) : list string :=
  map fst (List.filter (fun e => is_dir (snd e)) es).

Definition filenames (es : list (string * node)) : list string :=
  map fst (List.filter (fun e => negb (is_dir (snd e))) es).

Definition walk_item : Type := path * list string * list string.

(** [os.walk(top)], top-down, [onerror=None]: a directory whose [scandir]
    fails yields nothing and is not descended into, and the error is
    dropped; so does a [top] that is a regular file. *)
Fixpoint walk_node (top : path) (n : node) : list walk_item :=
  match n with
  | File _ => []
  | Dir _ false _ => []
  | Dir _ true es =>
      (top, dirnames es, filenames es) ::
      (fix walk_entries (es : list (string * node)) : list walk_item :=
         match es with
         | [] => []
         | (name, c) :: es' =>
             (if is_dir c then walk_node (path_join top name) c else [])
               ++ walk_entries es'
         end) es
  end.

(** [os.walk] on a path of the file system [fs]; a missing [top] makes
    [scandir] fail, and that error is dropped too. *)
Definition os_walk_fs (fs : node) (top : path) : list walk_item :=
  match resolve fs top with
  | Found n => walk_node top n
  | NoEnt | NotDir => []
  end.

(** Names are unique within a directory. *)
Fixpoint wf_node (n : node) : bool :=
  match n with
  | File _ => true
  | Dir _ _ es =>
      bool_decide (NoDup (map fst es)) &&
      (fix wf_entries (es : list (string * node)) : bool :=
         match es with
         | [] => true
         | (_, c) :: es' => wf_node c && wf_entries es'
         end) es
  end.

(** Every directory of the tree can be listed. *)
Fixpoint all_listable (n : node) : bool :=
  match n with
  | File _ => true
  | Dir _ l es =>
      l &&
      (fix go (es : list (string * node)) : bool :=
         match es with
         | [] => true
         | (_, c) :: es' => all_listable c && go es'
         end) es
  end.

(** The walk once more, each directory with its own [mtime] and each of
    its files with the file's [mtime]: what [os.path.getmtime] will find
    at the paths of [walk_node]. *)
Definition file_entries (es : list (string * node)) : list (string * Z) :=
  flat_map (fun e => match snd e with
                     | File t => [(fst e, t)]
                     | Dir _ _ _ => []
                     end) es.

Definition timed_item : Type := path * list string * Z * list (string * Z).

Definition untimed (it : timed_item) : walk_item :=
  let '(root, dirs, _, files) := it in (root, dirs, map fst files).

Fixpoint walk_timed (top : path) (n : node) : list timed_item :=
  match n with
  | File _ => []
  | Dir _ false _ => []
  | Dir m true es =>
      (top, dirnames es, m, file_entries es) ::
      (fix walk_entries (es : list (string * node)) : list timed_item :=
         match es with
         | [] => []
         | (name, c) :: es' =>
             (if is_dir c then walk_timed (path_join top name) c else [])
               ++ walk_entries es'
         end) es
  end.

(** The files of a walk, in the order in which the loops of lines 104-105
    visit them. *)
Definition walk_files (items : list walk_item) : list path :=
  flat_map (fun it : walk_item =>
              let '(root, _, files) := it in map (path_join root) files) items.

Definition timed_files (items : list timed_item) : list (path * Z) :=
  flat_map (fun it : timed_item =>
              let '(root, _, _, files) := it in
              map (fun f => (path_join root (fst f), snd f)) files) items.

(** [p] is a regular file of [fs] modified after [T]. *)
Definition newer_file (fs : node) (T : Z) (p : path) : Prop :=
  exists t, resolve fs p = Found (File t) /\ T < t.

(** The directory at [rel] below [n] is reached by listing: [n] and every
    directory on the way down to [rel], [rel] included, can be listed. *)
Fixpoint listable_along (n : node) (rel : path) : bool :=
  match rel with
  | [] =>
      match n with
      | Dir _ l _ => l
      | File _ => false
      end
  | c :: rel' =>
      match n with
      | Dir _ l es =>
          l && match find_entry c es with
               | Some n' => listable_along n' rel'
               | None => false
               end
      | File _ => false
      end
  end.

(** [T] is the latest modification time among the directories reached by
    listing from [n], [n] included. *)
Definition latest_dir_mtime (n : node) (T : Z) : Prop :=
  (exists rel l es,
      resolve n rel = Found (Dir T l es) /\ listable_along n rel = true) /\
  (forall rel t l es,
      resolve n rel = Found (Dir t l es) -> listable_along n rel = true -> t <= T).

(** ** Exceptions and results *)

Inductive exn :=
| ValueError
| FileNotFoundError
| NotADirectoryError
| PermissionError
| AttributeError
| TypeError
| IndexError
| CollaboratorError (what : string).

Inductive result (A : Type) :=
| Ok (a : A)
| Raise (e : exn).
Arguments Ok {A} a.
Arguments Raise {A} e.

(** [max] of a non-empty sequence; [max] of an empty one raises
    [ValueError]. *)
Fixpoint max_from (m : Z) (xs : list Z) : Z :=
  match xs with
  | [] => m
  | x :: xs' => max_from (if m <? x then x else m) xs'
  end.

Definition py_max (xs : list Z) : result Z :=
  match xs with
  | [] => Raise ValueError
  | x :: xs' => Ok (max_from x xs')
  end.

(** ** Durations *)

(** Seconds are Python floats, that is IEEE 754 doubles.  A double is
    written as the rational it stands for; the durations of the program are
    finite and far from the largest double, so infinities and NaN are left
    out. *)

(** The integer nearest to [x], ties to the even one. *)
Definition round_half_even (x : Q) : Z :=
  let f := Qfloor x in
  match ((x - inject_Z f) ?= (1 # 2))%Q with
  | Lt => f
  | Gt => f + 1
  | Eq => if Z.even f then f else f + 1
  end.

(** [floor (log2 a)] of a positive rational [a]. *)
Definition binade (a : Q) : Z :=
  let e := Z.log2 (Qnum a) - Z.log2 (Zpos (Qden a)) in
  if Qle_bool (2 ^ e)%Q a then e else e - 1.

(** The double nearest to [x], ties to the even significand: a significand
    of 53 bits, the last of them worth [2^(e-52)] in the binade [2^e] and
    never less than [2^-1074]. *)
Definition nearest_double (x : Q) : Q :=
  if Qeq_bool x 0 then 0%Q
  else
    let u := Z.max (binade (Qabs x)) (-1022) - 52 in
    (inject_Z (round_half_even (x / 2 ^ u)%Q) * 2 ^ u)%Q.

(** A double: at most 53 bits of significand, the last of them worth no
    less than [2^-1074]. *)
Definition is_double (q : Q) : Prop :=
  exists m e : Z, (q == inject_Z m * 2 ^ e)%Q /\ Z.abs m <= 2 ^ 53 /\ -1074 <= e.

(** [d] is [x] rounded to a double: [d] is a double and no double is
    nearer to [x]. *)
Definition rounds_to (x d : Q) : Prop :=
  is_double d /\ forall y, is_double y -> (Qabs (d - x) <= Qabs (y - x))%Q.

(** [a - b] on floats: the exact difference, rounded to a double. *)
Definition py_sub (a b : Q) : Q := nearest_double (a - b)%Q.

(** [round(x, 1)] on a float: the exact value of [x] is rounded to the
    nearest tenth, ties to the even tenth, and the result is the double
    nearest to that decimal. *)
Definition round1 (x : Q) : Q :=
  nearest_double (Qmake (round_half_even (x * 10)%Q) 10).

Arguments nearest_double x : simpl never.
Arguments py_sub a b : simpl never.
Arguments round1 x : simpl never.

(** ** The collaborators *)

(** What the program calls and does not define: the clock, the embedding
    and generation backends, the document loader, the index and the query
    engine.  A collaborator reads and writes the file system and a state of
    its own, and returns or raises. *)
Definition collab (ExtState A : Type) : Type :=
  node -> ExtState -> result A * node * ExtState.

Class Collaborators := {
  Document : Type;
  Index : Type;
  QueryEngine : Type;
  Response : Type;
  ExtState : Type;
  (** the value of the [k]-th call of [time.perf_counter()] *)
  perf_counter_at : nat -> Q;
  (** [HuggingFaceEmbedding(model_name=...)], assigned to [Settings.embed_model] *)
  HuggingFaceEmbedding : string -> collab ExtState unit;
  (** [Ollama(model=..., request_timeout=...)], assigned to [Settings.llm] *)
  Ollama : string -> Q -> collab ExtState unit;
  (** [SimpleDirectoryReader(path).load_data(show_progress=True)] *)
  load_data : path -> collab ExtState (list Document);
  (** [VectorStoreIndex.from_documents(documents)] *)
  from_documents : list Document -> collab ExtState Index;
  (** [index.storage_context.persist(dir)] *)
  persist : Index -> path -> collab ExtState unit;
  (** [load_index_from_storage(StorageContext.from_defaults(persist_dir=dir))] *)
  load_index_from_storage : path -> collab ExtState Index;
  (** [index.as_query_engine(similarity_top_k=k)] *)
  as_query_engine : Index -> nat -> collab ExtState QueryEngine;
  (** [query_engine.query(msg)] *)
  engine_query : QueryEngine -> string -> collab ExtState Response;
}.

(** [time.perf_counter] never goes back. *)
Definition monotone_clock `{Collaborators} : Prop :=
  forall i j : nat, (i <= j)%nat -> (perf_counter_at i <= perf_counter_at j)%Q.

Section DataLama.
Context `{Collaborators}.

(** ** The heap *)

(** Objects live at locations; a new object takes the next free one.  The
    lists and tuples of the program hold floats only. *)
Definition loc := nat.

Inductive value :=
| VFloat (q : Q)
| VRef (l : loc)
| VEngine (e : QueryEngine).

Inductive pyobj :=
| PyList (xs : list Q)
| PyTuple (xs : list Q)
| PyInstance (attrs : gmap string value).

(** ** What a run leaves behind *)

(** The messages of [logging.info], with what is formatted into them. *)
Inductive logmsg :=
| LogCreating (data : path)
| LogPersisted (dir : path)
| LogLoading (dir : path)
| LogLoaded (seconds : Q)
| LogProcessing (msg : string)
| LogCompleted (seconds : Q)
| LogReindexing (file : path).

(** The trace of a run, oldest event first: the [os.stat] calls (of
    [Path.exists] and [os.path.getmtime]), the readings of the clock, the
    calls of the collaborators with their arguments, the attribute
    assignments and the log messages.  [EvEnter_needs_reindexing] marks the
    entry into [_needs_reindexing], [EvPerfCounter k] is the [k]-th reading
    of [time.perf_counter]. *)
Inductive event :=
| EvStat (p : path)
| EvPerfCounter (k : nat)
| EvEnter_needs_reindexing (persistent_dir data_dir : path)
| EvEmbedding (model : string)
| EvOllama (model : string) (timeout : Q)
| EvLoadData (p : path)
| EvFromDocuments (docs : list Document)
| EvPersist (i : Index) (p : path)
| EvLoadIndex (p : path)
| EvAsQueryEngine (i : Index) (k : nat)
| EvEngineQuery (e : QueryEngine) (msg : string)
| EvSetAttr (self : loc) (attr : string)
| EvLog (m : logmsg).

(** The file system, the state of the collaborators, the number of clock
    readings made so far, the heap and the trace. *)
Record world := World {
  w_fs : node;
  w_ext : ExtState;
  w_ticks : nat;
  w_heap : list pyobj;
  w_trace : list event;
}.

(** ** The monad of the program: state and exceptions *)

Definition M (A : Type) : Type := world -> result A * world.

Definition ret {A} (a : A) : M A := fun w => (Ok a, w).

Definition raise {A} (e : exn) : M A := fun w => (Raise e, w).

Definition bind {A B} (m : M A) (k : A -> M B) : M B :=
  fun w =>
    match m w with
    | (Ok a, w') => k a w'
    | (Raise e, w') => (Raise e, w')
    end.

Local Notation "'let!' x ':=' m 'in' k" := (bind m (fun x => k))
  (at level 10, x name, m at level 100, k at level 200).
Local Notation "m ;; k" := (bind m (fun _ => k))
  (at level 100, k at level 200, right associativity).

Definition lift_result {A} (r : result A) : M A := fun w => (r, w).

Definition emit (e : event) : M unit :=
  fun w => (Ok tt, World (w_fs w) (w_ext w) (w_ticks w) (w_heap w) (w_trace w ++ [e])).

(** [logging.info(...)] *)
Definition logging_info (m : logmsg) : M unit := emit (EvLog m).

(** [time.perf_counter()] *)
Definition perf_counter : M Q :=
  fun w => (Ok (perf_counter_at (w_ticks w)),
            World (w_fs w) (w_ext w) (S (w_ticks w)) (w_heap w)
                  (w_trace w ++ [EvPerfCounter (w_ticks w)])).

(** A call of a collaborator. *)
Definition call {A} (c : collab ExtState A) : M A :=
  fun w =>
    let '(r, fs, ext) := c (w_fs w) (w_ext w) in
    (r, World fs ext (w_ticks w) (w_heap w) (w_trace w)).

(** [os.stat(p)] *)
Definition os_stat (p : path) : M node :=
  emit (EvStat p) ;;
  fun w =>
    match resolve (w_fs w) p with
    | Found n => (Ok n, w)
    | NoEnt => (Raise FileNotFoundError, w)
    | NotDir => (Raise NotADirectoryError, w)
    end.

(** [Path.exists()]: [os.stat], false when the path cannot be found. *)
Definition path_exists (p : path) : M bool :=
  emit (EvStat p) ;;
  fun w =>
    match resolve (w_fs w) p with
    | Found _ => (Ok true, w)
    | NoEnt | NotDir => (Ok false, w)
    end.

(** [os.path.getmtime(p)] *)
Definition getmtime (p : path) : M Z :=
  let! n := os_stat p in ret (node_mtime n).

(** [os.walk(top)].  The program changes nothing in the tree while it
    iterates, so the generator is the list of what it yields. *)
Definition os_walk (top : path) : M (list walk_item) :=
  fun w => (Ok (os_walk_fs (w_fs w) top), w).

Definition set_heap (h : list pyobj) : M unit :=
  fun w => (Ok tt, World (w_fs w) (w_ext w) (w_ticks w) h (w_trace w)).

Definition alloc (o : pyobj) : M loc :=
  fun w => (Ok (length (w_heap w)),
            World (w_fs w) (w_ext w) (w_ticks w) (w_heap w ++ [o]) (w_trace w)).

(** [self.a] *)
Definition getattr (self : loc) (a : string) : M value :=
  fun w =>
    match w_heap w !! self with
    | Some (PyInstance attrs) =>
        match attrs !! a with
        | Some v => (Ok v, w)
        | None => (Raise AttributeError, w)
        end
    | _ => (Raise AttributeError, w)
    end.

(** [self.a = v] *)
Definition setattr (self : loc) (a : string) (v : value) : M unit :=
  fun w =>
    match w_heap w !! self with
    | Some (PyInstance attrs) =>
        (emit (EvSetAttr self a) ;;
         set_heap (<[self := PyInstance (<[a := v]> attrs)]> (w_heap w))) w
    | _ => (Raise AttributeError, w)
    end.

(** [l.append(q)]: only a list has the method. *)
Definition list_append (l : loc) (q : Q) : M unit :=
  fun w =>
    match w_heap w !! l with
    | Some (PyList xs) => set_heap (<[l := PyList (xs ++ [q])]> (w_heap w)) w
    | _ => (Raise AttributeError, w)
    end.

(** [l[i] = q]: a tuple does not support item assignment. *)
Definition list_setitem (l : loc) (i : nat) (q : Q) : M unit :=
  fun w =>
    match w_heap w !! l with
    | Some (PyList xs) =>
        if bool_decide (i < length xs)%nat
        then set_heap (<[l := PyList (<[i := q]> xs)]> (w_heap w)) w
        else (Raise IndexError, w)
    | _ => (Raise TypeError, w)
    end.

(** [tuple(l)]: a new tuple object with the items of [l]. *)
Definition py_tuple (l : loc) : M loc :=
  fun w =>
    match w_heap w !! l with
    | Some (PyList xs) => alloc (PyTuple xs) w
    | Some (PyTuple xs) => (Ok l, w)
    | _ => (Raise TypeError, w)
    end.

(** ** The class [DataLama] *)

(** The generator expression of line 101 with [max] around it. *)
Fixpoint getmtime_roots (items : list walk_item) : M (list Z) :=
  match items with
  | [] => ret []
  | (root, _, _) :: rest =>
      let! t := getmtime root in
      let! ts := getmtime_roots rest in
      ret (t :: ts)
  end.

(** The inner loop of lines 105-109; [true] stands for the [return True]. *)
Fixpoint scan_files (root : path) (files : list string) (persistent_time : Z) : M bool :=
  match files with
  | [] => ret false
  | file :: rest =>
      let file_path := path_join root file in
      let! t := getmtime file_path in
      if persistent_time <? t then
        logging_info (LogReindexing file_path) ;;
        ret true
      else scan_files root rest persistent_time
  end.

(** The outer loop of lines 104-109 and the [return False] of line 110. *)
Fixpoint scan_walk (items : list walk_item) (persistent_time : Z) : M bool :=
  match items with
  | [] => ret false
  | (root, _, files) :: rest =>
      let! found := scan_files root files persistent_time in
      if found then ret true else scan_walk rest persistent_time
  end.

Definition _needs_reindexing (self : loc) (persistent_dir data_dir : path) : M bool :=
  emit (EvEnter_needs_reindexing persistent_dir data_dir) ;;
  let! roots := os_walk persistent_dir in
  let! times := getmtime_roots roots in
  let! persistent_time := lift_result (py_max times) in
  let! items := os_walk data_dir in
  scan_walk items persistent_time.

(** Lines 41-47: load the documents, build the index, persist it. *)
Definition rebuild_index (persistent_dir path_to_data : path) : M Index :=
  logging_info (LogCreating path_to_data) ;;
  emit (EvLoadData path_to_data) ;;
  let! documents := call (load_data path_to_data) in
  emit (EvFromDocuments documents) ;;
  let! index := call (from_documents documents) in
  emit (EvPersist index persistent_dir) ;;
  call (persist index persistent_dir) ;;
  logging_info (LogPersisted persistent_dir) ;;
  ret index.

(** Lines 49-51: load the persisted index. *)
Definition reload_index (persistent_dir : path) : M Index :=
  logging_info (LogLoading persistent_dir) ;;
  emit (EvLoadIndex persistent_dir) ;;
  call (load_index_from_storage persistent_dir).

(** The condition of line 40; [or] evaluates its right operand only when
    the left one is false. *)
Definition index_is_stale (self : loc) (persistent_dir path_to_data : path) : M bool :=
  let! present := path_exists persistent_dir in
  if negb present then ret true
  else _needs_reindexing self persistent_dir path_to_data.

(** Lines 31-37: the embedding model and the language model are set up,
    then the clock is read. *)
Definition init_backends (model_name : string) (request_timeout : Q) : M Q :=
  emit (EvEmbedding "BAAI/bge-base-en-v1.5") ;;
  call (HuggingFaceEmbedding "BAAI/bge-base-en-v1.5") ;;
  emit (EvOllama model_name request_timeout) ;;
  call (Ollama model_name request_timeout) ;;
  perf_counter.

Definition __init__ (self : loc) (persistent_dir path_to_data : path)
    (model_name : string) (request_timeout : Q) : M unit :=
  let! start_time := init_backends model_name request_timeout in
  let! stale := index_is_stale self persistent_dir path_to_data in
  let! index :=
    (if stale then rebuild_index persistent_dir path_to_data
     else reload_index persistent_dir) in
  let! end_time := perf_counter in
  setattr self "_load_duration" (VFloat (py_sub end_time start_time)) ;;
  logging_info (LogLoaded (py_sub end_time start_time)) ;;
  emit (EvAsQueryEngine index 4) ;;
  let! engine := call (as_query_engine index 4) in
  setattr self "query_engine" (VEngine engine) ;;
  let! durations := alloc (PyList []) in
  setattr self "_query_durations" (VRef durations).

(** [DataLama(persistent_dir, path_to_data, model_name, request_timeout)]:
    a new instance, then [__init__] on it. *)
Definition DataLama (persistent_dir path_to_data : path)
    (model_name : string) (request_timeout : Q) : M loc :=
  let! self := alloc (PyInstance ∅) in
  __init__ self persistent_dir path_to_data model_name request_timeout ;;
  ret self.

Definition get_load_duration (self : loc) : M value :=
  getattr self "_load_duration".

Definition get_query_durations (self : loc) : M loc :=
  let! durations := getattr self "_query_durations" in
  match durations with
  | VRef l => py_tuple l
  | _ => raise TypeError
  end.

Definition query (self : loc) (msg : string) : M Response :=
  let! start_time := perf_counter in
  logging_info (LogProcessing msg) ;;
  let! engine := getattr self "query_engine" in
  let! response :=
    match engine with
    | VEngine e => emit (EvEngineQuery e msg) ;; call (engine_query e msg)
    | _ => raise AttributeError
    end in
  let! end_time := perf_counter in
  let query_duration := round1 (py_sub end_time start_time) in
  let! durations := getattr self "_query_durations" in
  match durations with
  | VRef l => list_append l query_duration
  | _ => raise AttributeError
  end ;;
  logging_info (LogCompleted query_duration) ;;
  ret response.

(** ** Sessions: what a user of the class does with an instance *)

Inductive api_op :=
| OpQuery (msg : string)
| OpGetLoadDuration
| OpGetQueryDurations.

(** A user can also try to change an object it holds a reference to. *)
Inductive client_op :=
| Api (op : api_op)
| TryAppend (l : loc) (q : Q)
| TrySetItem (l : loc) (i : nat) (q : Q).

Inductive retval :=
| RResponse (r : Response)
| RValue (v : value)
| RRef (l : loc)
| RNone.

Definition run_api (self : loc) (op : api_op) : M retval :=
  match op with
  | OpQuery msg => let! r := query self msg in ret (RResponse r)
  | OpGetLoadDuration => let! v := get_load_duration self in ret (RValue v)
  | OpGetQueryDurations => let! t := get_query_durations self in ret (RRef t)
  end.

Definition run_client (self : loc) (op : client_op) : M retval :=
  match op with
  | Api o => run_api self o
  | TryAppend l q => list_append l q ;; ret RNone
  | TrySetItem l i q => list_setitem l i q ;; ret RNone
  end.

(** One operation after the other; the user catches what an operation
    raises and goes on. *)
Fixpoint run_session {O} (step : O -> M retval) (ops : list O) (w : world)
  : list (result retval) * world :=
  match ops with
  | [] => ([], w)
  | op :: rest =>
      let '(r, w1) := step op w in
      let '(rs, w2) := run_session step rest w1 in
      (r :: rs, w2)
  end.

(** ** Observations on a world *)

Definition add_trace (w : world) (evs : list event) : world :=
  World (w_fs w) (w_ext w) (w_ticks w) (w_heap w) (w_trace w ++ evs).

Definition attr_of (self : loc) (a : string) (w : world) : option value :=
  match w_heap w !! self with
  | Some (PyInstance attrs) => attrs !! a
  | _ => None
  end.

(** The list object behind [self._query_durations]. *)
Definition query_log (self : loc) (w : world) : option (list Q) :=
  match attr_of self "_query_durations" w with
  | Some (VRef l) =>
      match w_heap w !! l with
      | Some (PyList xs) => Some xs
      | _ => None
      end
  | _ => None
  end.

Definition session_engine (self : loc) (w : world) : option QueryEngine :=
  match attr_of self "query_engine" w with
  | Some (VEngine e) => Some e
  | _ => None
  end.

(** What the scan of lines 104-110 does on files with known [mtime]s:
    the events it leaves and what it returns. *)
Fixpoint scan_outcome (T : Z) (fl : list (path * Z)) : list event * bool :=
  match fl with
  | [] => ([], false)
  | (p, t) :: rest =>
      if T <? t then ([EvStat p; EvLog (LogReindexing p)], true)
      else let '(evs, b) := scan_outcome T rest in (EvStat p :: evs, b)
  end.

(** The scan stops at the first file that is newer than [T]. *)
Definition stops_at_first_newer (fs : node) (T : Z) (files : list path)
    (found : bool) (visited : list path) (tail : list event) : Prop :=
  if found then
    exists pre f post,
      files = pre ++ f :: post /\
      Forall (fun g => ~ newer_file fs T g) pre /\
      newer_file fs T f /\
      visited = pre ++ [f] /\
      tail = [EvLog (LogReindexing f)]
  else
    Forall (fun g => ~ newer_file fs T g) files /\ visited = files /\ tail = [].

(** The two paths of [__init__], as seen in the trace. *)
Definition is_path_event (e : event) : bool :=
  match e with
  | EvLoadData _ | EvFromDocuments _ | EvPersist _ _ | EvLoadIndex _ => true
  | _ => false
  end.

Definition path_events (tr : list event) : list event :=
  List.filter is_path_event tr.

Definition rebuild_path (persistent_dir path_to_data : path) (tr : list event) : Prop :=
  exists docs index,
    path_events tr =
    [EvLoadData path_to_data; EvFromDocuments docs; EvPersist index persistent_dir].

Definition reload_path (persistent_dir : path) (tr : list event) : Prop :=
  path_events tr = [EvLoadIndex persistent_dir].

Definition check_invoked (tr : list event) : Prop :=
  exists p d, In (EvEnter_needs_reindexing p d) tr.

(** The durations of the completed queries, in the order of the trace. *)
Definition completed_durations (tr : list event) : list Q :=
  flat_map (fun e => match e with
                     | EvLog (LogCompleted d) => [d]
                     | _ => []
                     end) tr.

(** How often [self.a] was assigned. *)
Definition attr_writes (self : loc) (a : string) (tr : list event) : nat :=
  length (List.filter (fun e => match e with
                                | EvSetAttr s b => Nat.eqb s self && String.eqb a b
                                | _ => false
                                end) tr).

Definition succeeded {A} (r : result A) : bool :=
  match r with
  | Ok _ => true
  | Raise _ => false
  end.

(** The world after [object.__new__]: an instance without attributes at
    the next free location. *)
Definition fresh_instance (w : world) : world :=
  World (w_fs w) (w_ext w) (w_ticks w) (w_heap w ++ [PyInstance ∅]) (w_trace w).

(** [p] is not a directory that can be listed: it is missing, or a
    regular file, or [scandir] fails on it. *)
Definition cannot_list (fs : node) (p : path) : Prop :=
  forall m es, resolve fs p <> Found (Dir m true es).

(** A computation that leaves the heap and the clock alone and adds to
    the trace only events that satisfy [P]. *)
Definition frame {A} (P : event -> Prop) (m : M A) : Prop :=
  forall w,
    w_heap (snd (m w)) = w_heap w /\
    w_ticks (snd (m w)) = w_ticks w /\
    exists evs, w_trace (snd (m w)) = w_trace w ++ evs /\ Forall P evs.

(** The events of the staleness check. *)
Definition is_check_event (e : event) : Prop :=
  match e with
  | EvStat _ | EvEnter_needs_reindexing _ _ | EvLog _ => True
  | _ => False
  end.

(** An instance as [__init__] leaves it: the three attributes, and the
    list of durations a list object of its own. *)
Definition session (self : loc) (d : Q) (e : QueryEngine) (l : loc) (log : list Q)
    (w : world) : Prop :=
  exists attrs,
    w_heap w !! self = Some (PyInstance attrs) /\
    attrs !! "_load_duration" = Some (VFloat d) /\
    attrs !! "query_engine" = Some (VEngine e) /\
    attrs !! "_query_durations" = Some (VRef l) /\
    w_heap w !! l = Some (PyList log).

(** The number of calls of [query] that returned. *)
Fixpoint successful_queries (ops : list api_op) (outs : list (result retval)) : nat :=
  match ops, outs with
  | OpQuery _ :: ops', Ok _ :: outs' => S (successful_queries ops' outs')
  | _ :: ops', _ :: outs' => successful_queries ops' outs'
  | _, _ => 0
  end.

(** Every tuple object of [h] is the same tuple in [h']. *)
Definition tuples_kept (h h' : list pyobj) : Prop :=
  forall t xs, h !! t = Some (PyTuple xs) -> h' !! t = Some (PyTuple xs).

Definition keeps_tuples {A} (m : M A) : Prop :=
  forall w, tuples_kept (w_heap w) (w_heap (snd (m w))).

End DataLama.

Notation "'let!' x ':=' m 'in' k" := (bind m (fun x => k))
  (at level 10, x name, m at level 100, k at level 200).
Notation "m ;; k" := (bind m (fun _ => k))
  (at level 100, k at level 200, right associativity).

(** ** The script *)

(** The same tree with the [mtime] of every regular file changed by [g];
    directories keep theirs. *)
Fixpoint retime_files (g : Z -> Z) (n : node) : node :=
  match n with
  | File m => File (g m)
  | Dir m l es =>
      Dir m l
        ((fix retime_entries (es : list (string * node)) : list (string * node) :=
            match es with
            | [] => []
            | (k, c) :: es' => (k, retime_files g c) :: retime_entries es'
            end) es)
  end.

(** The timed walk from a path of the file system. *)
Definition walk_timed_fs (fs : node) (top : path) : list timed_item :=
  match resolve fs top with
  | Found n => walk_timed top n
  | NoEnt | NotDir => []
  end.

Section Script.
Context `{Collaborators}.

(** What the last two statements of the script write: the total time to
    the log and the response to the standard output. *)
Record script_output := ScriptOutput {
  total_logged : Q;
  printed : Response;
}.

(** Lines 113-129, the body under [if __name__ == "__main__"].
    [install_root] is [Path(__file__).parent.parent]. *)
Definition main (install_root : path) : M script_output :=
  let! overall_start := perf_counter in
  let persistent_dir := path_join install_root "persistent" in
  let data_dir := path_join install_root "data" in
  let! chat_bot := DataLama persistent_dir data_dir "llama3.1" 240 in
  let! response := query chat_bot "Who own the one ring?" in
  let! overall_end := perf_counter in
  let overall_duration := py_sub overall_end overall_start in
  ret (ScriptOutput overall_duration response).

(** A computation that changes nothing in the world but the trace, to
    which it adds only events that satisfy [P], and whose result depends
    on the file system alone. *)
Definition observes {A} (P : event -> Prop) (m : M A) : Prop :=
  forall w,
    (exists evs, snd (m w) = add_trace w evs /\ Forall P evs) /\
    (forall w', w_fs w' = w_fs w -> fst (m w') = fst (m w)).

(** A computation that adds to the trace only events that satisfy [P]. *)
Definition adds {A} (P : event -> Prop) (m : M A) : Prop :=
  forall w, exists evs, w_trace (snd (m w)) = w_trace w ++ evs /\ Forall P evs.


Definition is_engine_query (e : event) : bool :=
  match e with
  | EvEngineQuery _ _ => true
  | _ => false
  end.

(** The questions that reached the engine, oldest first. *)
Definition questions_asked (tr : list event) : list string :=
  flat_map (fun e => match e with
                     | EvEngineQuery _ msg => [msg]
                     | _ => []
                     end) tr.



(** The rebuild path in terms of the collaborators themselves.  From the
    file system [fs] and the collaborator state [ext]: the loader is called
    on the source directory; the index builder on the documents the loader
    returned; [persist] on the index the builder returned and on the cache
    directory; [as_query_engine] on that same index.  What the last call
    leaves is the file system and the collaborator state of [w'], the engine
    it returned is the engine of the instance, and [tr] has the three
    markers with these documents and this index. *)
Definition rebuilt (self : loc) (persistent_dir path_to_data : path)
    (fs : node) (ext : ExtState) (w' : world) (tr : list event) : Prop :=
  exists docs fs1 ext1 index fs2 ext2 fs3 ext3 engine,
    load_data path_to_data fs ext = (Ok docs, fs1, ext1) /\
    from_documents docs fs1 ext1 = (Ok index, fs2, ext2) /\
    persist index persistent_dir fs2 ext2 = (Ok tt, fs3, ext3) /\
    as_query_engine index 4 fs3 ext3 = (Ok engine, w_fs w', w_ext w') /\
    session_engine self w' = Some engine /\
    path_events tr =
    [EvLoadData path_to_data; EvFromDocuments docs; EvPersist index persistent_dir].

(** The reload path in the same terms: the index is read from the cache
    directory and the engine of the instance is made from it. *)
Definition reloaded (self : loc) (persistent_dir : path)
    (fs : node) (ext : ExtState) (w' : world) (tr : list event) : Prop :=
  exists index fs1 ext1 engine,
    load_index_from_storage persistent_dir fs ext = (Ok index, fs1, ext1) /\
    as_query_engine index 4 fs1 ext1 = (Ok engine, w_fs w', w_ext w') /\
    session_engine self w' = Some engine /\
    path_events tr = [EvLoadIndex persistent_dir].

End Script.

(** ** A concrete setting, for running the program *)

Module Demo.

(** Documents are file names, the index is the list of its documents, the
    engine answers "Sauron" and fails on the question "boom"; the
    collaborators count their calls. *)
#[export] Instance demo : Collaborators := {|
  Document := string;
  Index := list string;
  QueryEngine := list string;
  Response := string;
  ExtState := nat;
  perf_counter_at := fun k => (Z.of_nat k * Z.of_nat k # 8)%Q;
  HuggingFaceEmbedding := fun _ fs n => (Ok tt, fs, S n);
  Ollama := fun _ _ fs n => (Ok tt, fs, S n);
  load_data := fun p fs n =>
    match resolve fs p with
    | Found (Dir _ true es) => (Ok (filenames es), fs, S n)
    | _ => (Raise ValueError, fs, S n)
    end;
  from_documents := fun docs fs n => (Ok docs, fs, S n);
  persist := fun _ _ fs n => (Ok tt, fs, S n);
  load_index_from_storage := fun p fs n =>
    match resolve fs p with
    | Found (Dir _ true es) => (Ok (filenames es), fs, S n)
    | _ => (Raise FileNotFoundError, fs, S n)
    end;
  as_query_engine := fun i _ fs n => (Ok i, fs, S n);
  engine_query := fun _ msg fs n =>
    if String.eqb msg "boom" then (Raise (CollaboratorError "backend"), fs, S n)
    else (Ok "Sauron", fs, S n);
|}.

(** [/persistent] (mtime 50, with a subdirectory of mtime 60) and [/data]
    with [a.txt] (mtime 40) and [sub/b.txt] (mtime [b]). *)
Definition cache_tree : node :=
  Dir 50 true [("docstore.json", File 70); ("graph", Dir 60 true [])].

Definition data_tree (b : Z) : node :=
  Dir 45 true [("a.txt", File 40); ("sub", Dir 45 true [("b.txt", File b)])].

Definition disk (b : Z) : node :=
  Dir 10 true [("persistent", cache_tree); ("data", data_tree b)].

(** The same, with a regular file where the cache directory should be. *)
Definition disk_with_cache_file : node :=
  Dir 10 true [("persistent", File 50); ("data", data_tree 40)].

Definition boot (fs : node) : world := World fs 0%nat 0%nat [] [].

(** The instance built on [disk b], and a session on it. *)
Definition built (b : Z) : result loc * world :=
  DataLama ["persistent"] ["data"] "llama3.1" 120 (boot (disk b)).

Definition session_ops : list api_op :=
  [OpQuery "Who own the one ring?"; OpGetQueryDurations; OpQuery "boom";
   OpGetLoadDuration; OpQuery "And the others?"].

Definition after_session (b : Z) : list (result retval) * world :=
  run_session (run_api 0%nat) session_ops (snd (built b)).

(** [disk 55] after every file of the cache was written to again. *)
Definition disk_touched : node :=
  Dir 10 true [("persistent", retime_files (fun _ => 999) cache_tree);
               ("data", data_tree 55)].

(** A second instance, built after the first, and a session on it. *)
Definition built_twice : result loc * world :=
  DataLama ["persistent"] ["data"] "llama3.1" 120 (snd (built 55)).

Definition second_session : list (result retval) * world :=
  run_session (run_api 2%nat) session_ops (snd built_twice).

End Demo.


(** A closed equation, or several, settled by running both sides. *)
Ltac by_running :=
  repeat match goal with |- _ /\ _ => split end; vm_compute; reflexivity.

(** * Properties *)

(** ** The file system *)

Lemma node_ind (P : node -> Prop) :
  (forall m, P (File m)) ->
  (forall m l es, Forall (fun e => P (snd e)) es -> P (Dir m l es)) ->
  forall n, P n.
Proof.
  intros HF HD.
  fix IH 1.
  intros [m | m l es].
  - apply HF.
  - apply HD.
    induction es as [| [k c] es IHes]; constructor; [apply IH | exact IHes].
Qed.

Lemma walk_node_dir top m es :
  walk_node top (Dir m true es) =
  (top, dirnames es, filenames es) ::
  flat_map (fun e => if is_dir (snd e)
                     then walk_node (path_join top (fst e)) (snd e) else []) es.
Proof.
  simpl. f_equal.
  induction es as [| [k c] es IH]; simpl; [reflexivity | now rewrite IH].
Qed.

Lemma walk_timed_dir top m es :
  walk_timed top (Dir m true es) =
  (top, dirnames es, m, file_entries es) ::
  flat_map (fun e => if is_dir (snd e)
                     then walk_timed (path_join top (fst e)) (snd e) else []) es.
Proof.
  simpl. f_equal.
  induction es as [| [k c] es IH]; simpl; [reflexivity | now rewrite IH].
Qed.

Lemma wf_node_dir m l es :
  wf_node (Dir m l es) = true <->
  NoDup (map fst es) /\ Forall (fun e => wf_node (snd e) = true) es.
Proof.
  simpl. rewrite andb_true_iff, bool_decide_eq_true.
  apply and_iff_compat_l.
  induction es as [| [k c] es IH]; simpl.
  - split; auto.
  - rewrite andb_true_iff, IH, Forall_cons. reflexivity.
Qed.

Lemma all_listable_dir m l es :
  all_listable (Dir m l es) = true <->
  l = true /\ Forall (fun e => all_listable (snd e) = true) es.
Proof.
  simpl. rewrite andb_true_iff.
  apply and_iff_compat_l.
  induction es as [| [k c] es IH]; simpl.
  - split; auto.
  - rewrite andb_true_iff, IH, Forall_cons. reflexivity.
Qed.

Lemma filenames_file_entries es : filenames es = map fst (file_entries es).
Proof.
  unfold filenames, file_entries.
  induction es as [| [k [t | m l sub]] es IH]; simpl; [reflexivity | |]; now rewrite IH.
Qed.

Lemma walk_node_untimed n : forall top,
  walk_node top n = map untimed (walk_timed top n).
Proof.
  induction n as [m | m l es IH] using node_ind; intros top; [reflexivity |].
  destruct l; [| reflexivity].
  rewrite walk_node_dir, walk_timed_dir. simpl.
  rewrite filenames_file_entries. f_equal.
  induction IH as [| [k c] es Hc _ IHes]; simpl; [reflexivity |].
  rewrite map_app, IHes. f_equal.
  destruct (is_dir c); [apply Hc | reflexivity].
Qed.

Lemma find_entry_In k c es :
  find_entry k es = Some c -> In (k, c) es.
Proof.
  induction es as [| [k' c'] es IH]; simpl; [discriminate |].
  destruct (String.eqb_spec k k') as [-> | Hne].
  - intros [= ->]. now left.
  - intros Hf. right. now apply IH.
Qed.

Lemma In_find_entry k c es :
  NoDup (map fst es) -> In (k, c) es -> find_entry k es = Some c.
Proof.
  induction es as [| [k' c'] es IH]; simpl; [intros _ [] |].
  intros Hnd Hin. apply NoDup_cons in Hnd as [Hnotin Hnd].
  destruct Hin as [[= -> ->] | Hin].
  - now rewrite String.eqb_refl.
  - destruct (String.eqb_spec k k') as [-> | Hne]; [| now apply IH].
    exfalso. apply Hnotin. apply list_elem_of_In.
    change k' with (fst (k', c)). now apply in_map.
Qed.

Lemma resolve_app n p q :
  resolve n (p ++ q) =
  match resolve n p with
  | Found n' => resolve n' q
  | NoEnt => NoEnt
  | NotDir => NotDir
  end.
Proof.
  revert n. induction p as [| c p IH]; intros n; simpl; [reflexivity |].
  destruct n as [t | m l es]; [reflexivity |].
  destruct (find_entry c es); [apply IH | reflexivity].
Qed.

Lemma wf_resolve p : forall n n',
  wf_node n = true -> resolve n p = Found n' -> wf_node n' = true.
Proof.
  induction p as [| c p IH]; intros n n' Hwf; simpl.
  - now intros [= <-].
  - destruct n as [t | m l es]; [discriminate |].
    destruct (find_entry c es) as [c' |] eqn:Hf; [| discriminate].
    apply IH. apply wf_node_dir in Hwf as [_ Hall].
    rewrite Forall_forall in Hall.
    apply (Hall (c, c')). apply list_elem_of_In. now apply find_entry_In.
Qed.

Lemma all_listable_resolve p : forall n n',
  all_listable n = true -> resolve n p = Found n' -> all_listable n' = true.
Proof.
  induction p as [| c p IH]; intros n n' Hl; simpl.
  - now intros [= <-].
  - destruct n as [t | m l es]; [discriminate |].
    destruct (find_entry c es) as [c' |] eqn:Hf; [| discriminate].
    apply IH. apply all_listable_dir in Hl as [_ Hall].
    rewrite Forall_forall in Hall.
    apply (Hall (c, c')). apply list_elem_of_In. now apply find_entry_In.
Qed.

(** Every item of the walk is a directory of the tree reached by listing,
    with its own [mtime] and its own files. *)
Lemma walk_timed_sound n : forall top it,
  wf_node n = true -> In it (walk_timed top n) ->
  exists rel m es,
    resolve n rel = Found (Dir m true es) /\
    listable_along n rel = true /\
    it = (top ++ rel, dirnames es, m, file_entries es).
Proof.
  induction n as [t | m l es IH] using node_ind; intros top it Hwf Hin; [destruct Hin |].
  destruct l; [| destruct Hin].
  rewrite walk_timed_dir in Hin. destruct Hin as [<- | Hin].
  - exists [], m, es. now rewrite app_nil_r.
  - apply in_flat_map in Hin as [[k c] [Hkc Hin]]. simpl in Hin.
    destruct (is_dir c); [| destruct Hin].
    apply wf_node_dir in Hwf as [Hnd Hall].
    rewrite Forall_forall in IH, Hall.
    apply list_elem_of_In in Hkc as Hkc'.
    destruct (IH _ Hkc' _ _ (Hall _ Hkc') Hin) as (rel & m' & es' & Hres & Hla & ->).
    exists (k :: rel), m', es'. simpl.
    rewrite (In_find_entry _ _ _ Hnd Hkc). repeat split; try assumption.
    unfold path_join. now rewrite <- app_assoc.
Qed.

(** The walk reaches every directory that is reached by listing. *)
Lemma walk_timed_complete rel : forall n top m l es,
  resolve n rel = Found (Dir m l es) -> listable_along n rel = true ->
  In (top ++ rel, dirnames es, m, file_entries es) (walk_timed top n).
Proof.
  induction rel as [| c rel IH]; intros n top m l es; simpl.
  - intros [= ->] ->. rewrite walk_timed_dir, app_nil_r. now left.
  - destruct n as [t | m0 l0 es0]; [discriminate |].
    destruct (find_entry c es0) as [c' |] eqn:Hf; [| discriminate].
    intros Hres Hla. apply andb_true_iff in Hla as [-> Hla].
    rewrite walk_timed_dir. right.
    apply in_flat_map. exists (c, c'). split; [now apply find_entry_In |].
    simpl.
    assert (Hd : is_dir c' = true).
    { destruct c'; [| reflexivity]. destruct rel; discriminate. }
    rewrite Hd.
    replace (top ++ c :: rel) with (path_join top c ++ rel)
      by (unfold path_join; now rewrite <- app_assoc).
    now apply (IH c' _ m l es).
Qed.

(** In a tree whose directories can all be listed every directory is
    reached by listing. *)
Lemma all_listable_along rel : forall n m l es,
  all_listable n = true -> resolve n rel = Found (Dir m l es) ->
  listable_along n rel = true.
Proof.
  induction rel as [| c rel IH]; intros n m l es Hl; simpl.
  - intros [= ->]. now apply all_listable_dir in Hl as [-> _].
  - destruct n as [t | m0 l0 es0]; [discriminate |].
    destruct (find_entry c es0) as [c' |] eqn:Hf; [| discriminate].
    intros Hres. apply all_listable_dir in Hl as [-> Hall]. simpl.
    rewrite Forall_forall in Hall.
    apply (IH c' m l es); [| assumption].
    apply (Hall (c, c')). apply list_elem_of_In. now apply find_entry_In.
Qed.

Lemma file_entries_In f t es :
  In (f, t) (file_entries es) <-> In (f, File t) es.
Proof.
  unfold file_entries. rewrite in_flat_map. split.
  - intros [[k c] [Hin Hc]]. simpl in Hc. destruct c; [| destruct Hc].
    destruct Hc as [[= -> ->] | []]. assumption.
  - intros Hin. exists (f, File t). split; [assumption | now left].
Qed.

Lemma resolve_snoc n rel f x :
  resolve n (rel ++ [f]) = Found x ->
  exists m l es, resolve n rel = Found (Dir m l es) /\ find_entry f es = Some x.
Proof.
  rewrite resolve_app. destruct (resolve n rel) as [d | |]; [| discriminate..].
  simpl. destruct d as [t | m l es]; [discriminate |].
  destruct (find_entry f es) as [c |] eqn:Hf; [| discriminate].
  intros [= <-]. now exists m, l, es.
Qed.

(** The timed files of the walk of a well-formed tree are regular files
    of the tree with that [mtime]. *)
Lemma timed_files_sound fs top n p t :
  resolve fs top = Found n -> wf_node n = true ->
  In (p, t) (timed_files (walk_timed top n)) ->
  resolve fs p = Found (File t).
Proof.
  intros Htop Hwf Hin. unfold timed_files in Hin.
  apply in_flat_map in Hin as [[[[root dirs] m] files] [Hit Hin]].
  apply in_map_iff in Hin as [[f t'] [[= <- <-] Hf]]. simpl.
  destruct (walk_timed_sound _ _ _ Hwf Hit) as (rel & m' & es & Hres & _ & [= -> -> -> ->]).
  unfold path_join. rewrite resolve_app, resolve_app, Htop, Hres. simpl.
  assert (Hwf' : wf_node (Dir m' true es) = true) by exact (wf_resolve _ _ _ Hwf Hres).
  apply wf_node_dir in Hwf' as [Hnd _].
  apply file_entries_In in Hf.
  now rewrite (In_find_entry _ _ _ Hnd Hf).
Qed.

(** In a tree whose directories can all be listed, every regular file
    below the top is among the timed files of the walk. *)
Lemma timed_files_complete top n rel t :
  all_listable n = true -> is_dir n = true ->
  resolve n rel = Found (File t) ->
  In (top ++ rel, t) (timed_files (walk_timed top n)).
Proof.
  intros Hl Hd Hres.
  destruct (exists_last (l := rel)) as (rel' & f & ->).
  { intros ->. simpl in Hres. injection Hres as ->. discriminate. }
  apply resolve_snoc in Hres as (m & l & es & Hres & Hf).
  unfold timed_files. apply in_flat_map.
  exists (top ++ rel', dirnames es, m, file_entries es). split.
  - apply (walk_timed_complete rel' n top m l es); [assumption |].
    now apply (all_listable_along rel' n m l es).
  - apply in_map_iff. exists (f, t). split.
    + simpl. unfold path_join. now rewrite <- app_assoc.
    + apply file_entries_In. now apply find_entry_In.
Qed.

(** ** [max] *)

Lemma max_from_spec xs : forall m,
  In (max_from m xs) (m :: xs) /\ forall x, In x (m :: xs) -> x <= max_from m xs.
Proof.
  induction xs as [| y xs IH]; intros m; simpl.
  - split; [now left | intros x [<- | []]; lia].
  - destruct (IH (if m <? y then y else m)) as [Hin Hle]. split.
    + destruct Hin as [Heq | Hin]; [| now right; right].
      rewrite <- Heq. destruct (m <? y); [right; now left | now left].
    + intros x Hx.
      assert (Hm : m <= max_from (if m <? y then y else m) xs).
      { etransitivity; [| apply Hle; now left]. destruct (Z.ltb_spec m y); lia. }
      assert (Hy : y <= max_from (if m <? y then y else m) xs).
      { etransitivity; [| apply Hle; now left]. destruct (Z.ltb_spec m y); lia. }
      destruct Hx as [<- | [<- | Hx]]; [assumption.. |].
      apply Hle. now right.
Qed.

(** ** Doubles *)

Lemma round_half_even_nonneg x : (0 <= x)%Q -> 0 <= round_half_even x.
Proof.
  intros Hx. unfold round_half_even.
  assert (Hf : 0 <= Qfloor x).
  { change 0 with (Qfloor 0). now apply Qfloor_resp_le. }
  destruct (_ ?= _)%Q; [destruct (Z.even _) | |]; lia.
Qed.

Lemma round_half_even_close x :
  (Qabs (inject_Z (round_half_even x) - x) <= 1 # 2)%Q.
Proof.
  unfold round_half_even.
  set (f := Qfloor x).
  assert (Hlo : (inject_Z f <= x)%Q) by apply Qfloor_le.
  assert (Hhi : (x < inject_Z (f + 1))%Q) by apply Qlt_floor.
  rewrite inject_Z_plus in Hhi. change (inject_Z 1) with 1%Q in Hhi.
  apply Qabs_Qle_condition.
  destruct (_ ?= _)%Q eqn:Hcmp.
  - apply Qeq_alt in Hcmp.
    destruct (Z.even f); [| rewrite inject_Z_plus; change (inject_Z 1) with 1%Q];
      split; lra.
  - apply Qlt_alt in Hcmp. split; lra.
  - apply Qgt_alt in Hcmp. rewrite inject_Z_plus. change (inject_Z 1) with 1%Q.
    split; lra.
Qed.

Lemma pow2_pos z : (0 < 2 ^ z)%Q.
Proof. apply Qpower_0_lt. reflexivity. Qed.

Lemma pow2_plus a b : (2 ^ (a + b) == 2 ^ a * 2 ^ b)%Q.
Proof. apply Qpower_plus. discriminate. Qed.

Lemma pow2_le a b : a <= b -> (2 ^ a <= 2 ^ b)%Q.
Proof. intros. apply Qpower_le_compat_l; [assumption | discriminate]. Qed.

Lemma pow2_Z n : 0 <= n -> (inject_Z (2 ^ n) == 2 ^ n)%Q.
Proof. intros. now rewrite Zpower_Qpower. Qed.

(** [binade a] is at most the logarithm of [a]. *)
Lemma binade_le a : (0 < a)%Q -> (2 ^ binade a <= a)%Q.
Proof.
  intros Ha. unfold binade.
  set (e := Z.log2 (Qnum a) - Z.log2 (Z.pos (Qden a))).
  destruct (Qle_bool (2 ^ e) a) eqn:Hb.
  - now apply Qle_bool_iff.
  - destruct a as [n d]. cbn [Qnum Qden] in *.
    assert (Hn : 0 < n) by (unfold Qlt in Ha; simpl in Ha; lia).
    pose proof (Z.log2_spec n Hn) as [Hn1 _].
    pose proof (Z.log2_spec (Z.pos d) (Pos2Z.is_pos d)) as [_ Hd2].
    pose proof (Z.log2_nonneg n) as Hln.
    pose proof (Z.log2_nonneg (Z.pos d)) as Hld.
    set (ln := Z.log2 n) in *. set (ld := Z.log2 (Z.pos d)) in *.
    (* 2^(ln - ld - 1) * d <= 2^ln / 2^(ld+1) * d <= n *)
    assert (Hq : (2 ^ (e - 1) * 2 ^ (ld + 1) == 2 ^ ln)%Q).
    { rewrite <- pow2_plus. subst e. now replace (ln - ld - 1 + (ld + 1)) with ln by lia. }
    assert (Hd' : (inject_Z (Z.pos d) <= 2 ^ (ld + 1))%Q).
    { rewrite <- pow2_Z by lia. rewrite <- Zle_Qle. lia. }
    assert (Hn' : (2 ^ ln <= inject_Z n)%Q).
    { rewrite <- pow2_Z by lia. now rewrite <- Zle_Qle. }
    assert (Hnd : (n # d == inject_Z n / inject_Z (Z.pos d))%Q) by apply Qmake_Qdiv.
    rewrite Hnd.
    apply Qle_shift_div_l. { reflexivity. }
    pose proof (pow2_pos (e - 1)) as Hp.
    apply Qle_trans with (2 ^ (e - 1) * 2 ^ (ld + 1))%Q.
    + apply Qmult_le_l; assumption.
    + rewrite Hq. assumption.
Qed.

Lemma nearest_double_0 : nearest_double 0 = 0%Q.
Proof. reflexivity. Qed.

Lemma nearest_double_nonneg x : (0 <= x)%Q -> (0 <= nearest_double x)%Q.
Proof.
  intros Hx. unfold nearest_double.
  destruct (Qeq_bool x 0); [discriminate |].
  set (u := Z.max _ _ - 52).
  apply Qmult_le_0_compat.
  - change 0%Q with (inject_Z 0). rewrite <- Zle_Qle.
    apply round_half_even_nonneg.
    apply Qle_shift_div_l; [apply pow2_pos | lra].
  - apply Qlt_le_weak, pow2_pos.
Qed.

(** Half a unit in the last place. *)
Lemma nearest_double_half_ulp x :
  ~ (x == 0)%Q ->
  (Qabs (nearest_double x - x)
     <= 2 ^ (Z.max (binade (Qabs x)) (-1022) - 53))%Q.
Proof.
  intros Hx. unfold nearest_double.
  destruct (Qeq_bool x 0) eqn:Hz.
  { apply Qeq_bool_iff in Hz. contradiction. }
  set (e := Z.max _ _).
  set (u := e - 52).
  pose proof (pow2_pos u) as Hu.
  pose proof (round_half_even_close (x / 2 ^ u)) as Hc.
  set (m := inject_Z (round_half_even (x / 2 ^ u))) in *.
  assert (Hx' : (x == x / 2 ^ u * 2 ^ u)%Q).
  { field. lra. }
  assert (Heq : (m * 2 ^ u - x == (m - x / 2 ^ u) * 2 ^ u)%Q).
  { field. lra. }
  rewrite Heq, Qabs_Qmult, (Qabs_pos (2 ^ u)) by lra.
  assert (Hh : (2 ^ (e - 53) == (1 # 2) * 2 ^ u)%Q).
  { replace (e - 53) with (-1 + u) by (subst u; lia). now rewrite pow2_plus. }
  rewrite Hh. apply Qmult_le_r; assumption.
Qed.

(** The error of rounding to a double, in general ... *)
Lemma nearest_double_close x :
  (Qabs (nearest_double x - x) <= Qabs x * 2 ^ (-53) + 2 ^ (-1075))%Q.
Proof.
  pose proof (pow2_pos (-53)) as H53. pose proof (pow2_pos (-1075)) as H1075.
  pose proof (Qabs_nonneg x) as Hax.
  destruct (Qeq_dec x 0) as [Hz | Hz].
  - assert (Hn : (nearest_double x == 0)%Q).
    { unfold nearest_double. apply Qeq_bool_iff in Hz. now rewrite Hz. }
    assert (H0 : (0 <= Qabs x * 2 ^ (-53))%Q) by (apply Qmult_le_0_compat; lra).
    apply Qabs_Qle_condition. rewrite Hn.
    set (p := (2 ^ (-53))%Q) in *. set (q := (2 ^ (-1075))%Q) in *.
    clearbody p q. split; lra.
  - eapply Qle_trans; [apply nearest_double_half_ulp; assumption |].
    assert (Hpos : (0 < Qabs x)%Q).
    { destruct (Qlt_le_dec 0 (Qabs x)) as [| Hle]; [assumption |].
      exfalso. apply Hz. apply Qabs_Qle_condition in Hle. lra. }
    pose proof (binade_le _ Hpos) as Hb.
    set (b := binade (Qabs x)) in *.
    destruct (Z.max_spec b (-1022)) as [[Hlt ->] | [Hge ->]].
    + change (-1022 - 53) with (-1075).
      assert (H0 : (0 <= Qabs x * 2 ^ (-53))%Q) by (apply Qmult_le_0_compat; lra).
      set (p := (2 ^ (-53))%Q) in *. set (q := (2 ^ (-1075))%Q) in *.
      clearbody p q. lra.
    + replace (b - 53) with (b + (-53)) by lia. rewrite pow2_plus.
      assert (H0 : (2 ^ b * 2 ^ (-53) <= Qabs x * 2 ^ (-53))%Q)
        by (apply Qmult_le_r; assumption).
      set (p := (2 ^ (-53))%Q) in *. set (q := (2 ^ (-1075))%Q) in *.
      set (r := (2 ^ b)%Q) in *.
      clearbody p q r. lra.
Qed.

(** ... and for a number in the range of the normal doubles. *)
Lemma nearest_double_close_normal x :
  (2 ^ (-1022) <= Qabs x)%Q ->
  (Qabs (nearest_double x - x) <= Qabs x * 2 ^ (-53))%Q.
Proof.
  intros Hn.
  pose proof (pow2_pos (-1022)) as Hp.
  pose proof (pow2_pos (-53)) as H53.
  assert (Hpos : (0 < Qabs x)%Q).
  { set (q := (2 ^ (-1022))%Q) in *. clearbody q. lra. }
  assert (Hz : ~ (x == 0)%Q).
  { intros Hz. rewrite Hz in Hpos. discriminate. }
  eapply Qle_trans; [apply nearest_double_half_ulp; assumption |].
  pose proof (binade_le _ Hpos) as Hb.
  set (b := binade (Qabs x)) in *.
  destruct (Z.max_spec b (-1022)) as [[Hlt ->] | [Hge ->]].
  + replace (-1022 - 53) with (-1022 + (-53)) by lia. rewrite pow2_plus.
    apply Qmult_le_r; assumption.
  + replace (b - 53) with (b + (-53)) by lia. rewrite pow2_plus.
    apply Qmult_le_r; assumption.
Qed.

Lemma binade_lt a : (0 < a)%Q -> (a < 2 ^ (binade a + 1))%Q.
Proof.
  intros Ha. unfold binade.
  set (e := Z.log2 (Qnum a) - Z.log2 (Z.pos (Qden a))).
  destruct (Qle_bool (2 ^ e) a) eqn:Hb.
  - destruct a as [n d]. cbn [Qnum Qden] in *.
    assert (Hn : 0 < n) by (unfold Qlt in Ha; simpl in Ha; lia).
    pose proof (Z.log2_spec n Hn) as [_ Hn2].
    pose proof (Z.log2_spec (Z.pos d) (Pos2Z.is_pos d)) as [Hd1 _].
    pose proof (Z.log2_nonneg n) as Hln.
    pose proof (Z.log2_nonneg (Z.pos d)) as Hld.
    set (ln := Z.log2 n) in *. set (ld := Z.log2 (Z.pos d)) in *.
    assert (Hq : (2 ^ (e + 1) * 2 ^ ld == 2 ^ (Z.succ ln))%Q).
    { rewrite <- pow2_plus. subst e. now replace (ln - ld + 1 + ld) with (Z.succ ln) by lia. }
    assert (Hd' : (2 ^ ld <= inject_Z (Z.pos d))%Q).
    { rewrite <- pow2_Z by lia. now rewrite <- Zle_Qle. }
    assert (Hn' : (inject_Z n < 2 ^ (Z.succ ln))%Q).
    { rewrite <- pow2_Z by lia. now rewrite <- Zlt_Qlt. }
    assert (Hnd : (n # d == inject_Z n / inject_Z (Z.pos d))%Q) by apply Qmake_Qdiv.
    rewrite Hnd.
    apply Qlt_shift_div_r. { reflexivity. }
    pose proof (pow2_pos (e + 1)) as Hp.
    apply Qlt_le_trans with (2 ^ (e + 1) * 2 ^ ld)%Q.
    + rewrite Hq. assumption.
    + apply Qmult_le_l; assumption.
  - replace (e - 1 + 1) with e by lia.
    apply Qnot_le_lt. intros Hle. apply Qle_bool_iff in Hle. congruence.
Qed.

(** [round_half_even x] is an integer nearest to [x]. *)
Lemma round_half_even_nearest x (n : Z) :
  (Qabs (inject_Z (round_half_even x) - x) <= Qabs (inject_Z n - x))%Q.
Proof.
  pose proof (round_half_even_close x) as Hc.
  set (r := round_half_even x) in *.
  destruct (Z.eq_dec n r) as [-> | Hne]; [apply Qle_refl |].
  eapply Qle_trans; [exact Hc |].
  apply Qabs_Qle_condition in Hc as [Hlo Hhi].
  assert (Hd : (n <= r - 1 \/ r + 1 <= n)) by lia.
  assert (E1 : (inject_Z (r - 1) == inject_Z r - 1)%Q)
    by (unfold inject_Z, Qminus, Qplus, Qopp, Qeq; simpl; lia).
  assert (E2 : (inject_Z (r + 1) == inject_Z r + 1)%Q)
    by (unfold inject_Z, Qplus, Qeq; simpl; lia).
  destruct Hd as [Hd | Hd]; rewrite Zle_Qle in Hd.
  - rewrite E1 in Hd.
    apply (Qabs_case (inject_Z n - x) (fun a => (1 # 2 <= a)%Q)); intros; lra.
  - rewrite E2 in Hd.
    apply (Qabs_case (inject_Z n - x) (fun a => (1 # 2 <= a)%Q)); intros; lra.
Qed.

Lemma pow2_53 : (inject_Z (2 ^ 53) == 2 ^ 53)%Q.
Proof. reflexivity. Qed.

Lemma nearest_double_is_double x : is_double (nearest_double x).
Proof.
  unfold nearest_double.
  destruct (Qeq_bool x 0) eqn:Hz.
  { exists 0, 0. split; [reflexivity | lia]. }
  apply Qeq_bool_neq in Hz.
  set (b := binade (Qabs x)). set (u := Z.max b (-1022) - 52).
  exists (round_half_even (x / 2 ^ u)), u.
  split; [reflexivity |]. split; [| lia].
  assert (Hpos : (0 < Qabs x)%Q).
  { destruct (Qlt_le_dec 0 (Qabs x)) as [| Hle]; [assumption |].
    exfalso. apply Hz. apply Qabs_Qle_condition in Hle. lra. }
  pose proof (binade_lt _ Hpos) as Hlt. fold b in Hlt.
  pose proof (pow2_pos u) as Hu.
  pose proof (round_half_even_close (x / 2 ^ u)) as Hc.
  set (m := round_half_even (x / 2 ^ u)) in *.
  (* |x / 2^u| < 2^53 *)
  assert (Hy : (Qabs (x / 2 ^ u) < 2 ^ 53)%Q).
  { unfold Qdiv. rewrite Qabs_Qmult, Qabs_Qinv, (Qabs_pos (2 ^ u)) by lra.
    apply Qlt_shift_div_r; [assumption |].
    eapply Qlt_le_trans; [exact Hlt |].
    rewrite <- pow2_plus. apply pow2_le. lia. }
  assert (Hm : (Qabs (inject_Z m) < 2 ^ 53 + 1)%Q).
  { pose proof (Qabs_triangle (inject_Z m - x / 2 ^ u) (x / 2 ^ u)) as Ht.
    assert (Heq : (inject_Z m - x / 2 ^ u + x / 2 ^ u == inject_Z m)%Q) by ring.
    rewrite Heq in Ht.
    set (A := Qabs (inject_Z m)) in *. set (B := Qabs (inject_Z m - x / 2 ^ u)) in *.
    set (C := Qabs (x / 2 ^ u)) in *. set (P := (2 ^ 53)%Q) in *.
    clearbody A B C P. lra. }
  rewrite <- pow2_53 in Hm.
  assert (Hm' : (Qabs (inject_Z m) == inject_Z (Z.abs m))%Q).
  { unfold Qabs, inject_Z. reflexivity. }
  rewrite Hm' in Hm.
  change 1%Q with (inject_Z 1) in Hm. rewrite <- inject_Z_plus, <- Zlt_Qlt in Hm.
  lia.
Qed.

(** Among the multiples of [2^u] the one that [round_half_even] picks is
    nearest to [x]. *)
Lemma nearest_multiple x u (n : Z) :
  (Qabs (inject_Z (round_half_even (x / 2 ^ u)) * 2 ^ u - x)
   <= Qabs (inject_Z n * 2 ^ u - x))%Q.
Proof.
  pose proof (pow2_pos u) as Hu.
  assert (Hf : forall a : Q, (a * 2 ^ u - x == (a - x / 2 ^ u) * 2 ^ u)%Q).
  { intros a. field. lra. }
  rewrite !Hf, !Qabs_Qmult, (Qabs_pos (2 ^ u)) by lra.
  apply Qmult_le_r; [assumption |]. apply round_half_even_nearest.
Qed.

Lemma Qabs_pos_lt x : ~ (x == 0)%Q -> (0 < Qabs x)%Q.
Proof.
  intros Hz. destruct (Qlt_le_dec 0 (Qabs x)) as [| Hle]; [assumption |].
  exfalso. apply Hz. apply Qabs_Qle_condition in Hle. lra.
Qed.

(** No double is nearer to [x] than [nearest_double x]. *)
Lemma nearest_double_nearest x y :
  is_double y -> (Qabs (nearest_double x - x) <= Qabs (y - x))%Q.
Proof.
  intros (m' & e' & Hy & Hm' & He').
  unfold nearest_double.
  destruct (Qeq_bool x 0) eqn:Hz.
  { apply Qeq_bool_iff in Hz.
    assert (H0 : (Qabs (0 - x) == 0)%Q) by (rewrite Hz; reflexivity).
    rewrite H0. apply Qabs_nonneg. }
  apply Qeq_bool_neq in Hz.
  set (b := binade (Qabs x)). set (u := Z.max b (-1022) - 52).
  pose proof (pow2_pos u) as Hu.
  destruct (Z_le_gt_dec u e') as [Hge | Hlt].
  - (* [y] is a multiple of [2^u] *)
    assert (Hyn : (y == inject_Z (m' * 2 ^ (e' - u)) * 2 ^ u)%Q).
    { rewrite Hy, inject_Z_mult, pow2_Z by lia.
      rewrite <- Qmult_assoc, <- pow2_plus.
      now replace (e' - u + u) with e' by lia. }
    rewrite Hyn. apply nearest_multiple.
  - (* [y] is below the binade of [x] *)
    assert (Hb : -1022 < b) by lia.
    assert (Hub : u = b - 52) by lia.
    pose proof (Qabs_pos_lt _ Hz) as Hpos.
    pose proof (binade_le _ Hpos) as Hle. fold b in Hle.
    assert (Hyb : (Qabs y <= 2 ^ b)%Q).
    { rewrite Hy, Qabs_Qmult, (Qabs_pos (2 ^ e')) by (apply Qlt_le_weak, pow2_pos).
      assert (Hma : (Qabs (inject_Z m') <= 2 ^ 53)%Q).
      { rewrite <- pow2_53. change (Qabs (inject_Z m')) with (inject_Z (Z.abs m')).
        now rewrite <- Zle_Qle. }
      apply Qle_trans with (2 ^ 53 * 2 ^ e')%Q.
      - apply Qmult_le_r; [apply pow2_pos | assumption].
      - rewrite <- pow2_plus. apply pow2_le. lia. }
    assert (H2b : (inject_Z (2 ^ 52) * 2 ^ u == 2 ^ b)%Q).
    { rewrite pow2_Z by lia. rewrite <- pow2_plus. now replace (52 + u) with b by lia. }
    assert (H2b' : (inject_Z (- 2 ^ 52) * 2 ^ u == - 2 ^ b)%Q).
    { rewrite inject_Z_opp, <- H2b. ring. }
    apply Qabs_Qle_condition in Hyb as [Hy1 Hy2].
    destruct (Qlt_le_dec 0 x) as [Hx | Hx].
    + rewrite (Qabs_pos x) in Hle by lra.
      eapply Qle_trans; [apply (nearest_multiple x u (2 ^ 52)) |].
      rewrite H2b.
      set (P := (2 ^ b)%Q) in *. clearbody P.
      apply Qabs_Qle_condition. split.
      * apply (Qabs_case (y - x) (fun a => (- a <= P - x)%Q)); intros; lra.
      * apply (Qabs_case (y - x) (fun a => (P - x <= a)%Q)); intros; lra.
    + rewrite (Qabs_neg x) in Hle by lra.
      eapply Qle_trans; [apply (nearest_multiple x u (- 2 ^ 52)) |].
      rewrite H2b'.
      set (P := (2 ^ b)%Q) in *. clearbody P.
      apply Qabs_Qle_condition. split.
      * apply (Qabs_case (y - x) (fun a => (- a <= - P - x)%Q)); intros; lra.
      * apply (Qabs_case (y - x) (fun a => (- P - x <= a)%Q)); intros; lra.
Qed.

Lemma nearest_double_rounds_to x : rounds_to x (nearest_double x).
Proof.
  split; [apply nearest_double_is_double | intros y; apply nearest_double_nearest].
Qed.

(** [round(x, 1)]: a number of tenths next to [x], as a double. *)
Lemma round1_nonneg x : (0 <= x)%Q -> (0 <= round1 x)%Q.
Proof.
  intros Hx. unfold round1. apply nearest_double_nonneg.
  assert (Hr : 0 <= round_half_even (x * 10)).
  { apply round_half_even_nonneg. apply Qmult_le_0_compat; [assumption | discriminate]. }
  unfold Qle. simpl. lia.
Qed.

(** A tie goes to the even integer. *)
Lemma round_half_even_tie x :
  (Qabs (inject_Z (round_half_even x) - x) == 1 # 2)%Q ->
  Z.even (round_half_even x) = true.
Proof.
  unfold round_half_even.
  set (f := Qfloor x).
  assert (Hlo : (inject_Z f <= x)%Q) by apply Qfloor_le.
  assert (Hhi : (x < inject_Z (f + 1))%Q) by apply Qlt_floor.
  rewrite inject_Z_plus in Hhi. change (inject_Z 1) with 1%Q in Hhi.
  destruct (_ ?= _)%Q eqn:Hcmp.
  - intros _. destruct (Z.even f) eqn:Hev; [assumption |].
    rewrite Z.even_add, Hev. reflexivity.
  - apply Qlt_alt in Hcmp. intros Ht. exfalso.
    rewrite Qabs_neg in Ht by lra. lra.
  - apply Qgt_alt in Hcmp. intros Ht. exfalso.
    rewrite inject_Z_plus in Ht. change (inject_Z 1) with 1%Q in Ht.
    rewrite Qabs_pos in Ht by lra. lra.
Qed.

Lemma tenths_scale (k : Z) x :
  ((k # 10) - x == (inject_Z k - x * 10) * (1 # 10))%Q.
Proof.
  assert (Hk : (k # 10 == inject_Z k * (1 # 10))%Q)
    by (unfold inject_Z, Qmult, Qeq; simpl; lia).
  rewrite Hk. ring.
Qed.

Lemma tenths_close x :
  (Qabs ((round_half_even (x * 10) # 10) - x) <= 1 # 20)%Q.
Proof.
  pose proof (round_half_even_close (x * 10)) as Hc.
  rewrite tenths_scale, Qabs_Qmult.
  change (Qabs (1 # 10)) with (1 # 10)%Q.
  set (a := Qabs _) in *. lra.
Qed.

Lemma tenths_tie x :
  (Qabs ((round_half_even (x * 10) # 10) - x) == 1 # 20)%Q ->
  Z.even (round_half_even (x * 10)) = true.
Proof.
  intros Ht. apply round_half_even_tie.
  rewrite tenths_scale, Qabs_Qmult in Ht.
  change (Qabs (1 # 10)) with (1 # 10)%Q in Ht.
  set (a := Qabs _) in *. lra.
Qed.

(** [round1 x] is the number of tenths nearest to [x], the even one at a
    tie, up to the last bit of a double. *)
Lemma round1_spec x :
  exists k : Z,
    (Qabs ((k # 10) - x) <= 1 # 20)%Q /\
    ((Qabs ((k # 10) - x) == 1 # 20)%Q -> Z.even k = true) /\
    rounds_to (k # 10) (round1 x) /\
    (Qabs (round1 x - (k # 10)) <= Qabs (k # 10) * 2 ^ (-53))%Q.
Proof.
  exists (round_half_even (x * 10)).
  split; [apply tenths_close |]. split; [apply tenths_tie |].
  split; [apply nearest_double_rounds_to |].
  unfold round1. set (k := round_half_even (x * 10)).
  destruct (Z.eq_dec k 0) as [-> | Hk].
  - vm_compute. discriminate.
  - apply nearest_double_close_normal.
    apply Qle_trans with (1 # 10)%Q.
    + apply Qle_bool_iff. vm_compute. reflexivity.
    + apply Qabs_case; intros Hs; unfold Qle, Qopp in *; simpl in *; lia.
Qed.

(** The float difference of two readings has the sign of the exact one. *)
Lemma py_sub_nonneg a b : (b <= a)%Q -> (0 <= py_sub a b)%Q.
Proof. intros Hab. unfold py_sub. apply nearest_double_nonneg. lra. Qed.

Lemma py_sub_rounds_to a b : rounds_to (a - b) (py_sub a b).
Proof. apply nearest_double_rounds_to. Qed.

(** The float difference is the exact one up to the rounding of the last
    bit. *)
Lemma py_sub_close a b :
  (Qabs (py_sub a b - (a - b)) <= Qabs (a - b) * 2 ^ (-53) + 2 ^ (-1075))%Q.
Proof. apply nearest_double_close. Qed.

(** ** Running the staleness check *)

Section StalenessCheck.
Context `{Collaborators}.

Lemma add_trace_nil w : add_trace w [] = w.
Proof. destruct w. unfold add_trace. simpl. now rewrite app_nil_r. Qed.

Lemma add_trace_app w a b : add_trace (add_trace w a) b = add_trace w (a ++ b).
Proof. unfold add_trace. simpl. now rewrite app_assoc. Qed.

Lemma getmtime_found p n w :
  resolve (w_fs w) p = Found n ->
  getmtime p w = (Ok (node_mtime n), add_trace w [EvStat p]).
Proof.
  intros Hres. unfold getmtime, os_stat, bind, emit, ret. simpl. now rewrite Hres.
Qed.

Lemma getmtime_roots_run (items : list timed_item) w :
  Forall (fun it : timed_item =>
            let '(root, _, m, _) := it in
            exists n, resolve (w_fs w) root = Found n /\ node_mtime n = m) items ->
  getmtime_roots (map untimed items) w =
  (Ok (map (fun it : timed_item => snd (fst it)) items),
   add_trace w (map (fun it : timed_item => EvStat (fst (fst (fst it)))) items)).
Proof.
  intros Hall. revert w Hall.
  induction items as [| [[[root dirs] m] files] items IH]; intros w Hall.
  - simpl. unfold ret. now rewrite add_trace_nil.
  - apply Forall_cons in Hall as [(n & Hres & Hm) Hall].
    simpl. unfold bind at 1. rewrite (getmtime_found _ _ _ Hres).
    unfold bind at 1. rewrite IH by exact Hall.
    unfold ret. rewrite add_trace_app, Hm. reflexivity.
Qed.

Lemma scan_files_run root (files : list (string * Z)) T w :
  Forall (fun f => resolve (w_fs w) (path_join root (fst f)) = Found (File (snd f))) files ->
  scan_files root (map fst files) T w =
  (Ok (snd (scan_outcome T (map (fun f => (path_join root (fst f), snd f)) files))),
   add_trace w (fst (scan_outcome T (map (fun f => (path_join root (fst f), snd f)) files)))).
Proof.
  intros Hall. revert w Hall.
  induction files as [| [f t] files IH]; intros w Hall.
  - simpl. unfold ret. now rewrite add_trace_nil.
  - apply Forall_cons in Hall as [Hres Hall]. simpl in Hres.
    simpl. unfold bind at 1. rewrite (getmtime_found _ _ _ Hres). simpl.
    destruct (T <? t).
    + unfold bind, logging_info, emit, ret, add_trace. simpl.
      now rewrite <- app_assoc.
    + rewrite IH by exact Hall.
      destruct (scan_outcome T _) as [evs b]. simpl.
      now rewrite add_trace_app.
Qed.

Lemma scan_outcome_app T a b :
  scan_outcome T (a ++ b) =
  if snd (scan_outcome T a) then scan_outcome T a
  else (fst (scan_outcome T a) ++ fst (scan_outcome T b), snd (scan_outcome T b)).
Proof.
  induction a as [| [p t] a IH]; simpl.
  - now destruct (scan_outcome T b).
  - destruct (T <? t); [reflexivity |].
    rewrite IH. destruct (scan_outcome T a) as [ea [|]]; simpl; [reflexivity |].
    now destruct (scan_outcome T b).
Qed.

Lemma scan_walk_run (items : list timed_item) T w :
  Forall (fun f => resolve (w_fs w) (fst f) = Found (File (snd f))) (timed_files items) ->
  scan_walk (map untimed items) T w =
  (Ok (snd (scan_outcome T (timed_files items))),
   add_trace w (fst (scan_outcome T (timed_files items)))).
Proof.
  intros Hall. revert w Hall.
  induction items as [| [[[root dirs] m] files] items IH]; intros w Hall.
  - simpl. unfold ret. now rewrite add_trace_nil.
  - simpl in Hall. apply Forall_app in Hall as [Hhere Hrest].
    simpl. unfold bind at 1. rewrite scan_files_run.
    2:{ rewrite Forall_map in Hhere. exact Hhere. }
    rewrite scan_outcome_app.
    destruct (scan_outcome T (map _ files)) as [ea [|]]; simpl; [reflexivity |].
    rewrite IH by exact Hrest.
    now rewrite add_trace_app.
Qed.

Lemma scan_outcome_spec T fl :
  if snd (scan_outcome T fl) then
    exists pre p t post,
      fl = pre ++ (p, t) :: post /\
      Forall (fun x => snd x <= T) pre /\ T < t /\
      fst (scan_outcome T fl) =
      map (fun x => EvStat (fst x)) pre ++ [EvStat p; EvLog (LogReindexing p)]
  else
    Forall (fun x => snd x <= T) fl /\
    fst (scan_outcome T fl) = map (fun x => EvStat (fst x)) fl.
Proof.
  induction fl as [| [p t] fl IH]; simpl.
  - split; [constructor | reflexivity].
  - destruct (Z.ltb_spec T t) as [Hlt | Hge]; simpl.
    + exists [], p, t, fl. repeat split; [constructor | assumption].
    + destruct (scan_outcome T fl) as [evs [|]]; simpl in *.
      * destruct IH as (pre & q & u & post & -> & Hpre & Hu & ->).
        exists ((p, t) :: pre), q, u, post. repeat split; try assumption.
        constructor; assumption.
      * destruct IH as [Hall ->]. split; [constructor; assumption | reflexivity].
Qed.

Lemma walk_files_untimed (items : list timed_item) :
  walk_files (map untimed items) = map fst (timed_files items).
Proof.
  unfold walk_files, timed_files.
  induction items as [| [[[root dirs] m] files] items IH]; simpl; [reflexivity |].
  rewrite map_app, IH, !map_map. reflexivity.
Qed.

Lemma roots_untimed (items : list timed_item) :
  map (fun it : walk_item => EvStat (fst (fst it))) (map untimed items) =
  map (fun it : timed_item => EvStat (fst (fst (fst it)))) items.
Proof.
  rewrite map_map. apply map_ext. now intros [[[root dirs] m] files].
Qed.

(** The check on a world whose two walks are known with their [mtime]s. *)
Lemma needs_reindexing_run self pdir ddir w (cached data : list timed_item) T :
  os_walk_fs (w_fs w) pdir = map untimed cached ->
  os_walk_fs (w_fs w) ddir = map untimed data ->
  Forall (fun it : timed_item =>
            let '(root, _, m, _) := it in
            exists n, resolve (w_fs w) root = Found n /\ node_mtime n = m) cached ->
  Forall (fun f => resolve (w_fs w) (fst f) = Found (File (snd f))) (timed_files data) ->
  py_max (map (fun it : timed_item => snd (fst it)) cached) = Ok T ->
  _needs_reindexing self pdir ddir w =
  (Ok (snd (scan_outcome T (timed_files data))),
   add_trace w ([EvEnter_needs_reindexing pdir ddir]
                ++ map (fun it : walk_item => EvStat (fst (fst it))) (os_walk_fs (w_fs w) pdir)
                ++ fst (scan_outcome T (timed_files data)))).
Proof.
  intros Hc Hd Hroots Hfiles Hmax.
  unfold _needs_reindexing.
  unfold bind at 1. unfold emit at 1.
  fold (add_trace w [EvEnter_needs_reindexing pdir ddir]).
  unfold bind at 1. unfold os_walk at 1. simpl w_fs. rewrite Hc.
  unfold bind at 1. rewrite getmtime_roots_run by exact Hroots.
  unfold bind at 1. unfold lift_result at 1. rewrite Hmax.
  unfold bind at 1. unfold os_walk at 1. simpl w_fs. rewrite Hd.
  rewrite scan_walk_run by exact Hfiles.
  rewrite roots_untimed, !add_trace_app. reflexivity.
Qed.

Lemma walk_roots_resolve fs top n :
  resolve fs top = Found n -> wf_node n = true ->
  Forall (fun it : timed_item =>
            let '(root, _, m, _) := it in
            exists d, resolve fs root = Found d /\ node_mtime d = m) (walk_timed top n).
Proof.
  intros Htop Hwf. apply List.Forall_forall. intros it Hin.
  destruct (walk_timed_sound _ _ _ Hwf Hin) as (rel & m & es & Hres & _ & ->).
  exists (Dir m true es). split; [| reflexivity].
  now rewrite resolve_app, Htop.
Qed.

Lemma walk_files_resolve fs top n :
  resolve fs top = Found n -> wf_node n = true ->
  Forall (fun f => resolve fs (fst f) = Found (File (snd f))) (timed_files (walk_timed top n)).
Proof.
  intros Htop Hwf. apply List.Forall_forall. intros [p t] Hin.
  exact (timed_files_sound _ _ _ _ _ Htop Hwf Hin).
Qed.

Lemma py_max_spec xs :
  xs <> [] ->
  exists T, py_max xs = Ok T /\ In T xs /\ forall x, In x xs -> x <= T.
Proof.
  destruct xs as [| x xs]; [congruence | intros _].
  eexists. split; [reflexivity |]. apply max_from_spec.
Qed.

(** [max] over the walk of a tree is the latest [mtime] among the
    directories reached by listing, and conversely. *)
Lemma latest_dir_mtime_max top n T :
  wf_node n = true -> latest_dir_mtime n T ->
  py_max (map (fun it : timed_item => snd (fst it)) (walk_timed top n)) = Ok T.
Proof.
  intros Hwf [(rel & l & es & Hres & Hla) Hub].
  pose proof (walk_timed_complete rel n top T l es Hres Hla) as Hin.
  apply (in_map (fun it : timed_item => snd (fst it))) in Hin. simpl in Hin.
  destruct (py_max_spec (map (fun it : timed_item => snd (fst it)) (walk_timed top n)))
    as (T' & Hmax & HT' & Hle).
  { intros Hnil. rewrite Hnil in Hin. destruct Hin. }
  rewrite Hmax. f_equal.
  apply in_map_iff in HT' as [it [<- Hit]].
  destruct (walk_timed_sound _ _ _ Hwf Hit) as (rel' & m & es' & Hres' & Hla' & ->).
  simpl in *. specialize (Hub _ _ _ _ Hres' Hla'). specialize (Hle _ Hin). lia.
Qed.

Lemma max_latest_dir_mtime top n T :
  wf_node n = true ->
  py_max (map (fun it : timed_item => snd (fst it)) (walk_timed top n)) = Ok T ->
  latest_dir_mtime n T.
Proof.
  intros Hwf Hmax.
  destruct (py_max_spec (map (fun it : timed_item => snd (fst it)) (walk_timed top n)))
    as (T' & Hmax' & HT' & Hle).
  { intros Hnil. rewrite Hnil in Hmax. discriminate. }
  rewrite Hmax in Hmax'. injection Hmax' as <-.
  split.
  - apply in_map_iff in HT' as [it [<- Hit]].
    destruct (walk_timed_sound _ _ _ Hwf Hit) as (rel & m & es & Hres & Hla & ->).
    now exists rel, true, es.
  - intros rel t l es Hres Hla. apply Hle.
    apply in_map_iff.
    exists (top ++ rel, dirnames es, t, file_entries es).
    split; [reflexivity |].
    now apply (walk_timed_complete rel n top t l es).
Qed.

(** C1.  Let the cache path and the source path exist, let [T] be the
    greatest [mtime] among the directories reached by listing from the
    cache directory, and let every directory at or below the source
    directory be listable.  Then [_needs_reindexing] returns a boolean,
    and it is [true] exactly when some regular file below the source
    directory has an [mtime] strictly greater than [T].  The world is
    left as it was but for the trace: the [mtime] of every cache
    directory of the walk is read, then the source files are read in the
    order of the walk up to and including the first one newer than [T],
    and no further.  A source directory without entries gives [false]. *)
Theorem needs_reindexing_iff (self : loc) (persistent_dir data_dir : path)
    (w : world) (cache src : node) (T : Z) :
  wf_node (w_fs w) = true ->
  resolve (w_fs w) persistent_dir = Found cache ->
  latest_dir_mtime cache T ->
  resolve (w_fs w) data_dir = Found src ->
  is_dir src = true -> all_listable src = true ->
  exists (b : bool) (visited : list path) (tail : list event),
    _needs_reindexing self persistent_dir data_dir w =
      (Ok b,
       add_trace w
         ([EvEnter_needs_reindexing persistent_dir data_dir]
          ++ map (fun it : walk_item => EvStat (fst (fst it)))
                 (os_walk_fs (w_fs w) persistent_dir)
          ++ map EvStat visited ++ tail)) /\
    (b = true <-> exists rel t, resolve src rel = Found (File t) /\ T < t) /\
    stops_at_first_newer (w_fs w) T
      (walk_files (os_walk_fs (w_fs w) data_dir)) b visited tail /\
    (forall m l, src = Dir m l [] -> b = false).
Proof.
  intros Hwf Hc HT Hs Hsd Hsl.
  assert (Hwfc : wf_node cache = true) by exact (wf_resolve _ _ _ Hwf Hc).
  assert (Hwfs : wf_node src = true) by exact (wf_resolve _ _ _ Hwf Hs).
  set (cached := walk_timed persistent_dir cache).
  set (data := walk_timed data_dir src).
  assert (Hwc : os_walk_fs (w_fs w) persistent_dir = map untimed cached).
  { unfold os_walk_fs. rewrite Hc. apply walk_node_untimed. }
  assert (Hwd : os_walk_fs (w_fs w) data_dir = map untimed data).
  { unfold os_walk_fs. rewrite Hs. apply walk_node_untimed. }
  pose proof (latest_dir_mtime_max persistent_dir cache T Hwfc HT) as Hmax.
  pose proof (needs_reindexing_run self persistent_dir data_dir w cached data T
                Hwc Hwd (walk_roots_resolve _ _ _ Hc Hwfc)
                (walk_files_resolve _ _ _ Hs Hwfs) Hmax) as Hrun.
  pose proof (scan_outcome_spec T (timed_files data)) as Hspec.
  pose proof (walk_files_resolve _ _ _ Hs Hwfs) as Hfiles. fold data in Hfiles.
  rewrite List.Forall_forall in Hfiles.
  assert (Hnot : forall pre : list (path * Z),
             (forall x, In x pre -> In x (timed_files data)) ->
             Forall (fun x => snd x <= T) pre ->
             Forall (fun g => ~ newer_file (w_fs w) T g) (map fst pre)).
  { intros pre Hsub Hpre. apply List.Forall_forall. intros g Hg.
    apply in_map_iff in Hg as [x [<- Hx]]. intros (t & Hres & Hlt).
    rewrite List.Forall_forall in Hpre. specialize (Hpre _ Hx).
    rewrite (Hfiles _ (Hsub _ Hx)) in Hres. injection Hres as <-. lia. }
  destruct (scan_outcome T (timed_files data)) as [evs b] eqn:Hscan.
  simpl in Hrun, Hspec.
  exists b.
  destruct b.
  - destruct Hspec as (pre & p & t & post & Hfl & Hpre & Hlt & ->).
    exists (map fst pre ++ [p]), [EvLog (LogReindexing p)].
    assert (Hpin : In (p, t) (timed_files data))
      by (rewrite Hfl; apply in_or_app; right; now left).
    split; [| split; [| split]].
    + rewrite Hrun. do 3 f_equal.
      rewrite map_app, !map_map, <- app_assoc. reflexivity.
    + split; [intros _ | reflexivity].
      unfold data, timed_files in Hpin.
      apply in_flat_map in Hpin as [[[[root dirs] m] files] [Hit Hin]].
      apply in_map_iff in Hin as [[f t'] [[= <- <-] Hf]].
      destruct (walk_timed_sound _ _ _ Hwfs Hit)
        as (rel & m' & es & Hres & _ & [= -> -> -> ->]).
      exists (rel ++ [f]), t'. split; [| assumption].
      rewrite resolve_app, Hres. simpl.
      assert (Hwf' : wf_node (Dir m' true es) = true) by exact (wf_resolve _ _ _ Hwfs Hres).
      apply wf_node_dir in Hwf' as [Hnd _].
      apply file_entries_In in Hf.
      now rewrite (In_find_entry _ _ _ Hnd Hf).
    + simpl. exists (map fst pre), p, (map fst post).
      rewrite Hwd, walk_files_untimed, Hfl, map_app. simpl.
      repeat split.
      * apply Hnot; [| assumption].
        intros x Hx. rewrite Hfl. apply in_or_app. now left.
      * exists t. split; [exact (Hfiles _ Hpin) | assumption].
    + intros m l ->. subst data. apply all_listable_dir in Hsl as [-> _].
      rewrite walk_timed_dir in Hfl. simpl in Hfl. now destruct pre.
  - destruct Hspec as [Hall ->].
    exists (map fst (timed_files data)), [].
    split; [| split; [| split]].
    + rewrite Hrun. do 3 f_equal.
      rewrite app_nil_r, !map_map. reflexivity.
    + split; [discriminate |].
      intros (rel & t & Hres & Hlt). exfalso.
      pose proof (timed_files_complete data_dir src rel t Hsl Hsd Hres) as Hin.
      fold data in Hin.
      rewrite List.Forall_forall in Hall. specialize (Hall _ Hin). simpl in Hall. lia.
    + simpl. rewrite Hwd, walk_files_untimed. repeat split.
      apply Hnot; [auto | assumption].
    + reflexivity.
Qed.

End StalenessCheck.

(** ** Frames *)

Section Frames.
Context `{Collaborators}.

Lemma frame_ret {A} P (a : A) : frame P (ret a).
Proof. intros w. simpl. repeat split. exists []. now rewrite app_nil_r. Qed.

Lemma frame_raise {A} P e : frame P (raise (A := A) e).
Proof. intros w. simpl. repeat split. exists []. now rewrite app_nil_r. Qed.

Lemma frame_lift {A} P (r : result A) : frame P (lift_result r).
Proof. intros w. simpl. repeat split. exists []. now rewrite app_nil_r. Qed.

Lemma frame_emit (P : event -> Prop) e : P e -> frame P (emit e).
Proof. intros He w. simpl. repeat split. exists [e]. split; [reflexivity | now constructor]. Qed.

Lemma frame_call {A} P (c : collab ExtState A) : frame P (call c).
Proof.
  intros w. unfold call. destruct (c (w_fs w) (w_ext w)) as [[r fs] ext]. simpl.
  repeat split. exists []. now rewrite app_nil_r.
Qed.

Lemma frame_os_walk P top : frame P (os_walk top).
Proof. intros w. simpl. repeat split. exists []. now rewrite app_nil_r. Qed.

Lemma frame_bind {A B} P (m : M A) (k : A -> M B) :
  frame P m -> (forall a, frame P (k a)) -> frame P (bind m k).
Proof.
  intros Hm Hk w. unfold bind. specialize (Hm w).
  destruct (m w) as [[a | e] w1]; simpl in Hm.
  - destruct Hm as (Hh & Ht & evs & Htr & Hall).
    destruct (Hk a w1) as (Hh' & Ht' & evs' & Htr' & Hall').
    rewrite Hh', Ht', Htr', Hh, Ht, Htr. repeat split.
    exists (evs ++ evs'). split; [now rewrite app_assoc | now apply Forall_app].
  - exact Hm.
Qed.

Lemma frame_if {A} P (b : bool) (m1 m2 : M A) :
  frame P m1 -> frame P m2 -> frame P (if b then m1 else m2).
Proof. now destruct b. Qed.

Lemma frame_weaken {A} (P Q : event -> Prop) (m : M A) :
  (forall e, P e -> Q e) -> frame P m -> frame Q m.
Proof.
  intros HPQ Hm w. destruct (Hm w) as (Hh & Ht & evs & Htr & Hall).
  repeat split; try assumption. exists evs. split; [assumption |].
  eapply Forall_impl; eauto.
Qed.

Lemma frame_getmtime p : frame is_check_event (getmtime p).
Proof.
  unfold getmtime, os_stat.
  apply frame_bind; [| intros; apply frame_ret].
  apply frame_bind; [now apply frame_emit | intros _].
  intros w. simpl. destruct (resolve (w_fs w) p); simpl;
    repeat split; exists []; now rewrite app_nil_r.
Qed.

Lemma frame_path_exists p : frame is_check_event (path_exists p).
Proof.
  unfold path_exists.
  apply frame_bind; [now apply frame_emit | intros _].
  intros w. simpl. destruct (resolve (w_fs w) p); simpl;
    repeat split; exists []; now rewrite app_nil_r.
Qed.

Lemma frame_getmtime_roots items : frame is_check_event (getmtime_roots items).
Proof.
  induction items as [| [[root dirs] files] items IH]; simpl.
  - apply frame_ret.
  - apply frame_bind; [apply frame_getmtime | intros t].
    apply frame_bind; [apply IH | intros ts]. apply frame_ret.
Qed.

Lemma frame_scan_files root files T : frame is_check_event (scan_files root files T).
Proof.
  induction files as [| f files IH]; simpl.
  - apply frame_ret.
  - apply frame_bind; [apply frame_getmtime | intros t].
    apply frame_if; [| apply IH].
    apply frame_bind; [now apply frame_emit | intros _; apply frame_ret].
Qed.

Lemma frame_scan_walk items T : frame is_check_event (scan_walk items T).
Proof.
  induction items as [| [[root dirs] files] items IH]; simpl.
  - apply frame_ret.
  - apply frame_bind; [apply frame_scan_files | intros b].
    apply frame_if; [apply frame_ret | apply IH].
Qed.

Lemma frame_needs_reindexing self pdir ddir :
  frame is_check_event (_needs_reindexing self pdir ddir).
Proof.
  unfold _needs_reindexing.
  apply frame_bind; [now apply frame_emit | intros _].
  apply frame_bind; [apply frame_os_walk | intros roots].
  apply frame_bind; [apply frame_getmtime_roots | intros times].
  apply frame_bind; [apply frame_lift | intros T].
  apply frame_bind; [apply frame_os_walk | intros items].
  apply frame_scan_walk.
Qed.

Lemma frame_index_is_stale self pdir ddir :
  frame is_check_event (index_is_stale self pdir ddir).
Proof.
  unfold index_is_stale.
  apply frame_bind; [apply frame_path_exists | intros present].
  apply frame_if; [apply frame_ret | apply frame_needs_reindexing].
Qed.

End Frames.

(** ** When a directory is not what the check expects *)

Section Failures.
Context `{Collaborators}.

Lemma cannot_list_walk fs p : cannot_list fs p -> os_walk_fs fs p = [].
Proof.
  unfold cannot_list, os_walk_fs. intros Hno.
  destruct (resolve fs p) as [[t | m [|] es] | |]; try reflexivity.
  now destruct (Hno m es).
Qed.

(** C3 (as amended).  With a cache directory that is present and can be
    listed, a source directory that is missing, or is a regular file, or
    cannot be listed makes [_needs_reindexing] return [False]: [os.walk]
    drops the error of [scandir] and yields nothing, so no file is
    looked at and nothing is raised. *)
Theorem needs_reindexing_source_not_listed (self : loc)
    (persistent_dir data_dir : path) (w : world) (mc : Z) (esc : list (string * node)) :
  wf_node (w_fs w) = true ->
  resolve (w_fs w) persistent_dir = Found (Dir mc true esc) ->
  cannot_list (w_fs w) data_dir ->
  _needs_reindexing self persistent_dir data_dir w =
  (Ok false,
   add_trace w
     ([EvEnter_needs_reindexing persistent_dir data_dir]
      ++ map (fun it : walk_item => EvStat (fst (fst it)))
             (os_walk_fs (w_fs w) persistent_dir))).
Proof.
  intros Hwf Hc Hno.
  assert (Hwfc : wf_node (Dir mc true esc) = true) by exact (wf_resolve _ _ _ Hwf Hc).
  assert (Hmax : exists T,
             py_max (map (fun it : timed_item => snd (fst it))
                         (walk_timed persistent_dir (Dir mc true esc))) = Ok T).
  { rewrite walk_timed_dir. simpl. eexists. reflexivity. }
  destruct Hmax as [T Hmax].
  rewrite (needs_reindexing_run self persistent_dir data_dir w
             (walk_timed persistent_dir (Dir mc true esc)) [] T).
  - simpl. now rewrite app_nil_r.
  - unfold os_walk_fs. rewrite Hc. apply walk_node_untimed.
  - now apply cannot_list_walk.
  - now apply walk_roots_resolve.
  - constructor.
  - exact Hmax.
Qed.

(** C10.  When the backends are set up and the cache path is a regular
    file, [Path.exists] is true, so [_needs_reindexing] is entered; its
    walk of the cache path yields nothing, [max] of the empty sequence
    raises [ValueError], and the constructor raises it, before any of the
    loader, index or engine collaborators is called. *)
Theorem cache_is_regular_file_ValueError (persistent_dir path_to_data : path)
    (model_name : string) (request_timeout : Q) (w w1 : world) (start : Q) (m : Z) :
  init_backends model_name request_timeout (fresh_instance w) = (Ok start, w1) ->
  resolve (w_fs w1) persistent_dir = Found (File m) ->
  os_walk_fs (w_fs w1) persistent_dir = [] /\
  DataLama persistent_dir path_to_data model_name request_timeout w =
  (Raise ValueError,
   add_trace w1 [EvStat persistent_dir;
                 EvEnter_needs_reindexing persistent_dir path_to_data]).
Proof.
  intros Hinit Hres. split.
  - unfold os_walk_fs. now rewrite Hres.
  - unfold fresh_instance in Hinit.
    unfold DataLama, __init__, bind, alloc. rewrite Hinit.
    unfold index_is_stale, path_exists, _needs_reindexing, os_walk, os_walk_fs,
      bind, emit, ret. simpl. rewrite Hres. simpl. rewrite Hres. simpl.
    unfold add_trace. now rewrite <- app_assoc.
Qed.

End Failures.

(** ** Construction *)

Section Construction.
Context `{Collaborators}.

Lemma init_backends_inv model timeout w start w1 :
  init_backends model timeout w = (Ok start, w1) ->
  start = perf_counter_at (w_ticks w) /\
  w_ticks w1 = S (w_ticks w) /\
  w_heap w1 = w_heap w /\
  w_trace w1 =
  w_trace w ++ [EvEmbedding "BAAI/bge-base-en-v1.5"; EvOllama model timeout;
                EvPerfCounter (w_ticks w)].
Proof.
  unfold init_backends, bind, emit, call, perf_counter. simpl.
  destruct (HuggingFaceEmbedding _ _ _) as [[[[] | e] fs1] ext1]; [| discriminate].
  simpl.
  destruct (Ollama _ _ _ _) as [[[[] | e] fs2] ext2]; [| discriminate].
  simpl. intros [= <- <-]. simpl. repeat split. now rewrite <- !app_assoc.
Qed.

Lemma rebuild_index_inv pdir ddir w index w' :
  rebuild_index pdir ddir w = (Ok index, w') ->
  w_heap w' = w_heap w /\ w_ticks w' = w_ticks w /\
  exists docs,
    w_trace w' =
    w_trace w ++ [EvLog (LogCreating ddir); EvLoadData ddir; EvFromDocuments docs;
                  EvPersist index pdir; EvLog (LogPersisted pdir)].
Proof.
  unfold rebuild_index, bind, logging_info, emit, call, ret. simpl.
  destruct (load_data _ _ _) as [[[docs | e] fs1] ext1]; [| discriminate].
  simpl.
  destruct (from_documents _ _ _) as [[[idx | e] fs2] ext2]; [| discriminate].
  simpl.
  destruct (persist _ _ _ _) as [[[[] | e] fs3] ext3]; [| discriminate].
  simpl. intros [= <- <-]. simpl. repeat split. exists docs.
  now rewrite <- !app_assoc.
Qed.

Lemma reload_index_inv pdir w index w' :
  reload_index pdir w = (Ok index, w') ->
  w_heap w' = w_heap w /\ w_ticks w' = w_ticks w /\
  w_trace w' = w_trace w ++ [EvLog (LogLoading pdir); EvLoadIndex pdir].
Proof.
  unfold reload_index, bind, logging_info, emit, call. simpl.
  destruct (load_index_from_storage _ _ _) as [[[idx | e] fs1] ext1]; [| discriminate].
  intros [= <- <-]. simpl. repeat split. now rewrite <- app_assoc.
Qed.

Lemma index_is_stale_absent self pdir ddir w :
  (forall n, resolve (w_fs w) pdir <> Found n) ->
  index_is_stale self pdir ddir w = (Ok true, add_trace w [EvStat pdir]).
Proof.
  intros Hno. unfold index_is_stale, path_exists, bind, emit, ret. simpl.
  destruct (resolve (w_fs w) pdir) as [n | |]; [now destruct (Hno n) | reflexivity..].
Qed.

Lemma index_is_stale_present self pdir ddir w n :
  resolve (w_fs w) pdir = Found n ->
  index_is_stale self pdir ddir w =
  _needs_reindexing self pdir ddir (add_trace w [EvStat pdir]).
Proof.
  intros Hres. unfold index_is_stale, path_exists, bind, emit. simpl.
  now rewrite Hres.
Qed.

Lemma setattr_ok self a v w attrs :
  w_heap w !! self = Some (PyInstance attrs) ->
  setattr self a v w =
  (Ok tt,
   World (w_fs w) (w_ext w) (w_ticks w)
     (<[self := PyInstance (<[a := v]> attrs)]> (w_heap w))
     (w_trace w ++ [EvSetAttr self a])).
Proof. intros Hs. unfold setattr. now rewrite Hs. Qed.

Lemma bind_inv_ok {A B} (m : M A) (k : A -> M B) w b w' :
  bind m k w = (Ok b, w') ->
  exists a w1, m w = (Ok a, w1) /\ k a w1 = (Ok b, w').
Proof.
  unfold bind. destruct (m w) as [[a | e] w1]; [| discriminate].
  intros Hk. now exists a, w1.
Qed.

Lemma emit_inv e w (u : unit) w' : emit e w = (Ok u, w') -> w' = add_trace w [e].
Proof. unfold emit. now intros [= <-]. Qed.

Lemma call_inv {A} (c : collab ExtState A) w (a : A) w' :
  call c w = (Ok a, w') ->
  c (w_fs w) (w_ext w) = (Ok a, w_fs w', w_ext w') /\
  w' = World (w_fs w') (w_ext w') (w_ticks w) (w_heap w) (w_trace w).
Proof.
  unfold call. destruct (c (w_fs w) (w_ext w)) as [[r fs] ext].
  now intros [= -> <-].
Qed.

Lemma setattr_inv self a v w (u : unit) w' :
  setattr self a v w = (Ok u, w') ->
  exists attrs,
    w_heap w !! self = Some (PyInstance attrs) /\
    w' = World (w_fs w) (w_ext w) (w_ticks w)
           (<[self := PyInstance (<[a := v]> attrs)]> (w_heap w))
           (w_trace w ++ [EvSetAttr self a]).
Proof.
  unfold setattr.
  destruct (w_heap w !! self) as [[xs | xs | attrs] |]; try discriminate.
  intros [= <-]. now exists attrs.
Qed.

(** The calls of the two branches, each on what the one before it
    returned and left. *)
Lemma rebuild_index_chain pdir ddir w index w' :
  rebuild_index pdir ddir w = (Ok index, w') ->
  exists docs fs1 ext1 fs2 ext2,
    load_data ddir (w_fs w) (w_ext w) = (Ok docs, fs1, ext1) /\
    from_documents docs fs1 ext1 = (Ok index, fs2, ext2) /\
    persist index pdir fs2 ext2 = (Ok tt, w_fs w', w_ext w') /\
    w_trace w' =
    w_trace w ++ [EvLog (LogCreating ddir); EvLoadData ddir; EvFromDocuments docs;
                  EvPersist index pdir; EvLog (LogPersisted pdir)].
Proof.
  intros Hrun. unfold rebuild_index in Hrun.
  apply bind_inv_ok in Hrun as ([] & wa & Ha & Hrun). apply emit_inv in Ha as ->.
  apply bind_inv_ok in Hrun as ([] & wb & Hb & Hrun). apply emit_inv in Hb as ->.
  apply bind_inv_ok in Hrun as (docs & wc & Hc & Hrun).
  apply call_inv in Hc as (Hload & Hc).
  apply bind_inv_ok in Hrun as ([] & wd & Hd & Hrun). apply emit_inv in Hd as ->.
  apply bind_inv_ok in Hrun as (idx & we & He & Hrun).
  apply call_inv in He as (Hfrom & He).
  apply bind_inv_ok in Hrun as ([] & wf & Hf & Hrun). apply emit_inv in Hf as ->.
  apply bind_inv_ok in Hrun as ([] & wg & Hg & Hrun).
  apply call_inv in Hg as (Hpers & Hg).
  apply bind_inv_ok in Hrun as ([] & wh & Hh & Hrun). apply emit_inv in Hh as ->.
  unfold ret in Hrun. injection Hrun as <- <-.
  cbn [add_trace w_fs w_ext w_trace] in *.
  exists docs, (w_fs wc), (w_ext wc), (w_fs we), (w_ext we).
  repeat split; try assumption.
  rewrite Hg. cbn [w_trace]. rewrite He. cbn [w_trace]. rewrite Hc. cbn [w_trace].
  now rewrite <- !app_assoc.
Qed.

Lemma reload_index_chain pdir w index w' :
  reload_index pdir w = (Ok index, w') ->
  load_index_from_storage pdir (w_fs w) (w_ext w) = (Ok index, w_fs w', w_ext w') /\
  w_trace w' = w_trace w ++ [EvLog (LogLoading pdir); EvLoadIndex pdir].
Proof.
  intros Hrun. unfold reload_index in Hrun.
  apply bind_inv_ok in Hrun as ([] & wa & Ha & Hrun). apply emit_inv in Ha as ->.
  apply bind_inv_ok in Hrun as ([] & wb & Hb & Hrun). apply emit_inv in Hb as ->.
  apply call_inv in Hrun as (Hload & Hw).
  cbn [add_trace w_fs w_ext w_trace] in *.
  split; [assumption |].
  rewrite Hw. cbn [w_trace]. now rewrite <- !app_assoc.
Qed.

Lemma DataLama_inv pdir ddir model timeout w self w' :
  DataLama pdir ddir model timeout w = (Ok self, w') ->
  self = length (w_heap w) /\
  exists start w1 stale w2 index w3 engine,
    init_backends model timeout (fresh_instance w) = (Ok start, w1) /\
    index_is_stale self pdir ddir w1 = (Ok stale, w2) /\
    (if stale then rebuild_index pdir ddir else reload_index pdir) w2 = (Ok index, w3) /\
    w_trace w' =
    w_trace w3 ++ [EvPerfCounter (w_ticks w3);
                   EvSetAttr self "_load_duration";
                   EvLog (LogLoaded (py_sub (perf_counter_at (w_ticks w3)) start));
                   EvAsQueryEngine index 4;
                   EvSetAttr self "query_engine";
                   EvSetAttr self "_query_durations"] /\
    w_ticks w' = S (w_ticks w3) /\
    length (w_heap w') = S (S self) /\
    session self (py_sub (perf_counter_at (w_ticks w3)) start) engine (S self) [] w'.
Proof.
  intros Hrun. unfold DataLama in Hrun.
  apply bind_inv_ok in Hrun as (self0 & w0 & Halloc & Hrun).
  unfold alloc in Halloc. injection Halloc as <- <-.
  fold (fresh_instance w) in Hrun.
  apply bind_inv_ok in Hrun as ([] & w5 & Hinit & Hret).
  unfold ret in Hret. injection Hret as <- <-.
  split; [reflexivity |].
  set (self := length (w_heap w)) in *.
  unfold __init__ in Hinit.
  apply bind_inv_ok in Hinit as (start & w1 & H1 & Hinit).
  apply bind_inv_ok in Hinit as (stale & w2 & H2 & Hinit).
  apply bind_inv_ok in Hinit as (index & w3 & H3 & Hinit).
  exists start, w1, stale, w2, index, w3.
  assert (Hheap : w_heap w3 = w_heap w ++ [PyInstance ∅]).
  { apply init_backends_inv in H1 as (_ & _ & Hh1 & _).
    pose proof (frame_index_is_stale self pdir ddir w1) as (Hh2 & _).
    rewrite H2 in Hh2. simpl in Hh2.
    assert (Hh3 : w_heap w3 = w_heap w2).
    { destruct stale; [now apply rebuild_index_inv in H3 | now apply reload_index_inv in H3]. }
    now rewrite Hh3, Hh2, Hh1. }
  assert (Hlen : length (w_heap w3) = S self).
  { rewrite Hheap, length_app. simpl. unfold self. lia. }
  apply bind_inv_ok in Hinit as (end_time & wa & Ha & Hinit).
  unfold perf_counter in Ha. injection Ha as <- <-.
  apply bind_inv_ok in Hinit as ([] & wb & Hb & Hinit).
  apply setattr_inv in Hb as (attrs1 & Hl1 & ->). simpl in Hl1.
  apply bind_inv_ok in Hinit as ([] & wc & Hc & Hinit).
  apply emit_inv in Hc as ->.
  apply bind_inv_ok in Hinit as ([] & wd & Hd & Hinit).
  apply emit_inv in Hd as ->.
  apply bind_inv_ok in Hinit as (engine & we & He & Hinit).
  apply call_inv in He as (_ & He). simpl in He.
  apply bind_inv_ok in Hinit as ([] & wf & Hf & Hinit).
  apply setattr_inv in Hf as (attrs2 & Hl2 & ->).
  apply bind_inv_ok in Hinit as (l & wg & Hg & Hinit).
  unfold alloc in Hg. injection Hg as <- <-.
  apply setattr_inv in Hinit as (attrs3 & Hl3 & ->).
  rewrite He in Hl2, Hl3 |- *. simpl in Hl2, Hl3 |- *.
  rewrite list_lookup_insert_eq in Hl2 by lia. injection Hl2 as <-.
  rewrite lookup_app_l in Hl3 by (rewrite !length_insert; lia).
  rewrite list_lookup_insert_eq in Hl3 by (rewrite length_insert; lia).
  injection Hl3 as <-.
  exists engine. repeat split; try assumption.
  - now rewrite <- !app_assoc.
  - rewrite length_insert, length_app, !length_insert, Hlen. simpl. lia.
  - eexists. split; [| split; [| split; [| split]]].
    + apply list_lookup_insert_eq.
      rewrite length_app, !length_insert, Hlen. lia.
    + rewrite lookup_insert_ne by discriminate.
      rewrite lookup_insert_ne by discriminate.
      apply lookup_insert_eq.
    + rewrite lookup_insert_ne by discriminate. apply lookup_insert_eq.
    + rewrite !length_insert, Hlen. apply lookup_insert_eq.
    + simpl. rewrite !length_insert, Hlen.
      rewrite list_lookup_insert_ne by lia.
      rewrite lookup_app_r by (rewrite !length_insert; lia).
      rewrite !length_insert, Hlen, Nat.sub_diag. reflexivity.
Qed.

Lemma path_events_app a b : path_events (a ++ b) = path_events a ++ path_events b.
Proof. apply List.filter_app. Qed.

Lemma path_events_check evs : Forall is_check_event evs -> path_events evs = [].
Proof.
  induction 1 as [| e evs He _ IH]; [reflexivity |].
  simpl. rewrite IH. now destruct e.
Qed.

Lemma needs_reindexing_enters self pdir ddir w :
  exists evs,
    w_trace (snd (_needs_reindexing self pdir ddir w)) =
    w_trace w ++ EvEnter_needs_reindexing pdir ddir :: evs.
Proof.
  unfold _needs_reindexing. unfold bind at 1. unfold emit at 1.
  match goal with
  | |- context [bind ?m ?k ?w0] =>
      assert (Hf : frame is_check_event (bind m k))
  end.
  { apply frame_bind; [apply frame_os_walk | intros roots].
    apply frame_bind; [apply frame_getmtime_roots | intros times].
    apply frame_bind; [apply frame_lift | intros T].
    apply frame_bind; [apply frame_os_walk | intros items].
    apply frame_scan_walk. }
  match goal with
  | |- context [bind ?m ?k ?w0] => destruct (Hf w0) as (_ & _ & evs & Htr & _)
  end.
  exists evs. rewrite Htr. simpl. now rewrite <- app_assoc.
Qed.

End Construction.

(** ** Sessions *)

Section Sessions.
Context `{Collaborators}.

Lemma session_distinct self d e l log w : session self d e l log w -> self <> l.
Proof. intros (attrs & Hs & _ & _ & _ & Hl) ->. rewrite Hs in Hl. discriminate. Qed.

Lemma session_observed self d e l log w :
  session self d e l log w ->
  attr_of self "_load_duration" w = Some (VFloat d) /\
  session_engine self w = Some e /\
  query_log self w = Some log.
Proof.
  intros (attrs & Hs & Hd & He & Hl & Hlog).
  unfold query_log, session_engine, attr_of. now rewrite Hs, Hd, He, Hl, Hlog.
Qed.

Lemma query_run_ok self d e l log w msg r fs' ext' :
  session self d e l log w ->
  engine_query e msg (w_fs w) (w_ext w) = (Ok r, fs', ext') ->
  query self msg w =
  (Ok r,
   World fs' ext' (S (S (w_ticks w)))
     (<[l := PyList (log ++ [round1 (py_sub (perf_counter_at (S (w_ticks w)))
                                            (perf_counter_at (w_ticks w)))])]> (w_heap w))
     (w_trace w ++ [EvPerfCounter (w_ticks w);
                    EvLog (LogProcessing msg); EvEngineQuery e msg;
                    EvPerfCounter (S (w_ticks w));
                    EvLog (LogCompleted (round1 (py_sub (perf_counter_at (S (w_ticks w)))
                                                        (perf_counter_at (w_ticks w)))))])).
Proof.
  intros (attrs & Hs & Hd & He & Hl & Hlog) Heng.
  destruct w as [fs ext ticks heap trace].
  cbn [w_fs w_ext w_ticks w_heap w_trace] in *.
  unfold query, bind, perf_counter, logging_info, emit, getattr, call, list_append,
    set_heap, ret.
  cbn [w_fs w_ext w_ticks w_heap w_trace].
  rewrite Hs, He. cbn [w_fs w_ext w_ticks w_heap w_trace].
  rewrite Heng. cbn [w_fs w_ext w_ticks w_heap w_trace].
  rewrite Hs, Hl. cbn [w_fs w_ext w_ticks w_heap w_trace].
  rewrite Hlog. cbn [w_fs w_ext w_ticks w_heap w_trace].
  now rewrite <- !app_assoc.
Qed.

Lemma query_run_raise self d e l log w msg err fs' ext' :
  session self d e l log w ->
  engine_query e msg (w_fs w) (w_ext w) = (Raise err, fs', ext') ->
  query self msg w =
  (Raise err,
   World fs' ext' (S (w_ticks w)) (w_heap w)
     (w_trace w ++ [EvPerfCounter (w_ticks w);
                    EvLog (LogProcessing msg); EvEngineQuery e msg])).
Proof.
  intros (attrs & Hs & Hd & He & Hl & Hlog) Heng.
  destruct w as [fs ext ticks heap trace].
  cbn [w_fs w_ext w_ticks w_heap w_trace] in *.
  unfold query, bind, perf_counter, logging_info, emit, getattr, call.
  cbn [w_fs w_ext w_ticks w_heap w_trace].
  rewrite Hs, He. cbn [w_fs w_ext w_ticks w_heap w_trace].
  rewrite Heng.
  now rewrite <- !app_assoc.
Qed.

Lemma session_append self d e l log w q fs' ext' ticks' trace' :
  session self d e l log w ->
  session self d e l (log ++ [q])
    (World fs' ext' ticks' (<[l := PyList (log ++ [q])]> (w_heap w)) trace').
Proof.
  intros Hses. pose proof (session_distinct _ _ _ _ _ _ Hses) as Hne.
  destruct Hses as (attrs & Hs & Hd & He & Hl & Hlog).
  exists attrs. cbn [w_heap]. repeat split; try assumption.
  - now rewrite list_lookup_insert_ne by congruence.
  - apply list_lookup_insert_eq. now apply lookup_lt_Some in Hlog.
Qed.

Lemma session_same_heap self d e l log w fs' ext' ticks' trace' :
  session self d e l log w ->
  session self d e l log (World fs' ext' ticks' (w_heap w) trace').
Proof. intros (attrs & Hses). now exists attrs. Qed.

Lemma session_alloc self d e l log w o fs' ext' ticks' trace' :
  session self d e l log w ->
  session self d e l log (World fs' ext' ticks' (w_heap w ++ [o]) trace').
Proof.
  intros (attrs & Hs & Hd & He & Hl & Hlog).
  exists attrs. cbn [w_heap]. repeat split; try assumption.
  - rewrite lookup_app_l; [assumption | now apply lookup_lt_Some in Hs].
  - rewrite lookup_app_l; [assumption | now apply lookup_lt_Some in Hlog].
Qed.

Lemma get_load_duration_run self d e l log w :
  session self d e l log w ->
  get_load_duration self w = (Ok (VFloat d), w).
Proof.
  intros (attrs & Hs & Hd & _). unfold get_load_duration, getattr. now rewrite Hs, Hd.
Qed.

Lemma get_query_durations_run self d e l log w :
  session self d e l log w ->
  get_query_durations self w =
  (Ok (length (w_heap w)),
   World (w_fs w) (w_ext w) (w_ticks w) (w_heap w ++ [PyTuple log]) (w_trace w)).
Proof.
  intros (attrs & Hs & _ & _ & Hl & Hlog).
  unfold get_query_durations, bind, getattr, py_tuple, alloc.
  rewrite Hs, Hl. now rewrite Hlog.
Qed.

(** *** Tuples are never changed *)

Lemma tuples_kept_refl h : tuples_kept h h.
Proof. now intros t xs. Qed.

Lemma tuples_kept_trans h1 h2 h3 :
  tuples_kept h1 h2 -> tuples_kept h2 h3 -> tuples_kept h1 h3.
Proof. intros H12 H23 t xs Ht. now apply H23, H12. Qed.

Lemma keeps_tuples_bind {A B} (m : M A) (k : A -> M B) :
  keeps_tuples m -> (forall a, keeps_tuples (k a)) -> keeps_tuples (bind m k).
Proof.
  intros Hm Hk w. unfold bind. specialize (Hm w).
  destruct (m w) as [[a | e] w1]; simpl in Hm; [| exact Hm].
  eapply tuples_kept_trans; [exact Hm | apply Hk].
Qed.

Lemma keeps_tuples_frame {A} P (m : M A) : frame P m -> keeps_tuples m.
Proof. intros Hf w. destruct (Hf w) as (-> & _). apply tuples_kept_refl. Qed.

Lemma keeps_tuples_ret {A} (a : A) : keeps_tuples (ret a).
Proof. intros w. apply tuples_kept_refl. Qed.

Lemma keeps_tuples_raise {A} e : keeps_tuples (raise (A := A) e).
Proof. intros w. apply tuples_kept_refl. Qed.

Lemma keeps_tuples_perf_counter : keeps_tuples perf_counter.
Proof. intros w. apply tuples_kept_refl. Qed.

Lemma keeps_tuples_getattr self a : keeps_tuples (getattr self a).
Proof.
  intros w. unfold getattr.
  destruct (w_heap w !! self) as [[xs | xs | attrs] |]; try apply tuples_kept_refl.
  destruct (attrs !! a); apply tuples_kept_refl.
Qed.

Lemma tuples_kept_insert_list h l xs ys :
  h !! l = Some (PyList xs) -> tuples_kept h (<[l := PyList ys]> h).
Proof.
  intros Hl t zs Ht.
  rewrite list_lookup_insert_ne; [assumption | intros ->; congruence].
Qed.

Lemma tuples_kept_alloc h o : tuples_kept h (h ++ [o]).
Proof.
  intros t xs Ht. rewrite lookup_app_l; [assumption | now apply lookup_lt_Some in Ht].
Qed.

Lemma keeps_tuples_list_append l q : keeps_tuples (list_append l q).
Proof.
  intros w. unfold list_append.
  destruct (w_heap w !! l) as [[xs | xs | attrs] |] eqn:Hl; try apply tuples_kept_refl.
  simpl. eapply tuples_kept_insert_list; eassumption.
Qed.

Lemma keeps_tuples_list_setitem l i q : keeps_tuples (list_setitem l i q).
Proof.
  intros w. unfold list_setitem.
  destruct (w_heap w !! l) as [[xs | xs | attrs] |] eqn:Hl; try apply tuples_kept_refl.
  case_bool_decide; [| apply tuples_kept_refl].
  simpl. eapply tuples_kept_insert_list; eassumption.
Qed.

Lemma keeps_tuples_py_tuple l : keeps_tuples (py_tuple l).
Proof.
  intros w. unfold py_tuple.
  destruct (w_heap w !! l) as [[xs | xs | attrs] |]; try apply tuples_kept_refl.
  simpl. apply tuples_kept_alloc.
Qed.

Lemma keeps_tuples_query self msg : keeps_tuples (query self msg).
Proof.
  unfold query.
  apply keeps_tuples_bind; [apply keeps_tuples_perf_counter | intros t0].
  apply keeps_tuples_bind;
    [apply (keeps_tuples_frame (fun _ => True)); now apply frame_emit | intros _].
  apply keeps_tuples_bind; [apply keeps_tuples_getattr | intros engine].
  apply keeps_tuples_bind.
  { destruct engine as [q | l | e]; try apply keeps_tuples_raise.
    apply keeps_tuples_bind;
      [apply (keeps_tuples_frame (fun _ => True)); now apply frame_emit | intros _].
    apply (keeps_tuples_frame (fun _ => True)), frame_call. }
  intros response.
  apply keeps_tuples_bind; [apply keeps_tuples_perf_counter | intros t1].
  apply keeps_tuples_bind; [apply keeps_tuples_getattr | intros durations].
  apply keeps_tuples_bind.
  { destruct durations as [q | l | e];
      [apply keeps_tuples_raise | apply keeps_tuples_list_append | apply keeps_tuples_raise]. }
  intros _.
  apply keeps_tuples_bind;
    [apply (keeps_tuples_frame (fun _ => True)); now apply frame_emit | intros _].
  apply keeps_tuples_ret.
Qed.

Lemma keeps_tuples_run_client self op : keeps_tuples (run_client self op).
Proof.
  destruct op as [[msg | |] | l q | l i q]; simpl.
  - apply keeps_tuples_bind; [apply keeps_tuples_query | intros r; apply keeps_tuples_ret].
  - apply keeps_tuples_bind; [apply keeps_tuples_getattr | intros r; apply keeps_tuples_ret].
  - apply keeps_tuples_bind; [| intros r; apply keeps_tuples_ret].
    apply keeps_tuples_bind; [apply keeps_tuples_getattr | intros [q | l | e]];
      [apply keeps_tuples_raise | apply keeps_tuples_py_tuple | apply keeps_tuples_raise].
  - apply keeps_tuples_bind; [apply keeps_tuples_list_append | intros r; apply keeps_tuples_ret].
  - apply keeps_tuples_bind; [apply keeps_tuples_list_setitem | intros r; apply keeps_tuples_ret].
Qed.

Lemma run_client_session_keeps_tuples self cops : forall w,
  tuples_kept (w_heap w) (w_heap (snd (run_session (run_client self) cops w))).
Proof.
  induction cops as [| op cops IH]; intros w; simpl.
  - apply tuples_kept_refl.
  - pose proof (keeps_tuples_run_client self op w) as Hop.
    destruct (run_client self op w) as [r w1]. simpl in Hop.
    specialize (IH w1).
    destruct (run_session (run_client self) cops w1) as [rs w2]. simpl in *.
    eapply tuples_kept_trans; eassumption.
Qed.

(** *** One operation, then many *)

Lemma completed_durations_app a b :
  completed_durations (a ++ b) = completed_durations a ++ completed_durations b.
Proof. apply flat_map_app. Qed.

Lemma attr_writes_app self a x y :
  attr_writes self a (x ++ y) = (attr_writes self a x + attr_writes self a y)%nat.
Proof. unfold attr_writes. now rewrite List.filter_app, length_app. Qed.

Lemma attr_writes_check self a evs :
  Forall is_check_event evs -> attr_writes self a evs = 0%nat.
Proof.
  unfold attr_writes. induction 1 as [| e evs He _ IH]; [reflexivity |].
  simpl. now destruct e.
Qed.

Lemma run_session_app {O} (step : O -> M retval) a b w :
  run_session step (a ++ b) w =
  (fst (run_session step a w) ++ fst (run_session step b (snd (run_session step a w))),
   snd (run_session step b (snd (run_session step a w)))).
Proof.
  revert w. induction a as [| op a IH]; intros w; simpl.
  - now destruct (run_session step b w).
  - destruct (step op w) as [r w1]. rewrite IH.
    destruct (run_session step a w1) as [ra wa]. simpl.
    now destruct (run_session step b wa).
Qed.

Lemma run_api_step self d e l log w op r w' :
  session self d e l log w ->
  run_api self op w = (r, w') ->
  exists tr,
    w_trace w' = w_trace w ++ tr /\
    session self d e l (log ++ completed_durations tr) w' /\
    length (completed_durations tr) = successful_queries [op] [r] /\
    (monotone_clock -> Forall (Qle 0) (completed_durations tr)) /\
    (forall a, attr_writes self a tr = 0%nat) /\
    (op = OpGetLoadDuration -> r = Ok (RValue (VFloat d))).
Proof.
  intros Hses Hrun. destruct op as [msg | |]; simpl in Hrun; unfold bind in Hrun.
  - destruct (engine_query e msg (w_fs w) (w_ext w)) as [[[resp | err] fs'] ext'] eqn:Heng.
    + rewrite (query_run_ok _ _ _ _ _ _ _ _ _ _ Hses Heng) in Hrun.
      unfold ret in Hrun. injection Hrun as <- <-.
      eexists. cbn [w_trace]. split; [reflexivity |].
      simpl. repeat split; try discriminate.
      * now apply session_append.
      * intros Hmono. constructor; [| constructor].
        apply round1_nonneg, py_sub_nonneg.
        exact (Hmono (w_ticks w) (S (w_ticks w)) (Nat.le_succ_diag_r _)).
    + rewrite (query_run_raise _ _ _ _ _ _ _ _ _ _ Hses Heng) in Hrun.
      injection Hrun as <- <-.
      eexists. cbn [w_trace]. split; [reflexivity |].
      simpl. rewrite app_nil_r. repeat split; try discriminate.
      * now apply session_same_heap.
      * intros _. constructor.
  - rewrite (get_load_duration_run _ _ _ _ _ _ Hses) in Hrun.
    unfold ret in Hrun. injection Hrun as <- <-.
    exists []. simpl. rewrite !app_nil_r. repeat split; try assumption.
    intros _. constructor.
  - rewrite (get_query_durations_run _ _ _ _ _ _ Hses) in Hrun.
    unfold ret in Hrun. injection Hrun as <- <-.
    exists []. simpl. rewrite !app_nil_r. repeat split; try discriminate.
    + now apply session_alloc.
    + intros _. constructor.
Qed.

Lemma run_api_steps self d e l ops : forall log w outs w',
  session self d e l log w ->
  run_session (run_api self) ops w = (outs, w') ->
  exists tr,
    w_trace w' = w_trace w ++ tr /\
    session self d e l (log ++ completed_durations tr) w' /\
    length (completed_durations tr) = successful_queries ops outs /\
    (monotone_clock -> Forall (Qle 0) (completed_durations tr)) /\
    (forall a, attr_writes self a tr = 0%nat) /\
    (forall i, ops !! i = Some OpGetLoadDuration ->
               outs !! i = Some (Ok (RValue (VFloat d)))).
Proof.
  induction ops as [| op ops IH]; intros log w outs w' Hses Hrun; simpl in Hrun.
  - injection Hrun as <- <-. exists []. simpl. rewrite !app_nil_r.
    repeat split; try assumption; [intros _; constructor | intros i; discriminate].
  - destruct (run_api self op w) as [r w1] eqn:Hop.
    destruct (run_session (run_api self) ops w1) as [rs w2] eqn:Hrest.
    injection Hrun as <- <-.
    destruct (run_api_step _ _ _ _ _ _ _ _ _ Hses Hop)
      as (tr1 & Htr1 & Hses1 & Hlen1 & Hpos1 & Hattr1 & Hget1).
    destruct (IH _ _ _ _ Hses1 Hrest)
      as (tr2 & Htr2 & Hses2 & Hlen2 & Hpos2 & Hattr2 & Hget2).
    exists (tr1 ++ tr2).
    rewrite completed_durations_app, length_app.
    split; [now rewrite Htr2, Htr1, app_assoc |].
    split; [now rewrite (app_assoc log) |].
    split.
    { rewrite Hlen1, Hlen2. simpl. destruct op, r; reflexivity. }
    split; [intros Hm; apply Forall_app; auto |].
    split; [intros a; now rewrite attr_writes_app, Hattr1, Hattr2 |].
    intros [| i]; simpl.
    + intros [= ->]. now rewrite Hget1.
    + apply Hget2.
Qed.

(** The state of an instance after its construction and any number of
    calls of its methods. *)
Lemma session_reached pdir ddir model timeout w0 self w1 ops outs w :
  DataLama pdir ddir model timeout w0 = (Ok self, w1) ->
  run_session (run_api self) ops w1 = (outs, w) ->
  exists e l tr,
    session self (py_sub (perf_counter_at (S (w_ticks w0))) (perf_counter_at (w_ticks w0)))
      e l (completed_durations tr) w /\
    session self (py_sub (perf_counter_at (S (w_ticks w0))) (perf_counter_at (w_ticks w0)))
      e l [] w1 /\
    w_trace w = w_trace w1 ++ tr /\
    length (completed_durations tr) = successful_queries ops outs /\
    (monotone_clock -> Forall (Qle 0) (completed_durations tr)) /\
    (forall a, attr_writes self a tr = 0%nat) /\
    (forall i, ops !! i = Some OpGetLoadDuration ->
               outs !! i =
               Some (Ok (RValue (VFloat (py_sub (perf_counter_at (S (w_ticks w0)))
                                                (perf_counter_at (w_ticks w0))))))).
Proof.
  intros Hnew Hrun.
  apply DataLama_inv in Hnew
    as (-> & start & wa & stale & wb & index & wc & engine
        & H1 & H2 & H3 & _ & _ & _ & Hses).
  assert (Hd : py_sub (perf_counter_at (w_ticks wc)) start =
               py_sub (perf_counter_at (S (w_ticks w0))) (perf_counter_at (w_ticks w0))).
  { apply init_backends_inv in H1 as (-> & Ht1 & _).
    pose proof (frame_index_is_stale (length (w_heap w0)) pdir ddir wa) as (_ & Ht2 & _).
    rewrite H2 in Ht2. simpl in Ht2.
    assert (Ht3 : w_ticks wc = w_ticks wb).
    { destruct stale; [now apply rebuild_index_inv in H3 | now apply reload_index_inv in H3]. }
    rewrite Ht3, Ht2, Ht1. reflexivity. }
  rewrite Hd in Hses.
  destruct (run_api_steps _ _ _ _ _ _ _ _ _ Hses Hrun)
    as (tr & Htr & Hses' & Hlen & Hpos & Hattr & Hget).
  exists engine, (S (length (w_heap w0))), tr. repeat split; assumption.
Qed.

(** C5.  In a session, when the engine returns an answer for a non-empty
    question, [query] returns that very answer, and the list of durations
    is the former list with one more entry [q] at its end.  The clock is
    read once before the question is passed to the engine and once after
    the engine has returned: the trace has the two readings on either side
    of the engine call, and the file system and the collaborator state
    after [query] are those the engine call left.  The entry is
    [round(end - start, 1)] of these two readings: the float difference
    [d] is the exact difference rounded to a double, so it is the exact
    difference up to the rounding of its last bit; [d] is rounded to the
    number of tenths [k/10] nearest to it, which is the one with [k] even
    when [d] lies halfway between two of them; and [q] is that decimal
    rounded to a double, for a float is not a decimal. *)
Theorem query_returns_engine_answer (persistent_dir path_to_data : path)
    (model_name : string) (request_timeout : Q) (w0 : world) (self : loc) (w1 : world)
    (ops : list api_op) (outs : list (result retval)) (w : world)
    (msg : string) (e : QueryEngine) (r : Response) (fs' : node) (ext' : ExtState) :
  DataLama persistent_dir path_to_data model_name request_timeout w0 = (Ok self, w1) ->
  run_session (run_api self) ops w1 = (outs, w) ->
  msg <> "" ->
  session_engine self w = Some e ->
  engine_query e msg (w_fs w) (w_ext w) = (Ok r, fs', ext') ->
  exists log w' d q,
    query_log self w = Some log /\
    query self msg w = (Ok r, w') /\
    query_log self w' = Some (log ++ [q]) /\
    w_fs w' = fs' /\ w_ext w' = ext' /\
    w_trace w' =
    w_trace w ++ [EvPerfCounter (w_ticks w);
                  EvLog (LogProcessing msg);
                  EvEngineQuery e msg;
                  EvPerfCounter (S (w_ticks w));
                  EvLog (LogCompleted q)] /\
    d = py_sub (perf_counter_at (S (w_ticks w))) (perf_counter_at (w_ticks w)) /\
    q = round1 d /\
    rounds_to (perf_counter_at (S (w_ticks w)) - perf_counter_at (w_ticks w)) d /\
    (Qabs (d - (perf_counter_at (S (w_ticks w)) - perf_counter_at (w_ticks w)))
     <= Qabs (perf_counter_at (S (w_ticks w)) - perf_counter_at (w_ticks w)) * 2 ^ (-53)
        + 2 ^ (-1075))%Q /\
    exists k : Z,
      (Qabs ((k # 10) - d) <= 1 # 20)%Q /\
      ((Qabs ((k # 10) - d) == 1 # 20)%Q -> Z.even k = true) /\
      rounds_to (k # 10) q /\
      (Qabs (q - (k # 10)) <= Qabs (k # 10) * 2 ^ (-53))%Q.
Proof.
  intros Hnew Hrun _ He Heng.
  destruct (session_reached _ _ _ _ _ _ _ _ _ _ Hnew Hrun)
    as (e0 & l & tr & Hses & _).
  destruct (session_observed _ _ _ _ _ _ Hses) as (_ & He0 & Hlog).
  rewrite He in He0. injection He0 as <-.
  eexists _, _, _, _. split; [exact Hlog |].
  split; [exact (query_run_ok _ _ _ _ _ _ _ _ _ _ Hses Heng) |].
  split.
  { eapply (session_append _ _ _ _ _ _ _ fs' ext' _ _) in Hses.
    apply session_observed in Hses as (_ & _ & Hlog'). exact Hlog'. }
  cbn [w_fs w_ext w_trace].
  do 5 (split; [reflexivity |]).
  split; [apply py_sub_rounds_to |].
  split; [apply py_sub_close |].
  apply round1_spec.
Qed.

(** C9.  In a session, when the engine raises for a question, [query]
    raises the same exception, the heap is as before, and so is the list
    of durations. *)
Theorem failed_query_appends_nothing (persistent_dir path_to_data : path)
    (model_name : string) (request_timeout : Q) (w0 : world) (self : loc) (w1 : world)
    (ops : list api_op) (outs : list (result retval)) (w : world)
    (msg : string) (e : QueryEngine) (err : exn) (fs' : node) (ext' : ExtState) :
  DataLama persistent_dir path_to_data model_name request_timeout w0 = (Ok self, w1) ->
  run_session (run_api self) ops w1 = (outs, w) ->
  session_engine self w = Some e ->
  engine_query e msg (w_fs w) (w_ext w) = (Raise err, fs', ext') ->
  exists log w',
    query_log self w = Some log /\
    query self msg w = (Raise err, w') /\
    w_heap w' = w_heap w /\
    query_log self w' = Some log.
Proof.
  intros Hnew Hrun He Heng.
  destruct (session_reached _ _ _ _ _ _ _ _ _ _ Hnew Hrun)
    as (e0 & l & tr & Hses & _).
  destruct (session_observed _ _ _ _ _ _ Hses) as (_ & He0 & Hlog).
  rewrite He in He0. injection He0 as <-.
  eexists _, _. split; [exact Hlog |].
  split; [exact (query_run_raise _ _ _ _ _ _ _ _ _ _ Hses Heng) |].
  split; [reflexivity |].
  eapply (session_same_heap _ _ _ _ _ _ fs' ext' _ _) in Hses.
  apply session_observed in Hses as (_ & _ & Hlog'). exact Hlog'.
Qed.

(** C4 (as amended).  [query] does not look at the question: in a
    session the empty question is passed to the engine, and [query]
    returns or raises exactly what the engine returns or raises for it. *)
Theorem empty_question_is_forwarded (persistent_dir path_to_data : path)
    (model_name : string) (request_timeout : Q) (w0 : world) (self : loc) (w1 : world)
    (ops : list api_op) (outs : list (result retval)) (w : world) (e : QueryEngine) :
  DataLama persistent_dir path_to_data model_name request_timeout w0 = (Ok self, w1) ->
  run_session (run_api self) ops w1 = (outs, w) ->
  session_engine self w = Some e ->
  fst (query self "" w) = fst (fst (engine_query e "" (w_fs w) (w_ext w))) /\
  exists tr,
    w_trace (snd (query self "" w)) = w_trace w ++ tr /\
    In (EvEngineQuery e "") tr.
Proof.
  intros Hnew Hrun He.
  destruct (session_reached _ _ _ _ _ _ _ _ _ _ Hnew Hrun)
    as (e0 & l & tr & Hses & _).
  destruct (session_observed _ _ _ _ _ _ Hses) as (_ & He0 & _).
  rewrite He in He0. injection He0 as <-.
  destruct (engine_query e "" (w_fs w) (w_ext w)) as [[[resp | err] fs'] ext'] eqn:Heng.
  - rewrite (query_run_ok _ _ _ _ _ _ _ _ _ _ Hses Heng). simpl.
    split; [reflexivity |]. eexists. split; [reflexivity |]. simpl. auto.
  - rewrite (query_run_raise _ _ _ _ _ _ _ _ _ _ Hses Heng). simpl.
    split; [reflexivity |]. eexists. split; [reflexivity |]. simpl. auto.
Qed.

(** C6.  In a session, after any calls of the methods, the list of
    durations has one entry for each call of [query] that returned and
    none for the others; its entries are the durations logged at the end
    of those calls, in the order of the trace, which is the order of the
    calls; with a clock that never goes back none of them is negative;
    and the list at any earlier moment of the session is a prefix of the
    list at the end, so that nothing is ever removed or changed. *)
Theorem query_log_grows (persistent_dir path_to_data : path)
    (model_name : string) (request_timeout : Q) (w0 : world) (self : loc) (w1 : world)
    (ops : list api_op) (outs : list (result retval)) (w : world) :
  monotone_clock ->
  DataLama persistent_dir path_to_data model_name request_timeout w0 = (Ok self, w1) ->
  run_session (run_api self) ops w1 = (outs, w) ->
  exists log tr,
    query_log self w = Some log /\
    w_trace w = w_trace w1 ++ tr /\
    log = completed_durations tr /\
    length log = successful_queries ops outs /\
    Forall (Qle 0) log /\
    (forall ops1 ops2, ops = ops1 ++ ops2 ->
       exists log1 rest,
         query_log self (snd (run_session (run_api self) ops1 w1)) = Some log1 /\
         log = log1 ++ rest).
Proof.
  intros Hmono Hnew Hrun.
  destruct (session_reached _ _ _ _ _ _ _ _ _ _ Hnew Hrun)
    as (e & l & tr & Hses & Hses1 & Htr & Hlen & Hpos & _).
  destruct (session_observed _ _ _ _ _ _ Hses) as (_ & _ & Hlog).
  exists (completed_durations tr), tr.
  repeat split; auto.
  intros ops1 ops2 ->.
  rewrite run_session_app in Hrun.
  destruct (run_session (run_api self) ops1 w1) as [outs1 wm] eqn:Hrun1.
  cbn [fst snd] in Hrun |- *.
  destruct (run_session (run_api self) ops2 wm) as [outs2 w2] eqn:Hrun2.
  cbn [fst snd] in Hrun. injection Hrun as <- <-.
  destruct (run_api_steps _ _ _ _ _ _ _ _ _ Hses1 Hrun1) as (tr1 & _ & Hsesm & _).
  destruct (run_api_steps _ _ _ _ _ _ _ _ _ Hsesm Hrun2) as (tr2 & _ & Hses2 & _).
  apply session_observed in Hsesm as (_ & _ & Hlogm).
  apply session_observed in Hses2 as (_ & _ & Hlog2).
  rewrite Hlog in Hlog2. injection Hlog2 as ->.
  now exists (completed_durations tr1), (completed_durations tr2).
Qed.

(** C7.  From the start of a construction that succeeds to the end of any
    calls of the methods, [self._load_duration] is assigned once; its
    value is the time between the two clock readings of [__init__];
    [get_load_duration] returns that value right after the construction,
    at each of the calls in between, and at the end. *)
Theorem load_duration_set_once (persistent_dir path_to_data : path)
    (model_name : string) (request_timeout : Q) (w0 : world) (self : loc) (w1 : world)
    (ops : list api_op) (outs : list (result retval)) (w : world) :
  DataLama persistent_dir path_to_data model_name request_timeout w0 = (Ok self, w1) ->
  run_session (run_api self) ops w1 = (outs, w) ->
  exists d tr,
    d = py_sub (perf_counter_at (S (w_ticks w0))) (perf_counter_at (w_ticks w0)) /\
    w_trace w = w_trace w0 ++ tr /\
    attr_writes self "_load_duration" tr = 1%nat /\
    get_load_duration self w1 = (Ok (VFloat d), w1) /\
    get_load_duration self w = (Ok (VFloat d), w) /\
    (forall i, ops !! i = Some OpGetLoadDuration ->
               outs !! i = Some (Ok (RValue (VFloat d)))).
Proof.
  intros Hnew Hrun.
  destruct (session_reached _ _ _ _ _ _ _ _ _ _ Hnew Hrun)
    as (e & l & tr & Hses & Hses1 & Htr & _ & _ & Hattr & Hget).
  apply DataLama_inv in Hnew
    as (-> & start & wa & stale & wb & index & wc & engine
        & H1 & H2 & H3 & Htr1 & _).
  set (self := length (w_heap w0)) in *.
  apply init_backends_inv in H1 as (_ & _ & _ & Htra). simpl in Htra.
  destruct (frame_index_is_stale self persistent_dir path_to_data wa)
    as (_ & _ & evc & Htrb & Hcheck).
  rewrite H2 in Htrb. simpl in Htrb.
  assert (Htrc : exists mid, w_trace wc = w_trace wb ++ mid /\
                             attr_writes self "_load_duration" mid = 0%nat).
  { destruct stale.
    - apply rebuild_index_inv in H3 as (_ & _ & docs & ->). eauto.
    - apply reload_index_inv in H3 as (_ & _ & ->). eauto. }
  destruct Htrc as (mid & Htrc & Hmid).
  eexists _, _. split; [reflexivity |].
  split.
  { rewrite Htr, Htr1, Htrc, Htrb, Htra. rewrite <- !app_assoc. reflexivity. }
  split.
  { rewrite !attr_writes_app, (attr_writes_check _ _ _ Hcheck), Hmid, Hattr.
    unfold attr_writes. simpl. now rewrite Nat.eqb_refl. }
  split; [exact (get_load_duration_run _ _ _ _ _ _ Hses1) |].
  split; [exact (get_load_duration_run _ _ _ _ _ _ Hses) |].
  exact Hget.
Qed.

(** C8.  In a session [get_query_durations] returns a new tuple object
    whose items are those of the list of durations at that moment, in the
    same order.  Whatever is done afterwards - calls of the methods,
    among them [query], or attempts to append to or to assign into any
    object, the tuple itself included - the tuple still has these items;
    appending to the tuple raises [AttributeError] and assigning into it
    raises [TypeError]. *)
Theorem snapshot_is_immutable (persistent_dir path_to_data : path)
    (model_name : string) (request_timeout : Q) (w0 : world) (self : loc) (w1 : world)
    (ops : list api_op) (outs : list (result retval)) (w : world) :
  DataLama persistent_dir path_to_data model_name request_timeout w0 = (Ok self, w1) ->
  run_session (run_api self) ops w1 = (outs, w) ->
  exists log t ws,
    query_log self w = Some log /\
    get_query_durations self w = (Ok t, ws) /\
    w_heap w !! t = None /\
    w_heap ws !! t = Some (PyTuple log) /\
    (forall cops,
       w_heap (snd (run_session (run_client self) cops ws)) !! t = Some (PyTuple log)) /\
    (forall w2 q i,
       w_heap w2 !! t = Some (PyTuple log) ->
       list_append t q w2 = (Raise AttributeError, w2) /\
       list_setitem t i q w2 = (Raise TypeError, w2)).
Proof.
  intros Hnew Hrun.
  destruct (session_reached _ _ _ _ _ _ _ _ _ _ Hnew Hrun)
    as (e & l & tr & Hses & _).
  destruct (session_observed _ _ _ _ _ _ Hses) as (_ & _ & Hlog).
  eexists _, _, _. split; [exact Hlog |].
  split; [exact (get_query_durations_run _ _ _ _ _ _ Hses) |].
  assert (Hnew_tuple :
            (w_heap w ++ [PyTuple (completed_durations tr)]) !! length (w_heap w) =
            Some (PyTuple (completed_durations tr))).
  { rewrite lookup_app_r by lia. now rewrite Nat.sub_diag. }
  split; [apply lookup_ge_None; lia |].
  split; [exact Hnew_tuple |].
  split.
  - intros cops. apply run_client_session_keeps_tuples. exact Hnew_tuple.
  - intros w2 q i Ht. unfold list_append, list_setitem. now rewrite Ht.
Qed.

End Sessions.

(** ** More on the staleness check *)

Section CheckObserves.
Context `{Collaborators}.

Lemma observes_ret {A} P (a : A) : observes P (ret a).
Proof.
  intros w. split; [| reflexivity].
  exists []. split; [now rewrite add_trace_nil | constructor].
Qed.

Lemma observes_lift {A} P (r : result A) : observes P (lift_result r).
Proof.
  intros w. split; [| reflexivity].
  exists []. split; [now rewrite add_trace_nil | constructor].
Qed.

Lemma observes_emit (P : event -> Prop) e : P e -> observes P (emit e).
Proof.
  intros He w. split; [| reflexivity].
  exists [e]. split; [reflexivity | now constructor].
Qed.

Lemma observes_os_walk P top : observes P (os_walk top).
Proof.
  intros w. split.
  - exists []. split; [now rewrite add_trace_nil | constructor].
  - intros w' Hfs. unfold os_walk. simpl. now rewrite Hfs.
Qed.

Lemma observes_bind {A B} P (m : M A) (k : A -> M B) :
  observes P m -> (forall a, observes P (k a)) -> observes P (bind m k).
Proof.
  intros Hm Hk w. destruct (Hm w) as [(evs & Hw & Hall) Hres]. split.
  - unfold bind. destruct (m w) as [[a | e] w1]; simpl in Hw; subst w1.
    + destruct (Hk a (add_trace w evs)) as [(evs' & Hw' & Hall') _].
      exists (evs ++ evs'). split; [| now apply Forall_app].
      now rewrite Hw', add_trace_app.
    + now exists evs.
  - intros w' Hfs. unfold bind.
    specialize (Hres w' Hfs).
    destruct (Hm w') as [(evs1 & Hw1 & _) _].
    destruct (m w) as [[a | e] w1], (m w') as [[a' | e'] w1'];
      simpl in *; try discriminate; subst w1 w1'.
    + injection Hres as ->.
      destruct (Hk a (add_trace w evs)) as [_ Hk'].
      apply Hk'. simpl. exact Hfs.
    + now injection Hres as ->.
Qed.

Lemma observes_if {A} P (b : bool) (m1 m2 : M A) :
  observes P m1 -> observes P m2 -> observes P (if b then m1 else m2).
Proof. now destruct b. Qed.

Lemma observes_getmtime p : observes is_check_event (getmtime p).
Proof.
  unfold getmtime, os_stat.
  apply observes_bind; [| intros; apply observes_ret].
  apply observes_bind; [now apply observes_emit | intros _].
  intros w. split.
  - exists []. rewrite add_trace_nil. split; [| constructor].
    now destruct (resolve (w_fs w) p).
  - intros w' Hfs. rewrite Hfs. now destruct (resolve (w_fs w) p).
Qed.

Lemma observes_getmtime_roots items : observes is_check_event (getmtime_roots items).
Proof.
  induction items as [| [[root dirs] files] items IH]; simpl.
  - apply observes_ret.
  - apply observes_bind; [apply observes_getmtime | intros t].
    apply observes_bind; [apply IH | intros ts]. apply observes_ret.
Qed.

Lemma observes_scan_files root files T : observes is_check_event (scan_files root files T).
Proof.
  induction files as [| f files IH]; simpl.
  - apply observes_ret.
  - apply observes_bind; [apply observes_getmtime | intros t].
    apply observes_if; [| apply IH].
    apply observes_bind; [now apply observes_emit | intros _; apply observes_ret].
Qed.

Lemma observes_scan_walk items T : observes is_check_event (scan_walk items T).
Proof.
  induction items as [| [[root dirs] files] items IH]; simpl.
  - apply observes_ret.
  - apply observes_bind; [apply observes_scan_files | intros b].
    apply observes_if; [apply observes_ret | apply IH].
Qed.

Lemma observes_needs_reindexing self pdir ddir :
  observes is_check_event (_needs_reindexing self pdir ddir).
Proof.
  unfold _needs_reindexing.
  apply observes_bind; [now apply observes_emit | intros _].
  apply observes_bind; [apply observes_os_walk | intros roots].
  apply observes_bind; [apply observes_getmtime_roots | intros times].
  apply observes_bind; [apply observes_lift | intros T].
  apply observes_bind; [apply observes_os_walk | intros items].
  apply observes_scan_walk.
Qed.

(** X1.  Whatever [_needs_reindexing] returns or raises, it leaves the
    file system, the state of the collaborators, the clock and the heap
    as they were; all it adds to the trace are [os.stat] calls and log
    messages (after the mark of its own entry): it calls no collaborator
    and assigns no attribute. *)
Theorem needs_reindexing_read_only (self : loc) (persistent_dir data_dir : path)
    (w : world) :
  exists evs,
    snd (_needs_reindexing self persistent_dir data_dir w) = add_trace w evs /\
    Forall is_check_event evs /\
    w_fs (snd (_needs_reindexing self persistent_dir data_dir w)) = w_fs w /\
    w_ext (snd (_needs_reindexing self persistent_dir data_dir w)) = w_ext w /\
    w_ticks (snd (_needs_reindexing self persistent_dir data_dir w)) = w_ticks w /\
    w_heap (snd (_needs_reindexing self persistent_dir data_dir w)) = w_heap w /\
    path_events evs = [] /\
    (forall a, attr_writes self a evs = 0%nat).
Proof.
  destruct (observes_needs_reindexing self persistent_dir data_dir w)
    as [(evs & Hw & Hall) _].
  exists evs. rewrite Hw. simpl. repeat split; try assumption.
  - now apply path_events_check.
  - intros a. now apply attr_writes_check.
Qed.

(** X2.  The answer of [_needs_reindexing] depends on the file system
    alone - not on the heap, the clock, the trace or the state of the
    collaborators - and asking again right away gives the same answer. *)
Theorem needs_reindexing_repeatable (self : loc) (persistent_dir data_dir : path)
    (w w' : world) :
  w_fs w' = w_fs w ->
  fst (_needs_reindexing self persistent_dir data_dir w') =
  fst (_needs_reindexing self persistent_dir data_dir w) /\
  fst (_needs_reindexing self persistent_dir data_dir
         (snd (_needs_reindexing self persistent_dir data_dir w))) =
  fst (_needs_reindexing self persistent_dir data_dir w).
Proof.
  intros Hfs.
  destruct (observes_needs_reindexing self persistent_dir data_dir w)
    as [(evs & Hw & _) Hres].
  split; [now apply Hres |].
  apply Hres. now rewrite Hw.
Qed.

End CheckObserves.

Section CheckResult.
Context `{Collaborators}.

Lemma os_walk_fs_untimed fs top :
  os_walk_fs fs top = map untimed (walk_timed_fs fs top).
Proof.
  unfold os_walk_fs, walk_timed_fs.
  destruct (resolve fs top); [apply walk_node_untimed | reflexivity..].
Qed.

Lemma walk_timed_fs_roots fs top :
  wf_node fs = true ->
  Forall (fun it : timed_item =>
            let '(root, _, m, _) := it in
            exists d, resolve fs root = Found d /\ node_mtime d = m)
         (walk_timed_fs fs top).
Proof.
  intros Hwf. unfold walk_timed_fs.
  destruct (resolve fs top) as [n | |] eqn:Hres; [| constructor..].
  apply walk_roots_resolve; [assumption |]. exact (wf_resolve _ _ _ Hwf Hres).
Qed.

Lemma walk_timed_fs_files fs top :
  wf_node fs = true ->
  Forall (fun f => resolve fs (fst f) = Found (File (snd f)))
         (timed_files (walk_timed_fs fs top)).
Proof.
  intros Hwf. unfold walk_timed_fs.
  destruct (resolve fs top) as [n | |] eqn:Hres; [| constructor..].
  apply walk_files_resolve; [assumption |]. exact (wf_resolve _ _ _ Hwf Hres).
Qed.

Lemma walk_timed_fs_nil fs top :
  walk_timed_fs fs top = [] <-> cannot_list fs top.
Proof.
  unfold walk_timed_fs, cannot_list. split.
  - intros Hnil m es Hres. rewrite Hres, walk_timed_dir in Hnil. discriminate.
  - intros Hno. destruct (resolve fs top) as [[t | m [|] es] | |]; try reflexivity.
    now destruct (Hno m es).
Qed.

(** What [_needs_reindexing] returns on a well-formed file system, as a
    function of the two timed walks. *)
Lemma needs_reindexing_result self pdir ddir w :
  wf_node (w_fs w) = true ->
  fst (_needs_reindexing self pdir ddir w) =
  match py_max (map (fun it : timed_item => snd (fst it)) (walk_timed_fs (w_fs w) pdir)) with
  | Ok T => Ok (snd (scan_outcome T (timed_files (walk_timed_fs (w_fs w) ddir))))
  | Raise e => Raise e
  end.
Proof.
  intros Hwf.
  destruct (py_max _) as [T | e] eqn:Hmax.
  - rewrite (needs_reindexing_run self pdir ddir w
               (walk_timed_fs (w_fs w) pdir) (walk_timed_fs (w_fs w) ddir) T);
      auto using os_walk_fs_untimed, walk_timed_fs_roots, walk_timed_fs_files.
  - destruct (walk_timed_fs (w_fs w) pdir) as [| it items] eqn:Hwalk; [| discriminate].
    injection Hmax as <-.
    unfold _needs_reindexing, bind, emit, os_walk. simpl.
    now rewrite os_walk_fs_untimed, Hwalk.
Qed.

(** X3.  When the cache path cannot be listed - it is missing, or a
    regular file, or a directory on which [scandir] fails -
    [_needs_reindexing] raises [ValueError] right after it was entered:
    [os.walk] yields no directory, so [max] is taken of no value at all,
    and nothing on the source side is looked at, whatever is there. *)
Theorem needs_reindexing_cache_not_listed (self : loc)
    (persistent_dir data_dir : path) (w : world) :
  cannot_list (w_fs w) persistent_dir ->
  _needs_reindexing self persistent_dir data_dir w =
  (Raise ValueError,
   add_trace w [EvEnter_needs_reindexing persistent_dir data_dir]).
Proof.
  intros Hno. apply walk_timed_fs_nil in Hno.
  unfold _needs_reindexing, bind, emit, os_walk. simpl.
  now rewrite os_walk_fs_untimed, Hno.
Qed.

Lemma retime_files_dir g m l es :
  retime_files g (Dir m l es) =
  Dir m l (map (fun e => (fst e, retime_files g (snd e))) es).
Proof.
  simpl. f_equal.
  induction es as [| [k c] es IH]; simpl; [reflexivity | now rewrite IH].
Qed.

Lemma retime_files_is_dir g n : is_dir (retime_files g n) = is_dir n.
Proof. now destruct n. Qed.

(** The directories of the walk and their [mtime]s do not depend on the
    [mtime]s of the regular files. *)
Lemma walk_timed_retime g n : forall top,
  map (fun it : timed_item => snd (fst it)) (walk_timed top (retime_files g n)) =
  map (fun it : timed_item => snd (fst it)) (walk_timed top n).
Proof.
  induction n as [t | m l es IH] using node_ind; intros top; [reflexivity |].
  rewrite retime_files_dir. destruct l; [| reflexivity].
  rewrite !walk_timed_dir. simpl. f_equal.
  induction IH as [| [k c] es Hc _ IHes]; simpl; [reflexivity |].
  rewrite !map_app, IHes. f_equal.
  rewrite retime_files_is_dir. destruct (is_dir c); [apply Hc | reflexivity].
Qed.

(** X4.  Only the [mtime]s of directories count on the cache side: two
    well-formed file systems whose cache trees differ in nothing but the
    [mtime]s of regular files, and whose source path leads to the same
    thing, get the same answer from [_needs_reindexing]. *)
Theorem cache_file_mtimes_ignored (self : loc) (persistent_dir data_dir : path)
    (w w' : world) (cache : node) (g : Z -> Z) :
  wf_node (w_fs w) = true -> wf_node (w_fs w') = true ->
  resolve (w_fs w) persistent_dir = Found cache ->
  resolve (w_fs w') persistent_dir = Found (retime_files g cache) ->
  resolve (w_fs w') data_dir = resolve (w_fs w) data_dir ->
  fst (_needs_reindexing self persistent_dir data_dir w') =
  fst (_needs_reindexing self persistent_dir data_dir w).
Proof.
  intros Hwf Hwf' Hc Hc' Hd.
  rewrite !needs_reindexing_result by assumption.
  assert (Hcached :
            map (fun it : timed_item => snd (fst it)) (walk_timed_fs (w_fs w') persistent_dir) =
            map (fun it : timed_item => snd (fst it)) (walk_timed_fs (w_fs w) persistent_dir)).
  { unfold walk_timed_fs. rewrite Hc, Hc'. apply walk_timed_retime. }
  assert (Hdata : walk_timed_fs (w_fs w') data_dir = walk_timed_fs (w_fs w) data_dir).
  { unfold walk_timed_fs. now rewrite Hd. }
  now rewrite Hcached, Hdata.
Qed.

End CheckResult.

(** ** More on construction *)

Section ConstructionMore.
Context `{Collaborators}.

(** The world a construction that succeeds ends in. *)
Lemma DataLama_final_world pdir ddir model timeout w self w' :
  DataLama pdir ddir model timeout w = (Ok self, w') ->
  self = length (w_heap w) /\
  exists start w1 stale w2 index w3 engine fs4 ext4,
    init_backends model timeout (fresh_instance w) = (Ok start, w1) /\
    index_is_stale self pdir ddir w1 = (Ok stale, w2) /\
    (if stale then rebuild_index pdir ddir else reload_index pdir) w2 = (Ok index, w3) /\
    as_query_engine index 4 (w_fs w3) (w_ext w3) = (Ok engine, fs4, ext4) /\
    w_ticks w3 = S (w_ticks w) /\
    start = perf_counter_at (w_ticks w) /\
    w' =
    World fs4 ext4 (S (S (w_ticks w)))
      (w_heap w ++
       [PyInstance (<["_query_durations" := VRef (S self)]>
                      (<["query_engine" := VEngine engine]>
                         (<["_load_duration" :=
                              VFloat (py_sub (perf_counter_at (S (w_ticks w)))
                                             (perf_counter_at (w_ticks w)))]> ∅)));
        PyList []])
      (w_trace w3 ++
       [EvPerfCounter (S (w_ticks w));
        EvSetAttr self "_load_duration";
        EvLog (LogLoaded (py_sub (perf_counter_at (S (w_ticks w)))
                                 (perf_counter_at (w_ticks w))));
        EvAsQueryEngine index 4;
        EvSetAttr self "query_engine";
        EvSetAttr self "_query_durations"]).
Proof.
  intros Hrun. unfold DataLama in Hrun.
  apply bind_inv_ok in Hrun as (self0 & w0 & Halloc & Hrun).
  unfold alloc in Halloc. injection Halloc as <- <-.
  fold (fresh_instance w) in Hrun.
  apply bind_inv_ok in Hrun as ([] & w5 & Hinit & Hret).
  unfold ret in Hret. injection Hret as <- <-.
  split; [reflexivity |].
  set (self := length (w_heap w)) in *.
  unfold __init__ in Hinit.
  apply bind_inv_ok in Hinit as (start & w1 & H1 & Hinit).
  apply bind_inv_ok in Hinit as (stale & w2 & H2 & Hinit).
  apply bind_inv_ok in Hinit as (index & w3 & H3 & Hinit).
  exists start, w1, stale, w2, index, w3.
  pose proof (init_backends_inv _ _ _ _ _ H1) as (Hstart & Ht1 & Hh1 & _).
  simpl in Hstart, Ht1, Hh1.
  pose proof (frame_index_is_stale self pdir ddir w1) as (Hh2 & Ht2 & _).
  rewrite H2 in Hh2, Ht2. simpl in Hh2, Ht2.
  assert (H3' : w_heap w3 = w_heap w2 /\ w_ticks w3 = w_ticks w2).
  { destruct stale.
    - apply rebuild_index_inv in H3 as (? & ? & _). now split.
    - apply reload_index_inv in H3 as (? & ? & _). now split. }
  destruct H3' as [Hh3 Ht3].
  assert (Hheap : w_heap w3 = w_heap w ++ [PyInstance ∅]) by now rewrite Hh3, Hh2, Hh1.
  assert (Hticks : w_ticks w3 = S (w_ticks w)) by now rewrite Ht3, Ht2, Ht1.
  assert (Hlen : length (w_heap w3) = S self).
  { rewrite Hheap, length_app. simpl. unfold self. lia. }
  apply bind_inv_ok in Hinit as (end_time & wa & Ha & Hinit).
  unfold perf_counter in Ha. injection Ha as <- <-.
  apply bind_inv_ok in Hinit as ([] & wb & Hb & Hinit).
  apply setattr_inv in Hb as (attrs1 & Hl1 & ->). simpl in Hl1.
  apply bind_inv_ok in Hinit as ([] & wc & Hc & Hinit).
  apply emit_inv in Hc as ->.
  apply bind_inv_ok in Hinit as ([] & wd & Hd & Hinit).
  apply emit_inv in Hd as ->.
  apply bind_inv_ok in Hinit as (engine & we & He & Hinit).
  apply call_inv in He as (Heng & He). simpl in Heng, He.
  apply bind_inv_ok in Hinit as ([] & wf & Hf & Hinit).
  apply setattr_inv in Hf as (attrs2 & Hl2 & ->).
  apply bind_inv_ok in Hinit as (l & wg & Hg & Hinit).
  unfold alloc in Hg. injection Hg as <- <-.
  apply setattr_inv in Hinit as (attrs3 & Hl3 & ->).
  rewrite He in Hl2, Hl3 |- *. simpl in Hl2, Hl3 |- *.
  rewrite list_lookup_insert_eq in Hl2 by lia. injection Hl2 as <-.
  rewrite lookup_app_l in Hl3 by (rewrite !length_insert; lia).
  rewrite list_lookup_insert_eq in Hl3 by (rewrite length_insert; lia).
  injection Hl3 as <-.
  rewrite Hheap in Hl1. unfold self in Hl1.
  rewrite lookup_app_r, Nat.sub_diag in Hl1 by lia. injection Hl1 as <-.
  exists engine, (w_fs we), (w_ext we).
  repeat split; try assumption.
  rewrite Hstart, Hticks. f_equal.
  - rewrite !length_insert, Hlen.
    rewrite insert_app_l by (rewrite !length_insert; lia).
    rewrite !list_insert_insert_eq, Hheap.
    unfold self at 1. rewrite (insert_app_r_alt _ _ (length (w_heap w))) by lia.
    rewrite Nat.sub_diag. simpl. now rewrite <- app_assoc.
  - now rewrite <- !app_assoc.
Qed.


(** The instance right after its construction. *)
Lemma DataLama_session pdir ddir model timeout w self w' :
  DataLama pdir ddir model timeout w = (Ok self, w') ->
  exists engine,
    session self (py_sub (perf_counter_at (S (w_ticks w))) (perf_counter_at (w_ticks w)))
      engine (S self) [] w'.
Proof.
  intros Hnew.
  apply DataLama_final_world in Hnew
    as (-> & start & w1 & stale & w2 & index & w3 & engine & fs4 & ext4
        & _ & _ & _ & _ & _ & _ & ->).
  exists engine. eexists. cbn [w_heap].
  split; [rewrite lookup_app_r by lia; rewrite Nat.sub_diag; reflexivity |].
  split; [rewrite lookup_insert_ne by discriminate;
          rewrite lookup_insert_ne by discriminate; apply lookup_insert_eq |].
  split; [rewrite lookup_insert_ne by discriminate; apply lookup_insert_eq |].
  split; [apply lookup_insert_eq |].
  rewrite lookup_app_r by lia.
  replace (S (length (w_heap w)) - length (w_heap w))%nat with 1%nat by lia.
  reflexivity.
Qed.

Lemma index_is_stale_same_disk self pdir ddir w :
  exists evs,
    snd (index_is_stale self pdir ddir w) = add_trace w evs /\
    Forall is_check_event evs.
Proof.
  unfold index_is_stale, path_exists. unfold bind at 1. unfold bind at 1.
  unfold emit at 1. cbn [w_fs].
  destruct (resolve (w_fs w) pdir) as [n | |]; cbn [negb].
  2,3: exists [EvStat pdir]; split; [reflexivity | now repeat constructor].
  match goal with
  | |- context [_needs_reindexing self pdir ddir ?w0] =>
      destruct (observes_needs_reindexing self pdir ddir w0) as [(evs & Hw & Hall) _]
  end.
  exists (EvStat pdir :: evs). rewrite Hw. unfold add_trace. simpl.
  split; [now rewrite <- app_assoc | now constructor].
Qed.

(** A construction that succeeds, from the decision of line 40 on: the
    calls that were made, each on what the one before it returned. *)
Lemma DataLama_calls pdir ddir model timeout w self w' :
  DataLama pdir ddir model timeout w = (Ok self, w') ->
  exists start w1 stale w2 evc mid,
    init_backends model timeout (fresh_instance w) = (Ok start, w1) /\
    index_is_stale self pdir ddir w1 = (Ok stale, w2) /\
    w2 = add_trace w1 evc /\
    Forall is_check_event evc /\
    w_trace w' = w_trace w1 ++ evc ++ mid /\
    if stale then rebuilt self pdir ddir (w_fs w1) (w_ext w1) w' (evc ++ mid)
    else reloaded self pdir (w_fs w1) (w_ext w1) w' (evc ++ mid).
Proof.
  intros Hnew.
  apply DataLama_final_world in Hnew
    as (-> & start & w1 & stale & w2 & index & w3 & engine & fs4 & ext4
        & H1 & H2 & H3 & Heng & _ & _ & ->).
  set (self := length (w_heap w)) in *.
  destruct (index_is_stale_same_disk self pdir ddir w1) as (evc & Hw2 & Hcheck).
  rewrite H2 in Hw2. cbn [snd] in Hw2.
  assert (Hse : forall tr,
             session_engine self
               (World fs4 ext4 (S (S (w_ticks w)))
                  (w_heap w ++
                   [PyInstance
                      (<["_query_durations" := VRef (S self)]>
                         (<["query_engine" := VEngine engine]>
                            (<["_load_duration" :=
                                 VFloat (py_sub (perf_counter_at (S (w_ticks w)))
                                                (perf_counter_at (w_ticks w)))]> ∅)));
                    PyList []]) tr) = Some engine).
  { intros tr. unfold session_engine, attr_of. cbn [w_heap].
    rewrite lookup_app_r by (unfold self; lia).
    unfold self. rewrite Nat.sub_diag. cbn [lookup list_lookup].
    rewrite lookup_insert_ne by discriminate. now rewrite lookup_insert_eq. }
  exists start, w1, stale, w2, evc.
  destruct stale.
  - apply rebuild_index_chain in H3
      as (docs & fs1 & ext1 & fs2 & ext2 & Hload & Hfrom & Hpers & Htr3).
    rewrite Hw2 in Hload, Htr3. cbn [add_trace w_fs w_ext w_trace] in Hload, Htr3.
    eexists. split; [exact H1 |]. split; [exact H2 |]. split; [exact Hw2 |].
    split; [exact Hcheck |].
    split.
    { cbn [w_trace]. rewrite Htr3, <- !app_assoc. reflexivity. }
    exists docs, fs1, ext1, index, fs2, ext2, (w_fs w3), (w_ext w3), engine.
    cbn [w_fs w_ext].
    repeat split; try assumption.
    + apply Hse.
    + rewrite path_events_app, (path_events_check _ Hcheck). reflexivity.
  - apply reload_index_chain in H3 as (Hload & Htr3).
    rewrite Hw2 in Hload, Htr3. cbn [add_trace w_fs w_ext w_trace] in Hload, Htr3.
    eexists. split; [exact H1 |]. split; [exact H2 |]. split; [exact Hw2 |].
    split; [exact Hcheck |].
    split.
    { cbn [w_trace]. rewrite Htr3, <- !app_assoc. reflexivity. }
    exists index, (w_fs w3), (w_ext w3), engine.
    cbn [w_fs w_ext].
    repeat split; try assumption.
    + apply Hse.
    + rewrite path_events_app, (path_events_check _ Hcheck). reflexivity.
Qed.

Lemma rebuilt_rebuild_path self pdir ddir fs ext w' tr :
  rebuilt self pdir ddir fs ext w' tr -> rebuild_path pdir ddir tr.
Proof.
  intros (docs & fs1 & ext1 & index & fs2 & ext2 & fs3 & ext3 & engine
          & _ & _ & _ & _ & _ & Hp).
  now exists docs, index.
Qed.

(** C2.  A construction that succeeds went down exactly one of the two
    paths, and never both.  On the rebuild path the loader is called on
    the source directory, the index builder on the very documents the
    loader returned, [persist] on the very index the builder returned and
    on the cache directory, and no index is loaded; on the reload path the
    index is loaded from the cache directory and nothing is built.  On
    either path the engine of the new instance is made from that index.
    With the cache directory absent the rebuild path is taken and
    [_needs_reindexing] is not entered; with the cache directory present
    [_needs_reindexing] is entered, and the rebuild path is taken when it
    returns [True], the reload path when it returns [False]. *)
Theorem construction_takes_one_path (persistent_dir path_to_data : path)
    (model_name : string) (request_timeout : Q) (w : world) (self : loc) (w' : world) :
  DataLama persistent_dir path_to_data model_name request_timeout w = (Ok self, w') ->
  exists start w1 tr,
    init_backends model_name request_timeout (fresh_instance w) = (Ok start, w1) /\
    w_trace w' = w_trace w1 ++ tr /\
    (rebuilt self persistent_dir path_to_data (w_fs w1) (w_ext w1) w' tr \/
     reloaded self persistent_dir (w_fs w1) (w_ext w1) w' tr) /\
    ~ (rebuild_path persistent_dir path_to_data tr /\ reload_path persistent_dir tr) /\
    ((forall n, resolve (w_fs w1) persistent_dir <> Found n) ->
     ~ check_invoked tr /\
     rebuilt self persistent_dir path_to_data (w_fs w1) (w_ext w1) w' tr) /\
    (forall n, resolve (w_fs w1) persistent_dir = Found n ->
     In (EvEnter_needs_reindexing persistent_dir path_to_data) tr /\
     exists stale w2,
       _needs_reindexing self persistent_dir path_to_data
         (add_trace w1 [EvStat persistent_dir]) = (Ok stale, w2) /\
       if stale
       then rebuilt self persistent_dir path_to_data (w_fs w1) (w_ext w1) w' tr
       else reloaded self persistent_dir (w_fs w1) (w_ext w1) w' tr).
Proof.
  intros Hrun.
  pose proof (DataLama_final_world _ _ _ _ _ _ _ Hrun) as (Hself & _).
  pose proof (DataLama_inv _ _ _ _ _ _ _ Hrun)
    as (_ & start0 & w10 & stale0 & w20 & index0 & w30 & engine0
        & H10 & H20 & H30 & Htr0 & _).
  destruct (DataLama_calls _ _ _ _ _ _ _ Hrun)
    as (start & w1 & stale & w2 & evc & mid & H1 & H2 & Hw2 & Hcheck & Htr & Hpath).
  rewrite H10 in H1. injection H1 as <- <-.
  rewrite H20 in H2. injection H2 as <- <-.
  exists start0, w10, (evc ++ mid).
  split; [exact H10 |]. split; [exact Htr |].
  split; [destruct stale0; [now left | now right] |].
  split.
  { intros [(docs & idx & Hre) Hlo]. unfold reload_path in Hlo.
    rewrite Hre in Hlo. discriminate. }
  split.
  - intros Habsent.
    rewrite (index_is_stale_absent _ _ _ _ Habsent) in H20.
    injection H20 as <- Hw.
    split; [| exact Hpath].
    assert (Hevc : evc = [EvStat persistent_dir]).
    { rewrite Hw2 in Hw. apply (f_equal w_trace) in Hw. simpl in Hw.
      now apply app_inv_head in Hw. }
    apply rebuild_index_inv in H30 as (_ & _ & docs & Htr3).
    rewrite Htr0, Htr3, Hw2 in Htr. cbn [add_trace w_trace] in Htr.
    rewrite <- !app_assoc in Htr. apply app_inv_head in Htr.
    rewrite Hevc in Htr. simpl in Htr. injection Htr as <-.
    rewrite Hevc.
    intros (p & d & Hin). simpl in Hin.
    repeat (destruct Hin as [Hin | Hin]; [discriminate |]). exact Hin.
  - intros n Hn.
    rewrite (index_is_stale_present _ _ _ _ _ Hn) in H20.
    destruct (needs_reindexing_enters self persistent_dir path_to_data
                (add_trace w10 [EvStat persistent_dir])) as (evs & Henter).
    rewrite H20 in Henter. rewrite Hw2 in Henter. simpl in Henter.
    rewrite <- app_assoc in Henter.
    apply app_inv_head in Henter as ->.
    split.
    + simpl. right. now left.
    + exists stale0, w20. split; [exact H20 | exact Hpath].
Qed.

Lemma session_heap_app self d e l log w w' k :
  session self d e l log w -> w_heap w' = w_heap w ++ k ->
  session self d e l log w'.
Proof.
  intros (attrs & Hs & Hd & He & Hl & Hlog) Hheap.
  exists attrs. rewrite Hheap. repeat split; try assumption.
  - rewrite lookup_app_l; [assumption | now apply lookup_lt_Some in Hs].
  - rewrite lookup_app_l; [assumption | now apply lookup_lt_Some in Hlog].
Qed.

(** An operation on one instance changes no object but the list of
    durations of that instance. *)
Lemma run_api_step_other b db eb lb logb w op r w' i o :
  session b db eb lb logb w ->
  run_api b op w = (r, w') ->
  i <> lb -> w_heap w !! i = Some o -> w_heap w' !! i = Some o.
Proof.
  intros Hses Hrun Hne Hi.
  destruct op as [msg | |]; simpl in Hrun; unfold bind in Hrun.
  - destruct (engine_query eb msg (w_fs w) (w_ext w)) as [[[resp | err] fs'] ext'] eqn:Heng.
    + rewrite (query_run_ok _ _ _ _ _ _ _ _ _ _ Hses Heng) in Hrun.
      unfold ret in Hrun. injection Hrun as <- <-. simpl.
      now rewrite list_lookup_insert_ne by congruence.
    + rewrite (query_run_raise _ _ _ _ _ _ _ _ _ _ Hses Heng) in Hrun.
      now injection Hrun as <- <-.
  - rewrite (get_load_duration_run _ _ _ _ _ _ Hses) in Hrun.
    unfold ret in Hrun. now injection Hrun as <- <-.
  - rewrite (get_query_durations_run _ _ _ _ _ _ Hses) in Hrun.
    unfold ret in Hrun. injection Hrun as <- <-. simpl.
    rewrite lookup_app_l; [assumption | now apply lookup_lt_Some in Hi].
Qed.

Lemma run_api_steps_other a da ea la loga b db eb lb ops : forall logb w outs w',
  session a da ea la loga w ->
  session b db eb lb logb w ->
  a <> lb -> la <> lb ->
  run_session (run_api b) ops w = (outs, w') ->
  session a da ea la loga w'.
Proof.
  induction ops as [| op ops IH]; intros logb w outs w' Ha Hb Hne1 Hne2 Hrun;
    simpl in Hrun.
  - now injection Hrun as <- <-.
  - destruct (run_api b op w) as [r w1] eqn:Hop.
    destruct (run_session (run_api b) ops w1) as [rs w2] eqn:Hrest.
    injection Hrun as <- <-.
    destruct (run_api_step _ _ _ _ _ _ _ _ _ Hb Hop) as (tr1 & _ & Hb1 & _).
    apply (IH (logb ++ completed_durations tr1) w1 rs w2); try assumption.
    destruct Ha as (attrs & Hs & Hd & He & Hl & Hlog).
    exists attrs. repeat split; try assumption.
    + exact (run_api_step_other _ _ _ _ _ _ _ _ _ _ _ Hb Hop Hne1 Hs).
    + exact (run_api_step_other _ _ _ _ _ _ _ _ _ _ _ Hb Hop Hne2 Hlog).
Qed.

(** X6.  Two instances do not share their list of durations.  When a
    second instance is built after a first one, they are different
    objects, and whatever methods are then called on the second - among
    them [query], which appends to a list - the first still reports its
    own load duration and still has its own, empty, list of durations. *)
Theorem instances_do_not_share_durations
    (p1 d1 : path) (m1 : string) (t1 : Q) (p2 d2 : path) (m2 : string) (t2 : Q)
    (w0 : world) (a : loc) (w1 : world) (b : loc) (w2 : world)
    (ops : list api_op) (outs : list (result retval)) (w3 : world) :
  DataLama p1 d1 m1 t1 w0 = (Ok a, w1) ->
  DataLama p2 d2 m2 t2 w1 = (Ok b, w2) ->
  run_session (run_api b) ops w2 = (outs, w3) ->
  a <> b /\
  query_log a w1 = Some [] /\
  query_log a w3 = Some [] /\
  (exists d, get_load_duration a w1 = (Ok (VFloat d), w1) /\
             get_load_duration a w3 = (Ok (VFloat d), w3)) /\
  (exists logb, query_log b w3 = Some logb /\
                length logb = successful_queries ops outs).
Proof.
  intros Ha Hb Hrun.
  pose proof (DataLama_final_world _ _ _ _ _ _ _ Ha) as (Hae & _).
  pose proof (DataLama_final_world _ _ _ _ _ _ _ Hb)
    as (Hbe & start & wa & stale & wb & index & wc & engine & fs4 & ext4
        & _ & _ & _ & _ & _ & _ & Hw2).
  apply DataLama_inv in Ha as (_ & ? & ? & ? & ? & ? & ? & ea & _ & _ & _ & _ & _ & Hlen1 & Hsa).
  apply DataLama_inv in Hb as (_ & ? & ? & ? & ? & ? & ? & eb & _ & _ & _ & _ & _ & _ & Hsb).
  assert (Hab : b = S (S a)) by (rewrite Hbe, Hlen1; reflexivity).
  eassert (Hh2 : w_heap w2 = w_heap w1 ++ _) by (rewrite Hw2; reflexivity).
  pose proof (session_heap_app _ _ _ _ _ _ _ _ Hsa Hh2) as Hsa2.
  destruct (run_api_steps _ _ _ _ _ _ _ _ _ Hsb Hrun)
    as (tr & _ & Hsb3 & Hlenb & _).
  pose proof (run_api_steps_other _ _ _ _ _ _ _ _ _ _ _ _ _ _ Hsa2 Hsb
                ltac:(lia) ltac:(lia) Hrun) as Hsa3.
  pose proof (session_observed _ _ _ _ _ _ Hsa) as (_ & _ & Hq1).
  pose proof (session_observed _ _ _ _ _ _ Hsa3) as (_ & _ & Hq3).
  pose proof (session_observed _ _ _ _ _ _ Hsb3) as (_ & _ & Hqb).
  split; [lia |].
  split; [exact Hq1 |].
  split; [exact Hq3 |].
  split.
  - eexists. split; eapply get_load_duration_run; eassumption.
  - eexists. split; [exact Hqb | exact Hlenb].
Qed.

End ConstructionMore.

(** ** Every construction, failed or not *)

Section ConstructionAlways.
Context `{Collaborators}.

Lemma adds_ret {A} P (a : A) : adds P (ret a).
Proof. intros w. exists []. simpl. now rewrite app_nil_r. Qed.


















End ConstructionAlways.

(** ** More on sessions *)

Section SessionsMore.
Context `{Collaborators}.

(** X10.  Two snapshots with a call of [query] in between: the two
    tuples are different objects, the first has the items of the list
    before the call, the second has the same items followed by the new
    duration, and taking the second leaves the first as it was. *)
Theorem successive_snapshots (persistent_dir path_to_data : path)
    (model_name : string) (request_timeout : Q) (w0 : world) (self : loc) (w1 : world)
    (ops : list api_op) (outs : list (result retval)) (w : world)
    (msg : string) (e : QueryEngine) (r : Response) (fs' : node) (ext' : ExtState) :
  DataLama persistent_dir path_to_data model_name request_timeout w0 = (Ok self, w1) ->
  run_session (run_api self) ops w1 = (outs, w) ->
  session_engine self w = Some e ->
  engine_query e msg (w_fs w) (w_ext w) = (Ok r, fs', ext') ->
  let q := round1 (py_sub (perf_counter_at (S (w_ticks w))) (perf_counter_at (w_ticks w))) in
  exists log t1 t2 w',
    query_log self w = Some log /\
    (let! t1 := get_query_durations self in
     let! response := query self msg in
     let! t2 := get_query_durations self in
     ret (t1, response, t2)) w = (Ok (t1, r, t2), w') /\
    t1 <> t2 /\
    w_heap w' !! t1 = Some (PyTuple log) /\
    w_heap w' !! t2 = Some (PyTuple (log ++ [q])) /\
    query_log self w' = Some (log ++ [q]).
Proof.
  intros Hnew Hrun He Heng q.
  destruct (session_reached _ _ _ _ _ _ _ _ _ _ Hnew Hrun)
    as (e0 & l & tr & Hses & _).
  destruct (session_observed _ _ _ _ _ _ Hses) as (_ & He0 & Hlog).
  rewrite He in He0. injection He0 as <-.
  set (log := completed_durations tr) in *.
  pose proof (get_query_durations_run _ _ _ _ _ _ Hses) as Hg1.
  pose proof (session_alloc _ _ _ _ _ _ (PyTuple log) (w_fs w) (w_ext w) (w_ticks w)
                (w_trace w) Hses) as Hsa.
  pose proof (query_run_ok _ _ _ _ _ _ msg r fs' ext' Hsa Heng) as Hq.
  pose proof (session_append _ _ _ _ _ _ q
                fs' ext' (S (S (w_ticks w)))
                (w_trace w ++ [EvPerfCounter (w_ticks w);
                               EvLog (LogProcessing msg); EvEngineQuery e msg;
                               EvPerfCounter (S (w_ticks w));
                               EvLog (LogCompleted q)])
                Hsa) as Hsb.
  pose proof (get_query_durations_run _ _ _ _ _ _ Hsb) as Hg2.
  pose proof (session_distinct _ _ _ _ _ _ Hses) as Hne.
  assert (Hl : (l < length (w_heap w))%nat).
  { destruct Hses as (attrs & _ & _ & _ & _ & Hll). now apply lookup_lt_Some in Hll. }
  subst q. simpl in Hq, Hsb, Hg2.
  eexists log, _, _, _. split; [exact Hlog |].
  split.
  { unfold bind at 1. rewrite Hg1. unfold bind at 1. rewrite Hq.
    unfold bind at 1. rewrite Hg2. reflexivity. }
  simpl. rewrite !length_insert, !length_app. simpl.
  split; [lia |].
  split.
  { rewrite lookup_app_l by (rewrite length_insert, length_app; simpl; lia).
    rewrite list_lookup_insert_ne.
    - rewrite lookup_app_r by lia. now rewrite Nat.sub_diag.
    - lia. }
  split.
  { rewrite lookup_app_r by (rewrite length_insert, length_app; simpl; lia).
    rewrite length_insert, length_app. simpl.
    now rewrite Nat.sub_diag. }
  eapply (session_alloc _ _ _ _ _ _ _ fs' ext' _ _) in Hsb.
  apply session_observed in Hsb as (_ & _ & Hlog'). exact Hlog'.
Qed.

End SessionsMore.

(** ** The script *)

Section ScriptProperties.
Context `{Collaborators}.

Lemma questions_asked_app a b :
  questions_asked (a ++ b) = questions_asked a ++ questions_asked b.
Proof. apply flat_map_app. Qed.

Lemma questions_asked_check evs :
  Forall is_check_event evs -> questions_asked evs = [].
Proof.
  induction 1 as [| e evs He _ IH]; [reflexivity |].
  simpl. rewrite IH. now destruct e.
Qed.

Lemma index_is_stale_stats self pdir ddir w :
  exists evs,
    w_trace (snd (index_is_stale self pdir ddir w)) = w_trace w ++ EvStat pdir :: evs /\
    Forall is_check_event evs.
Proof.
  unfold index_is_stale, path_exists. unfold bind at 1. unfold bind at 1.
  unfold emit at 1. cbn [w_fs].
  destruct (resolve (w_fs w) pdir) as [n | |]; cbn [negb].
  2,3: exists []; simpl; split; [reflexivity | constructor].
  match goal with
  | |- context [_needs_reindexing self pdir ddir ?w0] =>
      destruct (frame_needs_reindexing self pdir ddir w0) as (_ & _ & evs & Htr & Hall)
  end.
  exists evs. rewrite Htr. simpl. now rewrite <- app_assoc.
Qed.

(** X11.  When the script comes to its end it has read the clock first
    of all and last of all, and the total time it logs is the float
    difference of these two readings, not negative when the clock never
    goes back.  In between it has built one instance on [persistent] and
    [data] below the installation root, with the model "llama3.1" and a
    timeout of 240 seconds, and has called [query] on that instance with
    the fixed question: what this call returned is what the script
    prints, and the engine was asked this one question and no other. *)
Theorem main_builds_then_asks_once (install_root : path) (w : world)
    (out : script_output) (w' : world) :
  main install_root w = (Ok out, w') ->
  let self := length (w_heap w) in
  exists w1 w2 mid,
    DataLama (install_root ++ ["persistent"]) (install_root ++ ["data"]) "llama3.1" 240
      (snd (perf_counter w)) = (Ok self, w1) /\
    query self "Who own the one ring?" w1 = (Ok (printed out), w2) /\
    w' = snd (perf_counter w2) /\
    w_ticks w2 = (5 + w_ticks w)%nat /\
    total_logged out =
      py_sub (perf_counter_at (5 + w_ticks w)) (perf_counter_at (w_ticks w)) /\
    w_trace w' =
      w_trace w ++ [EvPerfCounter (w_ticks w)] ++ mid ++ [EvPerfCounter (5 + w_ticks w)] /\
    questions_asked mid = ["Who own the one ring?"] /\
    (monotone_clock -> (0 <= total_logged out)%Q).
Proof.
  intros Hmain self. unfold main in Hmain.
  apply bind_inv_ok in Hmain as (overall_start & wa & Ha & Hmain).
  unfold perf_counter in Ha. injection Ha as <- <-.
  apply bind_inv_ok in Hmain as (chat_bot & w1 & Hnew & Hmain).
  apply bind_inv_ok in Hmain as (response & w2 & Hq & Hmain).
  apply bind_inv_ok in Hmain as (overall_end & w3 & Hb & Hmain).
  unfold perf_counter in Hb. injection Hb as <- <-.
  unfold ret in Hmain. injection Hmain as <- <-.
  pose proof (DataLama_final_world _ _ _ _ _ _ _ Hnew)
    as (Hself & start & wi & stale & wj & index & wk & engine & fs4 & ext4
        & H1 & H2 & H3 & _ & _ & _ & Hw1).
  cbn [w_heap w_ticks] in Hself, Hw1. fold self in Hself. subst chat_bot.
  pose proof (DataLama_session _ _ _ _ _ _ _ Hnew) as (engine' & Hses).
  cbn [w_ticks] in Hses.
  assert (Ht1 : w_ticks w1 = (3 + w_ticks w)%nat) by (rewrite Hw1; reflexivity).
  (* the trace of the construction *)
  apply init_backends_inv in H1 as (_ & _ & _ & Htri).
  cbn [fresh_instance w_trace w_ticks] in Htri.
  destruct (index_is_stale_stats self (path_join install_root "persistent")
              (path_join install_root "data") wi) as (evc & Htrj & Hcheck).
  rewrite H2 in Htrj. cbn [snd] in Htrj.
  assert (Htrk : exists mid, w_trace wk = w_trace wj ++ mid /\ questions_asked mid = []).
  { destruct stale.
    - apply rebuild_index_inv in H3 as (_ & _ & docs & ->). eauto.
    - apply reload_index_inv in H3 as (_ & _ & ->). eauto. }
  destruct Htrk as (mid & Htrk & Hmid).
  (* the query *)
  pose proof Hq as Hq'.
  destruct (engine_query engine' "Who own the one ring?" (w_fs w1) (w_ext w1))
    as [[[resp | err] fs'] ext'] eqn:Heng.
  2:{ rewrite (query_run_raise _ _ _ _ _ _ _ _ _ _ Hses Heng) in Hq'. discriminate. }
  rewrite (query_run_ok _ _ _ _ _ _ _ _ _ _ Hses Heng) in Hq'.
  injection Hq' as _ Hw2.
  assert (Ht2 : w_ticks w2 = (5 + w_ticks w)%nat).
  { rewrite <- Hw2. cbn [w_ticks]. rewrite Ht1. reflexivity. }
  assert (Htr : exists mid',
             w_trace w2 = w_trace w ++ [EvPerfCounter (w_ticks w)] ++ mid' /\
             questions_asked mid' = ["Who own the one ring?"]).
  { rewrite <- Hw2. cbn [w_trace]. rewrite Hw1. cbn [w_trace].
    rewrite Htrk, Htrj, Htri. rewrite <- !app_assoc.
    eexists. split; [reflexivity |].
    rewrite !questions_asked_app. simpl.
    now rewrite Hmid, (questions_asked_check _ Hcheck). }
  destruct Htr as (mid' & Htr & Hasked).
  exists w1, w2, mid'.
  split; [exact Hnew |]. split; [exact Hq |]. split; [reflexivity |].
  split; [exact Ht2 |].
  cbn [total_logged snd perf_counter w_trace]. rewrite Ht2.
  split; [reflexivity |].
  split; [rewrite Htr, <- !app_assoc; reflexivity |].
  split; [exact Hasked |].
  intros Hmono. apply py_sub_nonneg.
  apply Hmono. lia.
Qed.

End ScriptProperties.

(** ** The program at work *)

Import Demo.

Lemma demo_clock_monotone : monotone_clock.
Proof.
  intros i j Hij. unfold perf_counter_at, demo, Qle. simpl. nia.
Qed.

(** Floats as CPython has them: [0.251 - 0.001] is the double [0.25], not
    the exact difference of the two doubles, and [round] takes it to the
    double [0.2]; [round(0.75, 1)] is the double [0.8], which is not
    eight tenths. *)
Example float_subtraction_then_round :
  let a := nearest_double (1 # 1000) in
  let b := nearest_double (251 # 1000) in
  (py_sub b a == 1 # 4)%Q /\
  ~ (b - a == 1 # 4)%Q /\
  round1 (py_sub b a) = nearest_double (2 # 10) /\
  (round1 (py_sub b a) == 3602879701896397 # 18014398509481984)%Q.
Proof.
  repeat split; try (vm_compute; reflexivity).
  intros Heq. vm_compute in Heq. discriminate.
Qed.

Example round_to_the_even_tenth :
  (round1 (3 # 4) == 3602879701896397 # 4503599627370496)%Q /\
  ~ (round1 (3 # 4) == 8 # 10)%Q /\
  (round1 (1 # 4) == nearest_double (2 # 10))%Q /\
  (round1 (7 # 20) == nearest_double (4 # 10))%Q.
Proof.
  repeat split; try (vm_compute; reflexivity).
  intros Heq. vm_compute in Heq. discriminate.
Qed.

Lemma needs_reindexing_iff_witness :
  latest_dir_mtime cache_tree 60 /\
  exists (b : bool) (visited : list path) (tail : list event),
    _needs_reindexing 0%nat ["persistent"] ["data"] (boot (disk 65)) =
      (Ok b,
       add_trace (boot (disk 65))
         ([EvEnter_needs_reindexing ["persistent"] ["data"]]
          ++ map (fun it : walk_item => EvStat (fst (fst it)))
                 (os_walk_fs (disk 65) ["persistent"])
          ++ map EvStat visited ++ tail)) /\
    (b = true <-> exists rel t, resolve (data_tree 65) rel = Found (File t) /\ 60 < t) /\
    stops_at_first_newer (disk 65) 60
      (walk_files (os_walk_fs (disk 65) ["data"])) b visited tail /\
    (forall m l, data_tree 65 = Dir m l [] -> b = false).
Proof.
  assert (HT : latest_dir_mtime cache_tree 60)
    by (apply (max_latest_dir_mtime ["persistent"]); reflexivity).
  split; [exact HT |].
  apply (needs_reindexing_iff 0%nat ["persistent"] ["data"] (boot (disk 65))
           cache_tree (data_tree 65) 60); try reflexivity. exact HT.
Defined.

Example check_newer_file :
  _needs_reindexing 0%nat ["persistent"] ["data"] (boot (disk 65)) =
  (Ok true,
   add_trace (boot (disk 65))
     [EvEnter_needs_reindexing ["persistent"] ["data"];
      EvStat ["persistent"]; EvStat ["persistent"; "graph"];
      EvStat ["data"; "a.txt"]; EvStat ["data"; "sub"; "b.txt"];
      EvLog (LogReindexing ["data"; "sub"; "b.txt"])]).
Proof. by_running. Qed.

Example check_same_age :
  fst (_needs_reindexing 0%nat ["persistent"] ["data"] (boot (disk 60))) = Ok false.
Proof. by_running. Qed.

Lemma construction_takes_one_path_witness :
  DataLama ["persistent"] ["data"] "llama3.1" 120 (boot (disk 65)) =
  (Ok 0%nat, snd (built 65)) /\
  exists start w1 tr,
    init_backends "llama3.1" 120 (fresh_instance (boot (disk 65))) = (Ok start, w1) /\
    w_trace (snd (built 65)) = w_trace w1 ++ tr /\
    (rebuilt 0%nat ["persistent"] ["data"] (w_fs w1) (w_ext w1) (snd (built 65)) tr \/
     reloaded 0%nat ["persistent"] (w_fs w1) (w_ext w1) (snd (built 65)) tr) /\
    ~ (rebuild_path ["persistent"] ["data"] tr /\ reload_path ["persistent"] tr) /\
    ((forall n, resolve (w_fs w1) ["persistent"] <> Found n) ->
     ~ check_invoked tr /\
     rebuilt 0%nat ["persistent"] ["data"] (w_fs w1) (w_ext w1) (snd (built 65)) tr) /\
    (forall n, resolve (w_fs w1) ["persistent"] = Found n ->
     In (EvEnter_needs_reindexing ["persistent"] ["data"]) tr /\
     exists stale w2,
       _needs_reindexing 0%nat ["persistent"] ["data"]
         (add_trace w1 [EvStat ["persistent"]]) = (Ok stale, w2) /\
       if stale
       then rebuilt 0%nat ["persistent"] ["data"] (w_fs w1) (w_ext w1) (snd (built 65)) tr
       else reloaded 0%nat ["persistent"] (w_fs w1) (w_ext w1) (snd (built 65)) tr).
Proof.
  assert (Hb : DataLama ["persistent"] ["data"] "llama3.1" 120 (boot (disk 65)) =
               (Ok 0%nat, snd (built 65))) by (vm_compute; reflexivity).
  split; [exact Hb |].
  exact (construction_takes_one_path ["persistent"] ["data"] "llama3.1" 120
           (boot (disk 65)) 0%nat (snd (built 65)) Hb).
Defined.

Example rebuild_when_cache_absent :
  path_events (w_trace (snd (DataLama ["elsewhere"] ["data"] "llama3.1" 120 (boot (disk 40))))) =
  [EvLoadData ["data"]; EvFromDocuments ["a.txt"]; EvPersist ["a.txt"] ["elsewhere"]].
Proof. by_running. Qed.

Example reload_when_cache_fresh :
  path_events (w_trace (snd (built 55))) = [EvLoadIndex ["persistent"]].
Proof. by_running. Qed.

Lemma missing_source_returns_false :
  resolve (disk 55) ["persistent"] = Found cache_tree /\
  resolve (disk 55) ["nowhere"] = NoEnt /\
  fst (_needs_reindexing 0%nat ["persistent"] ["nowhere"] (boot (disk 55))) = Ok false /\
  ~ (exists e, fst (_needs_reindexing 0%nat ["persistent"] ["nowhere"] (boot (disk 55)))
               = Raise e).
Proof.
  repeat split; try (vm_compute; reflexivity). intros [e He]. vm_compute in He. discriminate.
Qed.

Lemma needs_reindexing_source_not_listed_witness :
  wf_node (disk 55) = true /\
  cannot_list (disk 55) ["nowhere"] /\
  _needs_reindexing 0%nat ["persistent"] ["nowhere"] (boot (disk 55)) =
  (Ok false,
   add_trace (boot (disk 55))
     ([EvEnter_needs_reindexing ["persistent"] ["nowhere"]]
      ++ map (fun it : walk_item => EvStat (fst (fst it)))
             (os_walk_fs (disk 55) ["persistent"]))).
Proof.
  assert (Hno : cannot_list (disk 55) ["nowhere"]) by (intros m es; discriminate).
  split; [reflexivity |]. split; [exact Hno |].
  exact (needs_reindexing_source_not_listed 0%nat ["persistent"] ["nowhere"]
           (boot (disk 55)) 50 _ eq_refl eq_refl Hno).
Defined.

Example unlistable_source_returns_false :
  fst (_needs_reindexing 0%nat ["persistent"] ["data"]
         (boot (Dir 10 true [("persistent", cache_tree);
                             ("data", Dir 45 false [("a.txt", File 99)])]))) = Ok false.
Proof. by_running. Qed.

Lemma cache_is_regular_file_ValueError_witness :
  resolve disk_with_cache_file ["persistent"] = Found (File 50) /\
  os_walk_fs disk_with_cache_file ["persistent"] = [] /\
  fst (DataLama ["persistent"] ["data"] "llama3.1" 120 (boot disk_with_cache_file)) =
  Raise ValueError.
Proof.
  split; [vm_compute; reflexivity |].
  destruct (cache_is_regular_file_ValueError ["persistent"] ["data"] "llama3.1" 120
              (boot disk_with_cache_file)
              (snd (init_backends "llama3.1" 120 (fresh_instance (boot disk_with_cache_file))))
              (0 # 8) 50 ltac:(vm_compute; reflexivity) ltac:(vm_compute; reflexivity))
    as [Hwalk Hraise].
  split; [exact Hwalk |]. now rewrite Hraise.
Defined.

Lemma empty_question_reaches_engine :
  fst (query 0%nat "" (snd (built 55))) = Ok "Sauron" /\
  In (EvEngineQuery ["docstore.json"] "") (w_trace (snd (query 0%nat "" (snd (built 55))))) /\
  ~ (exists e, fst (query 0%nat "" (snd (built 55))) = Raise e).
Proof.
  split; [vm_compute; reflexivity |].
  split; [vm_compute; tauto |].
  intros [e He]. vm_compute in He. discriminate.
Qed.

Lemma empty_question_is_forwarded_witness :
  fst (query 0%nat "" (snd (after_session 55))) =
  fst (fst (engine_query ["docstore.json"] ""
              (w_fs (snd (after_session 55))) (w_ext (snd (after_session 55))))) /\
  exists tr,
    w_trace (snd (query 0%nat "" (snd (after_session 55)))) =
    w_trace (snd (after_session 55)) ++ tr /\
    In (EvEngineQuery ["docstore.json"] "") tr.
Proof.
  assert (Hb : DataLama ["persistent"] ["data"] "llama3.1" 120 (boot (disk 55)) =
               (Ok 0%nat, snd (built 55))) by (vm_compute; reflexivity).
  assert (Hr : run_session (run_api 0%nat) session_ops (snd (built 55)) =
               (fst (after_session 55), snd (after_session 55)))
    by (vm_compute; reflexivity).
  assert (He : session_engine 0%nat (snd (after_session 55)) = Some ["docstore.json"])
    by (vm_compute; reflexivity).
  exact (empty_question_is_forwarded ["persistent"] ["data"] "llama3.1" 120
           (boot (disk 55)) 0%nat (snd (built 55)) session_ops
           (fst (after_session 55)) (snd (after_session 55)) ["docstore.json"] Hb Hr He).
Defined.

Example session_outcomes :
  fst (after_session 55) =
  [Ok (RResponse "Sauron"); Ok (RRef 2%nat); Raise (CollaboratorError "backend");
   Ok (RValue (VFloat (py_sub (1 # 8) (0 # 8)))); Ok (RResponse "Sauron")] /\
  query_log 0%nat (snd (after_session 55)) = Some [round1 (5 # 8); round1 (11 # 8)] /\
  option_map (map Qred) (query_log 0%nat (snd (after_session 55))) =
  Some [5404319552844595 # 9007199254740992; 3152519739159347 # 2251799813685248]%Q /\
  w_heap (snd (after_session 55)) !! 2%nat = Some (PyTuple [round1 (5 # 8)]).
Proof. by_running. Qed.

Lemma query_returns_engine_answer_witness :
  "Who own the one ring?" <> "" /\
  exists log w' d q,
    query_log 0%nat (snd (after_session 55)) = Some log /\
    query 0%nat "Who own the one ring?" (snd (after_session 55)) = (Ok "Sauron", w') /\
    query_log 0%nat w' = Some (log ++ [q]) /\
    w_fs w' = disk 55 /\ w_ext w' = 8%nat /\
    w_trace w' =
    w_trace (snd (after_session 55)) ++
      [EvPerfCounter (w_ticks (snd (after_session 55)));
       EvLog (LogProcessing "Who own the one ring?");
       EvEngineQuery ["docstore.json"] "Who own the one ring?";
       EvPerfCounter (S (w_ticks (snd (after_session 55))));
       EvLog (LogCompleted q)] /\
    d = py_sub (perf_counter_at (S (w_ticks (snd (after_session 55)))))
               (perf_counter_at (w_ticks (snd (after_session 55)))) /\
    q = round1 d /\
    rounds_to (perf_counter_at (S (w_ticks (snd (after_session 55))))
               - perf_counter_at (w_ticks (snd (after_session 55)))) d /\
    (Qabs (d - (perf_counter_at (S (w_ticks (snd (after_session 55))))
                - perf_counter_at (w_ticks (snd (after_session 55)))))
     <= Qabs (perf_counter_at (S (w_ticks (snd (after_session 55))))
              - perf_counter_at (w_ticks (snd (after_session 55)))) * 2 ^ (-53)
        + 2 ^ (-1075))%Q /\
    exists k : Z,
      (Qabs ((k # 10) - d) <= 1 # 20)%Q /\
      ((Qabs ((k # 10) - d) == 1 # 20)%Q -> Z.even k = true) /\
      rounds_to (k # 10) q /\
      (Qabs (q - (k # 10)) <= Qabs (k # 10) * 2 ^ (-53))%Q.
Proof.
  assert (Hb : DataLama ["persistent"] ["data"] "llama3.1" 120 (boot (disk 55)) =
               (Ok 0%nat, snd (built 55))) by (vm_compute; reflexivity).
  assert (Hr : run_session (run_api 0%nat) session_ops (snd (built 55)) =
               (fst (after_session 55), snd (after_session 55)))
    by (vm_compute; reflexivity).
  assert (Hm : "Who own the one ring?" <> "") by discriminate.
  assert (He : session_engine 0%nat (snd (after_session 55)) = Some ["docstore.json"])
    by (vm_compute; reflexivity).
  assert (Hq : engine_query ["docstore.json"] "Who own the one ring?"
                 (w_fs (snd (after_session 55))) (w_ext (snd (after_session 55))) =
               (Ok "Sauron", disk 55, 8%nat))
    by (vm_compute; reflexivity).
  split; [exact Hm |].
  exact (query_returns_engine_answer ["persistent"] ["data"] "llama3.1" 120
           (boot (disk 55)) 0%nat (snd (built 55)) session_ops
           (fst (after_session 55)) (snd (after_session 55))
           "Who own the one ring?" ["docstore.json"] "Sauron" (disk 55) 8%nat
           Hb Hr Hm He Hq).
Defined.

(** The same call on the demo disk: the readings are [49/8] and [64/8],
    the float difference is [1.875] and the entry is the double [1.9]. *)
Example query_appends_rounded_duration :
  w_trace (snd (query 0%nat "Who own the one ring?" (snd (after_session 55)))) =
  w_trace (snd (after_session 55)) ++
    [EvPerfCounter 7; EvLog (LogProcessing "Who own the one ring?");
     EvEngineQuery ["docstore.json"] "Who own the one ring?";
     EvPerfCounter 8; EvLog (LogCompleted (round1 (15 # 8)))] /\
  option_map (map Qred)
    (query_log 0%nat (snd (query 0%nat "Who own the one ring?" (snd (after_session 55))))) =
  Some [5404319552844595 # 9007199254740992; 3152519739159347 # 2251799813685248;
        Qred (nearest_double (19 # 10))]%Q.
Proof. by_running. Qed.

Lemma failed_query_appends_nothing_witness :
  exists log w',
    query_log 0%nat (snd (after_session 55)) = Some log /\
    query 0%nat "boom" (snd (after_session 55)) = (Raise (CollaboratorError "backend"), w') /\
    w_heap w' = w_heap (snd (after_session 55)) /\
    query_log 0%nat w' = Some log.
Proof.
  assert (Hb : DataLama ["persistent"] ["data"] "llama3.1" 120 (boot (disk 55)) =
               (Ok 0%nat, snd (built 55))) by (vm_compute; reflexivity).
  assert (Hr : run_session (run_api 0%nat) session_ops (snd (built 55)) =
               (fst (after_session 55), snd (after_session 55)))
    by (vm_compute; reflexivity).
  assert (He : session_engine 0%nat (snd (after_session 55)) = Some ["docstore.json"])
    by (vm_compute; reflexivity).
  assert (Hq : engine_query ["docstore.json"] "boom"
                 (w_fs (snd (after_session 55))) (w_ext (snd (after_session 55))) =
               (Raise (CollaboratorError "backend"), disk 55, 8%nat))
    by (vm_compute; reflexivity).
  exact (failed_query_appends_nothing ["persistent"] ["data"] "llama3.1" 120
           (boot (disk 55)) 0%nat (snd (built 55)) session_ops
           (fst (after_session 55)) (snd (after_session 55))
           "boom" ["docstore.json"] (CollaboratorError "backend") (disk 55) 8%nat
           Hb Hr He Hq).
Defined.

Lemma query_log_grows_witness :
  exists log tr,
    query_log 0%nat (snd (after_session 55)) = Some log /\
    w_trace (snd (after_session 55)) = w_trace (snd (built 55)) ++ tr /\
    log = completed_durations tr /\
    length log = successful_queries session_ops (fst (after_session 55)) /\
    Forall (Qle 0) log /\
    (forall ops1 ops2, session_ops = ops1 ++ ops2 ->
       exists log1 rest,
         query_log 0%nat (snd (run_session (run_api 0%nat) ops1 (snd (built 55)))) = Some log1 /\
         log = log1 ++ rest).
Proof.
  assert (Hb : DataLama ["persistent"] ["data"] "llama3.1" 120 (boot (disk 55)) =
               (Ok 0%nat, snd (built 55))) by (vm_compute; reflexivity).
  assert (Hr : run_session (run_api 0%nat) session_ops (snd (built 55)) =
               (fst (after_session 55), snd (after_session 55)))
    by (vm_compute; reflexivity).
  exact (query_log_grows ["persistent"] ["data"] "llama3.1" 120
           (boot (disk 55)) 0%nat (snd (built 55)) session_ops
           (fst (after_session 55)) (snd (after_session 55))
           demo_clock_monotone Hb Hr).
Defined.

Lemma load_duration_set_once_witness :
  exists d tr,
    d = py_sub (perf_counter_at 1) (perf_counter_at 0) /\
    w_trace (snd (after_session 55)) = w_trace (boot (disk 55)) ++ tr /\
    attr_writes 0%nat "_load_duration" tr = 1%nat /\
    get_load_duration 0%nat (snd (built 55)) = (Ok (VFloat d), snd (built 55)) /\
    get_load_duration 0%nat (snd (after_session 55)) =
      (Ok (VFloat d), snd (after_session 55)) /\
    (forall i, session_ops !! i = Some OpGetLoadDuration ->
               fst (after_session 55) !! i = Some (Ok (RValue (VFloat d)))).
Proof.
  assert (Hb : DataLama ["persistent"] ["data"] "llama3.1" 120 (boot (disk 55)) =
               (Ok 0%nat, snd (built 55))) by (vm_compute; reflexivity).
  assert (Hr : run_session (run_api 0%nat) session_ops (snd (built 55)) =
               (fst (after_session 55), snd (after_session 55)))
    by (vm_compute; reflexivity).
  exact (load_duration_set_once ["persistent"] ["data"] "llama3.1" 120
           (boot (disk 55)) 0%nat (snd (built 55)) session_ops
           (fst (after_session 55)) (snd (after_session 55)) Hb Hr).
Defined.

Lemma snapshot_is_immutable_witness :
  exists log t ws,
    query_log 0%nat (snd (after_session 55)) = Some log /\
    get_query_durations 0%nat (snd (after_session 55)) = (Ok t, ws) /\
    w_heap (snd (after_session 55)) !! t = None /\
    w_heap ws !! t = Some (PyTuple log) /\
    (forall cops,
       w_heap (snd (run_session (run_client 0%nat) cops ws)) !! t = Some (PyTuple log)) /\
    (forall w2 q i,
       w_heap w2 !! t = Some (PyTuple log) ->
       list_append t q w2 = (Raise AttributeError, w2) /\
       list_setitem t i q w2 = (Raise TypeError, w2)).
Proof.
  assert (Hb : DataLama ["persistent"] ["data"] "llama3.1" 120 (boot (disk 55)) =
               (Ok 0%nat, snd (built 55))) by (vm_compute; reflexivity).
  assert (Hr : run_session (run_api 0%nat) session_ops (snd (built 55)) =
               (fst (after_session 55), snd (after_session 55)))
    by (vm_compute; reflexivity).
  exact (snapshot_is_immutable ["persistent"] ["data"] "llama3.1" 120
           (boot (disk 55)) 0%nat (snd (built 55)) session_ops
           (fst (after_session 55)) (snd (after_session 55)) Hb Hr).
Defined.

Example snapshot_survives_later_calls :
  w_heap (snd (run_session (run_client 0%nat)
                 [TryAppend 2%nat (1 # 1)%Q; TrySetItem 2%nat 0 (9 # 1)%Q;
                  TryAppend 1%nat (5 # 1)%Q; Api (OpQuery "again")]
                 (snd (after_session 55)))) !! 2%nat = Some (PyTuple [round1 (5 # 8)]) /\
  fst (run_session (run_client 0%nat)
         [TryAppend 2%nat (1 # 1)%Q; TrySetItem 2%nat 0 (9 # 1)%Q]
         (snd (after_session 55))) = [Raise AttributeError; Raise TypeError].
Proof. by_running. Qed.

(** ** More runs *)

Lemma needs_reindexing_repeatable_witness :
  w_fs (snd (after_session 65)) = w_fs (boot (disk 65)) /\
  fst (_needs_reindexing 0%nat ["persistent"] ["data"] (snd (after_session 65))) =
  fst (_needs_reindexing 0%nat ["persistent"] ["data"] (boot (disk 65))) /\
  fst (_needs_reindexing 0%nat ["persistent"] ["data"]
         (snd (_needs_reindexing 0%nat ["persistent"] ["data"] (boot (disk 65))))) =
  fst (_needs_reindexing 0%nat ["persistent"] ["data"] (boot (disk 65))).
Proof.
  assert (Hfs : w_fs (snd (after_session 65)) = w_fs (boot (disk 65)))
    by (vm_compute; reflexivity).
  split; [exact Hfs |].
  exact (needs_reindexing_repeatable 0%nat ["persistent"] ["data"]
           (boot (disk 65)) (snd (after_session 65)) Hfs).
Defined.

Lemma needs_reindexing_cache_not_listed_witness :
  cannot_list (disk 55) ["nowhere"] /\
  _needs_reindexing 0%nat ["nowhere"] ["data"] (boot (disk 55)) =
  (Raise ValueError,
   add_trace (boot (disk 55)) [EvEnter_needs_reindexing ["nowhere"] ["data"]]).
Proof.
  assert (Hno : cannot_list (w_fs (boot (disk 55))) ["nowhere"])
    by (intros m es; discriminate).
  split; [exact Hno |].
  exact (needs_reindexing_cache_not_listed 0%nat ["nowhere"] ["data"]
           (boot (disk 55)) Hno).
Defined.

Example unreadable_cache_raises_ValueError :
  fst (_needs_reindexing 0%nat ["persistent"] ["data"]
         (boot (Dir 10 true [("persistent", Dir 50 false [("docstore.json", File 70)]);
                             ("data", data_tree 55)]))) = Raise ValueError.
Proof. by_running. Qed.

Lemma cache_file_mtimes_ignored_witness :
  resolve disk_touched ["persistent"] = Found (retime_files (fun _ => 999) cache_tree) /\
  fst (_needs_reindexing 0%nat ["persistent"] ["data"] (boot disk_touched)) =
  fst (_needs_reindexing 0%nat ["persistent"] ["data"] (boot (disk 55))).
Proof.
  assert (Hc' : resolve (w_fs (boot disk_touched)) ["persistent"] =
                Found (retime_files (fun _ => 999) cache_tree)) by reflexivity.
  split; [exact Hc' |].
  exact (cache_file_mtimes_ignored 0%nat ["persistent"] ["data"]
           (boot (disk 55)) (boot disk_touched) cache_tree (fun _ => 999)
           eq_refl eq_refl eq_refl Hc' eq_refl).
Defined.


Lemma instances_do_not_share_durations_witness :
  0%nat <> 2%nat /\
  query_log 0%nat (snd (built 55)) = Some [] /\
  query_log 0%nat (snd second_session) = Some [] /\
  (exists d, get_load_duration 0%nat (snd (built 55)) = (Ok (VFloat d), snd (built 55)) /\
             get_load_duration 0%nat (snd second_session) =
             (Ok (VFloat d), snd second_session)) /\
  (exists logb, query_log 2%nat (snd second_session) = Some logb /\
                length logb = successful_queries session_ops (fst second_session)).
Proof.
  assert (Ha : DataLama ["persistent"] ["data"] "llama3.1" 120 (boot (disk 55)) =
               (Ok 0%nat, snd (built 55))) by (vm_compute; reflexivity).
  assert (Hb : DataLama ["persistent"] ["data"] "llama3.1" 120 (snd (built 55)) =
               (Ok 2%nat, snd built_twice)) by (vm_compute; reflexivity).
  assert (Hr : run_session (run_api 2%nat) session_ops (snd built_twice) =
               (fst second_session, snd second_session)) by (vm_compute; reflexivity).
  exact (instances_do_not_share_durations
           ["persistent"] ["data"] "llama3.1" 120 ["persistent"] ["data"] "llama3.1" 120
           (boot (disk 55)) 0%nat (snd (built 55)) 2%nat (snd built_twice)
           session_ops (fst second_session) (snd second_session) Ha Hb Hr).
Defined.

Example second_instance_has_its_own_list :
  query_log 2%nat (snd second_session) = Some [round1 (9 # 8); round1 (15 # 8)] /\
  query_log 0%nat (snd second_session) = Some [].
Proof. by_running. Qed.

Example failed_load_stops_before_persist :
  fst (DataLama ["elsewhere"] ["nowhere"] "llama3.1" 120 (boot (disk 55))) = Raise ValueError /\
  path_events (w_trace (snd (DataLama ["elsewhere"] ["nowhere"] "llama3.1" 120
                               (boot (disk 55))))) = [EvLoadData ["nowhere"]].
Proof. by_running. Qed.


Lemma successive_snapshots_witness :
  let q := round1 (py_sub (perf_counter_at (S (w_ticks (snd (after_session 55)))))
                          (perf_counter_at (w_ticks (snd (after_session 55))))) in
  exists log t1 t2 w',
    query_log 0%nat (snd (after_session 55)) = Some log /\
    (let! t1 := get_query_durations 0%nat in
     let! response := query 0%nat "Who own the one ring?" in
     let! t2 := get_query_durations 0%nat in
     ret (t1, response, t2)) (snd (after_session 55)) = (Ok (t1, "Sauron", t2), w') /\
    t1 <> t2 /\
    w_heap w' !! t1 = Some (PyTuple log) /\
    w_heap w' !! t2 = Some (PyTuple (log ++ [q])) /\
    query_log 0%nat w' = Some (log ++ [q]).
Proof.
  assert (Hb : DataLama ["persistent"] ["data"] "llama3.1" 120 (boot (disk 55)) =
               (Ok 0%nat, snd (built 55))) by (vm_compute; reflexivity).
  assert (Hr : run_session (run_api 0%nat) session_ops (snd (built 55)) =
               (fst (after_session 55), snd (after_session 55)))
    by (vm_compute; reflexivity).
  assert (He : session_engine 0%nat (snd (after_session 55)) = Some ["docstore.json"])
    by (vm_compute; reflexivity).
  assert (Hq : engine_query ["docstore.json"] "Who own the one ring?"
                 (w_fs (snd (after_session 55))) (w_ext (snd (after_session 55))) =
               (Ok "Sauron", disk 55, 8%nat))
    by (vm_compute; reflexivity).
  exact (successive_snapshots ["persistent"] ["data"] "llama3.1" 120
           (boot (disk 55)) 0%nat (snd (built 55)) session_ops
           (fst (after_session 55)) (snd (after_session 55))
           "Who own the one ring?" ["docstore.json"] "Sauron" (disk 55) 8%nat
           Hb Hr He Hq).
Defined.

Lemma main_builds_then_asks_once_witness :
  main [] (boot (disk 55)) =
  (Ok (ScriptOutput (py_sub (25 # 8) (0 # 8)) "Sauron"), snd (main [] (boot (disk 55)))) /\
  let self := length (w_heap (boot (disk 55))) in
  exists w1 w2 mid,
    DataLama ([] ++ ["persistent"]) ([] ++ ["data"]) "llama3.1" 240
      (snd (perf_counter (boot (disk 55)))) = (Ok self, w1) /\
    query self "Who own the one ring?" w1 =
      (Ok (printed (ScriptOutput (py_sub (25 # 8) (0 # 8)) "Sauron")), w2) /\
    snd (main [] (boot (disk 55))) = snd (perf_counter w2) /\
    w_ticks w2 = (5 + w_ticks (boot (disk 55)))%nat /\
    total_logged (ScriptOutput (py_sub (25 # 8) (0 # 8)) "Sauron") =
      py_sub (perf_counter_at (5 + w_ticks (boot (disk 55))))
             (perf_counter_at (w_ticks (boot (disk 55)))) /\
    w_trace (snd (main [] (boot (disk 55)))) =
      w_trace (boot (disk 55)) ++
      [EvPerfCounter (w_ticks (boot (disk 55)))] ++ mid ++
      [EvPerfCounter (5 + w_ticks (boot (disk 55)))] /\
    questions_asked mid = ["Who own the one ring?"] /\
    (monotone_clock ->
     (0 <= total_logged (ScriptOutput (py_sub (25 # 8) (0 # 8)) "Sauron"))%Q).
Proof.
  assert (Hm : main [] (boot (disk 55)) =
               (Ok (ScriptOutput (py_sub (25 # 8) (0 # 8)) "Sauron"),
                snd (main [] (boot (disk 55)))))
    by (vm_compute; reflexivity).
  split; [exact Hm |].
  exact (main_builds_then_asks_once [] (boot (disk 55))
           (ScriptOutput (py_sub (25 # 8) (0 # 8)) "Sauron")
           (snd (main [] (boot (disk 55)))) Hm).
Defined.

Example main_on_demo_disk :
  fst (main [] (boot (disk 55))) = Ok (ScriptOutput (py_sub (25 # 8) (0 # 8)) "Sauron") /\
  (py_sub (25 # 8) (0 # 8) == 25 # 8)%Q /\
  query_log 0%nat (snd (main [] (boot (disk 55)))) = Some [round1 (7 # 8)] /\
  get_load_duration 0%nat (snd (main [] (boot (disk 55)))) =
    (Ok (VFloat (py_sub (4 # 8) (1 # 8))), snd (main [] (boot (disk 55)))) /\
  w_trace (snd (main [] (boot (disk 55)))) =
  [EvPerfCounter 0; EvEmbedding "BAAI/bge-base-en-v1.5"; EvOllama "llama3.1" 240;
   EvPerfCounter 1; EvStat ["persistent"];
   EvEnter_needs_reindexing ["persistent"] ["data"];
   EvStat ["persistent"]; EvStat ["persistent"; "graph"];
   EvStat ["data"; "a.txt"]; EvStat ["data"; "sub"; "b.txt"];
   EvLog (LogLoading ["persistent"]); EvLoadIndex ["persistent"];
   EvPerfCounter 2; EvSetAttr 0%nat "_load_duration";
   EvLog (LogLoaded (py_sub (4 # 8) (1 # 8)));
   EvAsQueryEngine ["docstore.json"] 4; EvSetAttr 0%nat "query_engine";
   EvSetAttr 0%nat "_query_durations"; EvPerfCounter 3;
   EvLog (LogProcessing "Who own the one ring?");
   EvEngineQuery ["docstore.json"] "Who own the one ring?";
   EvPerfCounter 4; EvLog (LogCompleted (round1 (7 # 8)));
   EvPerfCounter 5].
Proof. by_running. Qed.
